(** * Resume screening: scoring core, job-description analyzer, experience extractor

    A shallow embedding of the scoring and extraction core of the resume
    screener ([matcher/scorer.py], [parsers/jd_parser.py],
    [extractors/keyword_extractor.py]) together with the properties its
    specification states about it.

    Modelling conventions.
    - Python [float] values are read twice.  Module [ResumeScorer] takes
      them as exact rationals ([Qc], canonical fractions with Leibniz
      equality): it carries the properties that rest on sets, counts and
      order.  Module [ResumeScorerBinary64] takes them as the interpreter
      does, as IEEE 754 binary64 numbers ([spec_float]) whose operations
      round to nearest: it carries the properties that speak of the
      values computed.
    - Python [str] values are byte strings ([string], UTF-8); [str.lower],
      [str.strip], [int] and the regex classes [\d], [\s], [\w] are those
      of ASCII, so the model coincides with Python on ASCII text.
    - Python [set] values are [gset string]; [list(some_set)] is kept as the
      set, since its order is unspecified.
    - [dict.get(key, default)] is an [option] field read with [default].
    - The patterns handed to [re] are the strings of the source; module [Re]
      compiles them and matches them by backtracking, in the order in which
      Python tries alternatives and repetitions.
    - A loop over a list is a [foldl] whose accumulator is the variable the
      loop updates; a [try] whose handler is [continue] is an [option]. *)

From Stdlib Require Import ZArith QArith Qcanon Qround String Ascii List Lia Lqa.
From Stdlib Require Import Sorted Permutation SpecFloat.
From stdpp Require Import base numbers option list gmap sets strings.

Open Scope Z_scope.
Open Scope Qc_scope.

(** ** Numbers *)

Module PyNum.

(** An [int] used where Python expects a [float]. *)
Definition Zq (z : Z) : Qc := Q2Qc (inject_Z z).

(** The decimal literal [n / d], e.g. [dec 7 10] for [0.7]. *)
Definition dec (n : Z) (d : positive) : Qc := Q2Qc (n # d).

(** [max(a, b)]: the first argument unless the second is strictly larger. *)
Definition py_max (a b : Qc) : Qc := if decide (a < b) then b else a.

(** [min(a, b)]: the first argument unless the second is strictly smaller. *)
Definition py_min (a b : Qc) : Qc := if decide (b < a) then b else a.

(** [round(x)]: nearest integer, ties to the even one. *)
Definition round_half_even (x : Qc) : Z :=
  let f := Qfloor x in
  let r := x - Zq f in
  if decide (r < dec 1 2) then f
  else if decide (dec 1 2 < r) then (f + 1)%Z
  else if Z.even f then f else (f + 1)%Z.

(** [round(x, 2)]. *)
Definition py_round2 (x : Qc) : Qc := Zq (round_half_even (x * Zq 100)) / Zq 100.

(** [len(s)] of a set or list, as a float operand. *)
Definition len (n : nat) : Qc := Zq (Z.of_nat n).

End PyNum.
Import PyNum.

(** ** Strings *)

Module PyStr.

Definition is_upper (c : ascii) : bool :=
  let n := N_of_ascii c in (65 <=? n)%N && (n <=? 90)%N.

Definition is_lower (c : ascii) : bool :=
  let n := N_of_ascii c in (97 <=? n)%N && (n <=? 122)%N.

Definition lower_ascii (c : ascii) : ascii :=
  if is_upper c then ascii_of_N (N_of_ascii c + 32) else c.

Definition upper_ascii (c : ascii) : ascii :=
  if is_lower c then ascii_of_N (N_of_ascii c - 32) else c.

(** [s.lower()] *)
Fixpoint lower (s : string) : string :=
  match s with
  | EmptyString => EmptyString
  | String c s' => String (lower_ascii c) (lower s')
  end.

Definition is_digit (c : ascii) : bool :=
  let n := N_of_ascii c in (48 <=? n)%N && (n <=? 57)%N.

(** [str.isspace] on ASCII: tab to carriage return, the four separators
    and the blank; also the class [\s]. *)
Definition is_space (c : ascii) : bool :=
  let n := N_of_ascii c in
  ((9 <=? n)%N && (n <=? 13)%N) || ((28 <=? n)%N && (n <=? 32)%N).

(** The class [\w]. *)
Definition is_word (c : ascii) : bool :=
  is_digit c || is_upper c || is_lower c || (N_of_ascii c =? 95)%N.

Fixpoint lstrip (s : string) : string :=
  match s with
  | String c s' => if is_space c then lstrip s' else s
  | EmptyString => s
  end.

Fixpoint rstrip (s : string) : string :=
  match s with
  | String c s' =>
    match rstrip s' with
    | EmptyString => if is_space c then EmptyString else String c EmptyString
    | t => String c t
    end
  | EmptyString => s
  end.

(** [s.strip()] *)
Definition strip (s : string) : string := lstrip (rstrip s).

Fixpoint int_digits (acc : Z) (s : string) : option Z :=
  match s with
  | EmptyString => Some acc
  | String c s' =>
    if is_digit c
    then int_digits (acc * 10 + (Z.of_N (N_of_ascii c) - 48)) s'
    else None
  end.

(** [int(s)] on a run of decimal digits; [None] stands for [ValueError].
    It is only ever applied to what [\d+] or [\d{4}] matched. *)
Definition int (s : string) : option Z :=
  match s with
  | EmptyString => None
  | _ => int_digits 0 s
  end.

(** [sep.join(parts)] *)
Fixpoint join (sep : string) (parts : list string) : string :=
  match parts with
  | [] => EmptyString
  | [p] => p
  | p :: ps => p +:+ sep +:+ join sep ps
  end.

(** Some character of [s] is an upper-case letter. *)
Fixpoint has_upper (s : string) : bool :=
  match s with
  | EmptyString => false
  | String c s' => is_upper c || has_upper s'
  end.

End PyStr.
Import PyStr.

(** ** matcher/scorer.py

    The scorer with its numbers taken as exact rationals.  What is proved
    of it rests on sets, counts and order; the values the interpreter
    computes, which are rounded at every operation, are those of
    [ResumeScorerBinary64] below. *)

Module ResumeScorer.

Record Weights := {
  required_skills_w : Qc;
  preferred_skills_w : Qc;
  experience_w : Qc;
  keyword_density_w : Qc }.

(** The configuration dictionary; a missing key is [None]. *)
Record Config := {
  cfg_weights : option Weights;
  cfg_min_score : option Qc;
  cfg_experience_tolerance : option Z }.

Definition default_weights : Weights :=
  {| required_skills_w := dec 50 100;
     preferred_skills_w := dec 25 100;
     experience_w := dec 15 100;
     keyword_density_w := dec 10 100 |}.

(** [_load_config(None)] *)
Definition default_config : Config :=
  {| cfg_weights := Some default_weights;
     cfg_min_score := Some 0;
     cfg_experience_tolerance := Some 2%Z |}.

(** [self.weights], set in [__init__]. *)
Definition weights (cfg : Config) : Weights :=
  default default_weights (cfg_weights cfg).

(** The parsed job description handed to the scorer. *)
Record JdData := {
  jd_required_skills : option (list string);
  jd_preferred_skills : option (list string);
  jd_keywords : option (list string);
  jd_min_experience : option Z }.

Record Score := {
  total_score : Qc;
  required_skills_score : Qc;
  preferred_skills_score : Qc;
  experience_score : Qc;
  keyword_score : Qc;
  matched_required_skills : gset string;
  matched_preferred_skills : gset string;
  missing_required_skills : gset string;
  resume_experience : Z;
  required_experience : Z }.

Definition _calculate_skill_match (resume_skills jd_skills : gset string) : Qc :=
  if decide (jd_skills = ∅) then 1
  else
    let matched_skills := resume_skills ∩ jd_skills in
    let match_ratio := len (size matched_skills) / len (size jd_skills) in
    match_ratio.

(** The division by [tolerance + 1] is only reached when
    [required_exp - tolerance <= resume_exp < required_exp], hence with
    [tolerance > 0]: the function never raises. *)
Definition _calculate_experience_match (cfg : Config) (resume_exp required_exp : Z) : Qc :=
  if (required_exp =? 0)%Z then 1
  else
    let tolerance := default 2%Z (cfg_experience_tolerance cfg) in
    if (resume_exp >=? required_exp)%Z then 1
    else if (resume_exp >=? required_exp - tolerance)%Z then
      let gap := (required_exp - resume_exp)%Z in
      let score := 1 - (Zq gap / Zq (tolerance + 1) * dec 3 10) in
      py_max (dec 7 10) score
    else
      let ratio := if (required_exp >? 0)%Z
                   then Zq resume_exp / Zq required_exp else 0 in
      py_max 0 (ratio * dec 7 10).

Definition _calculate_keyword_match (resume_keywords jd_keywords : list string) : Qc :=
  match jd_keywords with
  | [] => 1
  | _ =>
    let resume_keyword_set : gset string := list_to_set (lower <$> resume_keywords) in
    let jd_keyword_set : gset string := list_to_set (lower <$> jd_keywords) in
    let matched_keywords := resume_keyword_set ∩ jd_keyword_set in
    if decide (jd_keyword_set = ∅) then 1
    else
      let match_ratio := len (size matched_keywords) / len (size jd_keyword_set) in
      let frequency_bonus :=
        match resume_keywords with
        | [] => 0
        | _ =>
          let keyword_count :=
            length (filter (λ kw, lower kw ∈ jd_keyword_set) resume_keywords) in
          py_min (dec 2 10) (len keyword_count / len (length resume_keywords))
        end in
      py_min 1 (match_ratio + frequency_bonus)
  end.

Definition score_resume (cfg : Config) (resume_skills : gset string)
    (resume_experience : Z) (resume_keywords : list string) (jd_data : JdData) : Score :=
  let jd_required : gset string :=
    list_to_set (lower <$> default [] (jd_required_skills jd_data)) in
  let jd_preferred : gset string :=
    list_to_set (lower <$> default [] (jd_preferred_skills jd_data)) in
  let jd_keywords := default [] (jd_keywords jd_data) in
  let jd_min_exp := default 0%Z (jd_min_experience jd_data) in
  let required_score := _calculate_skill_match resume_skills jd_required in
  let preferred_score := _calculate_skill_match resume_skills jd_preferred in
  let experience_score := _calculate_experience_match cfg resume_experience jd_min_exp in
  let keyword_score := _calculate_keyword_match resume_keywords jd_keywords in
  let total_score :=
    required_score * required_skills_w (weights cfg) +
    preferred_score * preferred_skills_w (weights cfg) +
    experience_score * experience_w (weights cfg) +
    keyword_score * keyword_density_w (weights cfg) in
  {| total_score := py_round2 (total_score * Zq 100);
     required_skills_score := py_round2 (required_score * Zq 100);
     preferred_skills_score := py_round2 (preferred_score * Zq 100);
     experience_score := py_round2 (experience_score * Zq 100);
     keyword_score := py_round2 (keyword_score * Zq 100);
     matched_required_skills := resume_skills ∩ jd_required;
     matched_preferred_skills := resume_skills ∩ jd_preferred;
     missing_required_skills := jd_required ∖ resume_skills;
     resume_experience := resume_experience;
     required_experience := jd_min_exp |}.

(** One entry of the batch, as the callers build it: the resume (its text),
    its score, its skills and its years of experience. *)
Record ScoredResume := {
  resume : string;
  score : Score;
  skills : list string;
  experience : Z }.

(** [sorted(xs, key=..., reverse=True)]: Python's sort is stable, and with
    [reverse=True] elements with equal keys keep their original order.
    That behaviour determines the result ([sorted_reverse_unique] below),
    so any stable sort models it; here an insertion sort, the head of the
    list being put back in front of the first element whose key is not
    strictly larger than its own. *)
Fixpoint insert_desc {A} (key : A → Qc) (x : A) (l : list A) : list A :=
  match l with
  | [] => [x]
  | y :: l' => if decide (key x < key y) then y :: insert_desc key x l'
               else x :: y :: l'
  end.

Definition sorted_reverse {A} (key : A → Qc) (l : list A) : list A :=
  foldr (insert_desc key) [] l.

Definition rank_resumes (scored_resumes : list ScoredResume) : list ScoredResume :=
  sorted_reverse (λ x, total_score (score x)) scored_resumes.

End ResumeScorer.

(** ** Binary64 *)

Module Binary64.

(** A Python [float]: an IEEE 754 binary64 number. *)
Definition float : Type := spec_float.

Definition prec : Z := 53.
Definition emax : Z := 1024.

Definition mul : float → float → float := SFmul prec emax.
Definition add : float → float → float := SFadd prec emax.
Definition sub : float → float → float := SFsub prec emax.
Definition ltb : float → float → bool := SFltb.
Definition leb : float → float → bool := SFleb.

(** The binary64 number nearest to [a / b], ties to even, for [b ≠ 0]:
    the quotient is taken with at least 55 bits, one more bit records
    whether the division left a remainder, and the result is rounded
    once. *)
Definition nearest (a b : Z) : float :=
  let negative := xorb (a <? 0)%Z (b <? 0)%Z in
  let na := Z.abs a in
  let nb := Z.abs b in
  if (na =? 0)%Z then S754_zero negative
  else
    let k := Z.max 0 (56 + Z.log2 nb - Z.log2 na) in
    let q := (Z.shiftl na k / nb)%Z in
    let sticky := if (Z.shiftl na k mod nb =? 0)%Z then 0%Z else 1%Z in
    let m := (2 * q + sticky)%Z in
    binary_normalize prec emax (if negative then (- m)%Z else m) (- k - 1) negative.

(** A decimal literal [n / d] of the source, such as [lit 7 10] for
    [0.7]. *)
Definition lit (n : Z) (d : positive) : float := nearest n (Zpos d).

Definition zero : float := lit 0 1.
Definition one : float := lit 1 1.

(** The quotient [a / b] is beyond the largest float: its magnitude is at
    least [2^1024 - 2^970], half a unit past it. *)
Definition too_large (a b : Z) : bool :=
  ((2 ^ 1024 - 2 ^ 970) * Z.abs b <=? Z.abs a)%Z.

(** [a / b] on [int]s; [None] for [ZeroDivisionError] and for
    [OverflowError]. *)
Definition true_div (a b : Z) : option float :=
  if (b =? 0)%Z then None
  else if too_large a b then None
  else Some (nearest a b).

(** An [int] operand of a [float] operation; [None] for [OverflowError]. *)
Definition of_int (z : Z) : option float :=
  if too_large z 1 then None else Some (nearest z 1).

(** [len(a) / len(b)] for a non-empty [b]: lengths are far below the range
    of a float, so that the division raises nothing. *)
Definition len_div (n d : nat) : float := nearest (Z.of_nat n) (Z.of_nat d).

(** [max(a, b)]: the first argument unless the second is strictly larger. *)
Definition py_max (a b : float) : float := if ltb a b then b else a.

(** [min(a, b)]: the first argument unless the second is strictly smaller. *)
Definition py_min (a b : float) : float := if ltb b a then b else a.

(** [num / den] rounded to the nearest integer, ties to the even one. *)
Definition round_half_even (num den : Z) : Z :=
  let q := (num / den)%Z in
  match (2 * (num mod den) ?= den)%Z with
  | Lt => q
  | Gt => (q + 1)%Z
  | Eq => if Z.even q then q else (q + 1)%Z
  end.

(** [round(x, 2)]: the magnitude [m * 2^e] of [x] is rounded to a whole
    number of hundredths, ties to even, and the float nearest to that
    decimal is returned, with the sign of [x]; zeros, infinities and NaN
    are returned as they are. *)
Definition hundredths (m : positive) (e : Z) : Z :=
  if (0 <=? e)%Z then (Zpos m * 2 ^ e * 100)%Z
  else round_half_even (Zpos m * 100) (2 ^ (- e)).

Definition round2 (x : float) : float :=
  match x with
  | S754_finite s m e =>
    let r := nearest (hundredths m e) 100 in
    if s then SFopp r else r
  | _ => x
  end.

(** The exact value of a finite float. *)
Definition value (x : float) : option Q :=
  match x with
  | S754_zero _ => Some 0%Q
  | S754_finite s m e =>
    let n := if s then Zneg m else Zpos m in
    Some (if (0 <=? e)%Z then inject_Z (n * 2 ^ e) else Qmake n (Z.to_pos (2 ^ (- e))))
  | _ => None
  end.

End Binary64.

(** ** matcher/scorer.py in binary64

    The scorer once more, its arithmetic being that of the interpreter:
    every [/], [*], [+] and [-] rounds to the nearest binary64 number and
    [round] is the one of [float].  The sets, the counts and the
    comparisons of integers are those of [ResumeScorer]; [None] stands for
    an exception raised by a division. *)

Module ResumeScorerBinary64.
Import Binary64.

(** A number of the configuration, read as a [float]. *)
Definition of_config (q : Qc) : float := nearest (Qnum q) (Zpos (Qden q)).

Record Score := {
  total_score : float;
  required_skills_score : float;
  preferred_skills_score : float;
  experience_score : float;
  keyword_score : float;
  matched_required_skills : gset string;
  matched_preferred_skills : gset string;
  missing_required_skills : gset string;
  resume_experience : Z;
  required_experience : Z }.

Definition _calculate_skill_match (resume_skills jd_skills : gset string) : float :=
  if decide (jd_skills = ∅) then one
  else
    let matched_skills := resume_skills ∩ jd_skills in
    let match_ratio := len_div (size matched_skills) (size jd_skills) in
    match_ratio.

Definition _calculate_experience_match (cfg : ResumeScorer.Config)
    (resume_exp required_exp : Z) : option float :=
  if (required_exp =? 0)%Z then Some one
  else
    let tolerance := default 2%Z (ResumeScorer.cfg_experience_tolerance cfg) in
    if (resume_exp >=? required_exp)%Z then Some one
    else if (resume_exp >=? required_exp - tolerance)%Z then
      let gap := (required_exp - resume_exp)%Z in
      quotient ← true_div gap (tolerance + 1);
      let score := sub one (mul quotient (lit 3 10)) in
      Some (py_max (lit 7 10) score)
    else
      ratio ← (if (required_exp >? 0)%Z then true_div resume_exp required_exp
               else of_int 0);
      Some (py_max zero (mul ratio (lit 7 10))).

Definition _calculate_keyword_match (resume_keywords jd_keywords : list string) : float :=
  match jd_keywords with
  | [] => one
  | _ =>
    let resume_keyword_set : gset string := list_to_set (lower <$> resume_keywords) in
    let jd_keyword_set : gset string := list_to_set (lower <$> jd_keywords) in
    let matched_keywords := resume_keyword_set ∩ jd_keyword_set in
    if decide (jd_keyword_set = ∅) then one
    else
      let match_ratio := len_div (size matched_keywords) (size jd_keyword_set) in
      let frequency_bonus :=
        match resume_keywords with
        | [] => zero
        | _ =>
          let keyword_count :=
            length (filter (λ kw, lower kw ∈ jd_keyword_set) resume_keywords) in
          py_min (lit 2 10) (len_div keyword_count (length resume_keywords))
        end in
      py_min one (add match_ratio frequency_bonus)
  end.

Definition score_resume (cfg : ResumeScorer.Config) (resume_skills : gset string)
    (resume_experience : Z) (resume_keywords : list string)
    (jd_data : ResumeScorer.JdData) : option Score :=
  let jd_required : gset string :=
    list_to_set (lower <$> default [] (ResumeScorer.jd_required_skills jd_data)) in
  let jd_preferred : gset string :=
    list_to_set (lower <$> default [] (ResumeScorer.jd_preferred_skills jd_data)) in
  let jd_keywords := default [] (ResumeScorer.jd_keywords jd_data) in
  let jd_min_exp := default 0%Z (ResumeScorer.jd_min_experience jd_data) in
  let required_score := _calculate_skill_match resume_skills jd_required in
  let preferred_score := _calculate_skill_match resume_skills jd_preferred in
  experience_score ← _calculate_experience_match cfg resume_experience jd_min_exp;
  let keyword_score := _calculate_keyword_match resume_keywords jd_keywords in
  let weights := ResumeScorer.weights cfg in
  let total_score :=
    add (add (add
      (mul required_score (of_config (ResumeScorer.required_skills_w weights)))
      (mul preferred_score (of_config (ResumeScorer.preferred_skills_w weights))))
      (mul experience_score (of_config (ResumeScorer.experience_w weights))))
      (mul keyword_score (of_config (ResumeScorer.keyword_density_w weights))) in
  Some {| total_score := round2 (mul total_score (lit 100 1));
          required_skills_score := round2 (mul required_score (lit 100 1));
          preferred_skills_score := round2 (mul preferred_score (lit 100 1));
          experience_score := round2 (mul experience_score (lit 100 1));
          keyword_score := round2 (mul keyword_score (lit 100 1));
          matched_required_skills := resume_skills ∩ jd_required;
          matched_preferred_skills := resume_skills ∩ jd_preferred;
          missing_required_skills := jd_required ∖ resume_skills;
          resume_experience := resume_experience;
          required_experience := jd_min_exp |}.

End ResumeScorerBinary64.

(** ** The regular expressions of Python's [re], as far as the patterns of
    the parsers use them *)

Module Re.

(** One item of a bracketed set. *)
Inductive citem :=
| CChar (c : ascii)
| CRange (lo hi : ascii)
| CDigit
| CSpace
| CWord.

Inductive regex :=
| Eps
| Any
| Lit (c : ascii)
| Set_ (items : list citem)
| Cat (r1 r2 : regex)
| Alt (r1 r2 : regex)
| Star (greedy : bool) (r : regex)
| Group (i : nat) (r : regex)
| Look (r : regex)
| WordB
| Eos.

Record Flags := { IGNORECASE : bool; DOTALL : bool; MULTILINE : bool }.

(** *** Parsing a pattern *)

Definition opt (greedy : bool) (r : regex) : regex :=
  if greedy then Alt r Eps else Alt Eps r.

Fixpoint times (n : nat) (r : regex) : regex :=
  match n with O => Eps | S O => r | S n' => Cat r (times n' r) end.

(** [r{0,k}] *)
Fixpoint upto (greedy : bool) (k : nat) (r : regex) : regex :=
  match k with O => Eps | S k' => opt greedy (Cat r (upto greedy k' r)) end.

Definition repeat (greedy : bool) (lo hi : nat) (r : regex) : regex :=
  match lo with
  | O => upto greedy hi r
  | _ => match (hi - lo)%nat with
         | O => times lo r
         | d => Cat (times lo r) (upto greedy d r)
         end
  end.

Fixpoint lits (s : string) : regex :=
  match s with
  | EmptyString => Eps
  | String c EmptyString => Lit c
  | String c s' => Cat (Lit c) (lits s')
  end.

Definition cat (r1 r2 : regex) : regex :=
  match r1, r2 with
  | Eps, _ => r2
  | _, Eps => r1
  | _, _ => Cat r1 r2
  end.

(** Decimal digits at the head of [s]. *)
Fixpoint read_nat (acc : option nat) (s : string) : option nat * string :=
  match s with
  | String c s' =>
    if is_digit c
    then read_nat (Some (default O acc * 10 + (N.to_nat (N_of_ascii c) - 48))%nat) s'
    else (acc, s)
  | EmptyString => (acc, s)
  end.

(** The character after a backslash inside a set, or outside. *)
Definition escape_item (c : ascii) : option citem :=
  if Ascii.eqb c "d" then Some CDigit
  else if Ascii.eqb c "s" then Some CSpace
  else if Ascii.eqb c "w" then Some CWord
  else if is_word c then None
  else Some (CChar c).

(** Number of continuation bytes announced by a UTF-8 lead byte. *)
Definition utf8_tail (c : ascii) : nat :=
  let n := N_of_ascii c in
  if (n <? 192)%N then 0 else if (n <? 224)%N then 1
  else if (n <? 240)%N then 2 else 3.

Fixpoint take_str (n : nat) (s : string) : string * string :=
  match n, s with
  | S n', String c s' => let '(a, b) := take_str n' s' in (String c a, b)
  | _, _ => (EmptyString, s)
  end.

(** The body of a bracketed set, up to and including the closing bracket:
    the one-byte items, and the characters that take several bytes. *)
Fixpoint parse_set (n : nat) (first : bool) (s : string) {struct n}
    : option (list citem * list string * string) :=
  match n, s with
  | O, _ | _, EmptyString => None
  | S n', String c s' =>
    if Ascii.eqb c "]" && negb first then Some ([], [], s')
    else if Ascii.eqb c "^" && first then None
    else if Ascii.eqb c "\" then
      match s' with
      | String e s'' =>
        match escape_item e, parse_set n' false s'' with
        | Some it, Some (its, wide, r) => Some (it :: its, wide, r)
        | _, _ => None
        end
      | EmptyString => None
      end
    else if (128 <=? N_of_ascii c)%N then
      let '(tl, s'') := take_str (utf8_tail c) s' in
      match s'' with
      | String "-" (String d _) => if Ascii.eqb d "]" then
          match parse_set n' false s'' with
          | Some (its, wide, r) => Some (its, String c tl :: wide, r)
          | None => None
          end else None
      | _ =>
        match parse_set n' false s'' with
        | Some (its, wide, r) => Some (its, String c tl :: wide, r)
        | None => None
        end
      end
    else
      match s' with
      | String "-" (String hi s'') =>
        if Ascii.eqb hi "]" then
          match parse_set n' false s' with
          | Some (its, wide, r) => Some (CChar c :: its, wide, r)
          | None => None
          end
        else if (128 <=? N_of_ascii hi)%N || Ascii.eqb hi "\" then None
        else
          match parse_set n' false s'' with
          | Some (its, wide, r) => Some (CRange c hi :: its, wide, r)
          | None => None
          end
      | _ =>
        match parse_set n' false s' with
        | Some (its, wide, r) => Some (CChar c :: its, wide, r)
        | None => None
        end
      end
  end.

Definition set_regex (its : list citem) (wide : list string) : regex :=
  foldl (λ r w, Alt r (lits w)) (Set_ its) wide.

(** A quantifier at the head of [s], applied to [r]. *)
Definition parse_quant (r : regex) (s : string) : option (regex * string) :=
  let lazy (s : string) : bool * string :=
    match s with String "?" s' => (false, s') | _ => (true, s) end in
  match s with
  | String "*" s' => let '(g, s'') := lazy s' in Some (Star g r, s'')
  | String "+" s' => let '(g, s'') := lazy s' in Some (Cat r (Star g r), s'')
  | String "?" s' => let '(g, s'') := lazy s' in Some (opt g r, s'')
  | String "{" s' =>
    match read_nat None s' with
    | (Some lo, String "}" s'') =>
      let '(g, s3) := lazy s'' in Some (repeat g lo lo r, s3)
    | (Some lo, String "," s'') =>
      match read_nat None s'' with
      | (Some hi, String "}" s3) =>
        let '(g, s4) := lazy s3 in
        if (lo <=? hi)%nat then Some (repeat g lo hi r, s4) else None
      | _ => None
      end
    | _ => None
    end
  | _ => Some (r, s)
  end.

(** Alternation, sequence and atom, with the number of the next
    capturing group threaded through. *)
Fixpoint parse_alt (n : nat) (s : string) (g : nat) {struct n}
    : option (regex * string * nat) :=
  match n with
  | O => None
  | S n' =>
    match parse_seq n' s g with
    | Some (r1, String "|" s', g') =>
      match parse_alt n' s' g' with
      | Some (r2, s'', g'') => Some (Alt r1 r2, s'', g'')
      | None => None
      end
    | res => res
    end
  end
with parse_seq (n : nat) (s : string) (g : nat) {struct n}
    : option (regex * string * nat) :=
  match n with
  | O => None
  | S n' =>
    let continue (atom : option (regex * string * nat)) :=
      match atom with
      | Some (r, s', g') =>
        match parse_quant r s' with
        | Some (rq, s'') =>
          match parse_seq n' s'' g' with
          | Some (r2, s3, g'') => Some (cat rq r2, s3, g'')
          | None => None
          end
        | None => None
        end
      | None => None
      end in
    let close (inner : option (regex * string * nat)) (wrap : regex → regex) :=
      match inner with
      | Some (r, String ")" s', g') => Some (wrap r, s', g')
      | _ => None
      end in
    match s with
    | EmptyString => Some (Eps, s, g)
    | String c s' =>
      if Ascii.eqb c "|" || Ascii.eqb c ")" then Some (Eps, s, g)
      else if Ascii.eqb c "(" then
        match s' with
        | String "?" (String ":" s'') => continue (close (parse_alt n' s'' g) id)
        | String "?" (String "=" s'') => continue (close (parse_alt n' s'' g) Look)
        | String "?" _ => None
        | _ => continue (close (parse_alt n' s' (S g)) (Group g))
        end
      else if Ascii.eqb c "[" then
        match parse_set (String.length s') true s' with
        | Some (its, wide, s'') => continue (Some (set_regex its wide, s'', g))
        | None => None
        end
      else if Ascii.eqb c "\" then
        match s' with
        | String e s'' =>
          if Ascii.eqb e "b" then continue (Some (WordB, s'', g))
          else match escape_item e with
               | Some (CChar x) => continue (Some (Lit x, s'', g))
               | Some it => continue (Some (Set_ [it], s'', g))
               | None => None
               end
        | EmptyString => None
        end
      else if Ascii.eqb c "." then continue (Some (Any, s', g))
      else if Ascii.eqb c "$" then continue (Some (Eos, s', g))
      else if Ascii.eqb c "^" || Ascii.eqb c "*" || Ascii.eqb c "+"
              || Ascii.eqb c "?" || Ascii.eqb c "{" then None
      else continue (Some (Lit c, s', g))
    end
  end.

(** [re.compile(pattern)]; [None] for a pattern outside the supported
    syntax. *)
Definition compile (pattern : string) : option regex :=
  match parse_alt (2 * String.length pattern + 2) pattern 1 with
  | Some (r, EmptyString, _) => Some r
  | _ => None
  end.


(** *** Matching *)

(** A position in the text: its index, the character before it and the
    text from it on. *)
Record Pos := { idx : N; prev : option ascii; rest : string }.

Definition start_of (text : string) : Pos :=
  {| idx := 0; prev := None; rest := text |}.

Definition advance (p : Pos) : Pos :=
  match rest p with
  | String a t => {| idx := N.succ (idx p); prev := Some a; rest := t |}
  | EmptyString => p
  end.

(** The spans of the capturing groups closed so far, latest first. *)
Definition Caps := list (nat * (N * N)).

Definition item_has (it : citem) (a : ascii) : bool :=
  match it with
  | CChar c => Ascii.eqb a c
  | CRange lo hi => (N_of_ascii lo <=? N_of_ascii a)%N && (N_of_ascii a <=? N_of_ascii hi)%N
  | CDigit => is_digit a
  | CSpace => is_space a
  | CWord => is_word a
  end.

Definition set_has (fl : Flags) (its : list citem) (a : ascii) : bool :=
  existsb (λ it, item_has it a
                 || (IGNORECASE fl && (item_has it (lower_ascii a)
                                       || item_has it (upper_ascii a)))) its.

Definition lit_has (fl : Flags) (c a : ascii) : bool :=
  if IGNORECASE fl then Ascii.eqb (lower_ascii a) (lower_ascii c) else Ascii.eqb a c.

Definition newline : ascii := ascii_of_N 10.

Definition any_has (fl : Flags) (a : ascii) : bool :=
  DOTALL fl || negb (Ascii.eqb a newline).

Definition at_boundary (p : Pos) : bool :=
  let before := match prev p with Some a => is_word a | None => false end in
  let after := match rest p with String a _ => is_word a | EmptyString => false end in
  xorb before after.

Definition at_end (fl : Flags) (p : Pos) : bool :=
  match rest p with
  | EmptyString => true
  | String a EmptyString => Ascii.eqb a newline
  | String a _ => MULTILINE fl && Ascii.eqb a newline
  end.

Definition one (ok : ascii → bool) (p : Pos) (c : Caps)
    (k : Pos → Caps → option (Pos * Caps)) : option (Pos * Caps) :=
  match rest p with
  | String a _ => if ok a then k (advance p) c else None
  | EmptyString => None
  end.

(** The backtracking matcher, in continuation-passing style: [k] is what
    has to match after [r].  Alternatives are tried left to right, a
    greedy star tries one more round before stopping and a lazy one
    stops before trying one more round.  [bound] is at least the length
    of the text; a round of a star has to consume a character. *)
Fixpoint run (fl : Flags) (bound : nat) (r : regex) (p : Pos) (c : Caps)
    (k : Pos → Caps → option (Pos * Caps)) {struct r} : option (Pos * Caps) :=
  match r with
  | Eps => k p c
  | Any => one (any_has fl) p c k
  | Lit x => one (lit_has fl x) p c k
  | Set_ its => one (set_has fl its) p c k
  | Cat r1 r2 => run fl bound r1 p c (λ p' c', run fl bound r2 p' c' k)
  | Alt r1 r2 =>
    match run fl bound r1 p c k with
    | Some res => Some res
    | None => run fl bound r2 p c k
    end
  | Star greedy r' =>
    (fix rounds (n : nat) (p : Pos) (c : Caps) {struct n} : option (Pos * Caps) :=
       match n with
       | O => k p c
       | S n' =>
         let again (_ : unit) :=
           run fl bound r' p c
             (λ p' c', if (idx p <? idx p')%N then rounds n' p' c' else None) in
         if greedy then
           match again () with Some res => Some res | None => k p c end
         else
           match k p c with Some res => Some res | None => again () end
       end) bound p c
  | Group i r' => run fl bound r' p c (λ p' c', k p' ((i, (idx p, idx p')) :: c'))
  | Look r' =>
    match run fl bound r' p c (λ p' c', Some (p', c')) with
    | Some (_, c') => k p c'
    | None => None
    end
  | WordB => if at_boundary p then k p c else None
  | Eos => if at_end fl p then k p c else None
  end.

(** A match object: where it starts, where it ends, and its groups. *)
Record Match := { m_start : N; m_stop : Pos; m_caps : Caps }.

Definition match_at (fl : Flags) (bound : nat) (r : regex) (p : Pos) : option Match :=
  match run fl bound r p [] (λ p' c', Some (p', c')) with
  | Some (p', c') => Some {| m_start := idx p; m_stop := p'; m_caps := c' |}
  | None => None
  end.

(** The leftmost match at or after [p]. *)
Fixpoint search_from (fl : Flags) (bound : nat) (r : regex)
    (i : N) (pv : option ascii) (s : string) {struct s} : option Match :=
  match match_at fl bound r {| idx := i; prev := pv; rest := s |} with
  | Some mt => Some mt
  | None =>
    match s with
    | String a t => search_from fl bound r (N.succ i) (Some a) t
    | EmptyString => None
    end
  end.

(** The non-overlapping matches from [p] on, left to right.  After an
    empty match the scan moves on by one character. *)
Fixpoint matches_from (fl : Flags) (bound : nat) (r : regex)
    (fuel : nat) (p : Pos) {struct fuel} : list Match :=
  match fuel with
  | O => []
  | S fuel' =>
    match search_from fl bound r (idx p) (prev p) (rest p) with
    | None => []
    | Some mt =>
      let q := m_stop mt in
      if (m_start mt <? idx q)%N then mt :: matches_from fl bound r fuel' q
      else match rest q with
           | EmptyString => [mt]
           | _ => mt :: matches_from fl bound r fuel' (advance q)
           end
    end
  end.

Definition no_flags : Flags :=
  {| IGNORECASE := false; DOTALL := false; MULTILINE := false |}.

(** [re.IGNORECASE], [re.IGNORECASE | re.DOTALL] and [re.MULTILINE]. *)
Definition flag_I : Flags :=
  {| IGNORECASE := true; DOTALL := false; MULTILINE := false |}.
Definition flag_IS : Flags :=
  {| IGNORECASE := true; DOTALL := true; MULTILINE := false |}.
Definition flag_M : Flags :=
  {| IGNORECASE := false; DOTALL := false; MULTILINE := true |}.

(** [re.search(pattern, text, flags)] *)
Definition search (pattern : string) (text : string) (fl : Flags) : option Match :=
  match compile pattern with
  | Some r => search_from fl (String.length text) r 0 None text
  | None => None
  end.

(** [list(re.finditer(pattern, text, flags))] *)
Definition finditer (pattern : string) (text : string) (fl : Flags) : list Match :=
  match compile pattern with
  | Some r => matches_from fl (String.length text) r (S (String.length text)) (start_of text)
  | None => []
  end.

(** [match.group(i)] for [i >= 1] on a match in [text]; [None] when the
    group took no part in the match. *)
Definition group (text : string) (mt : Match) (i : nat) : option string :=
  match i with
  | O => Some (substring (N.to_nat (m_start mt))
                         (N.to_nat (idx (m_stop mt) - m_start mt)) text)
  | _ =>
    match list_find (λ e, fst e = i) (m_caps mt) with
    | Some (_, (_, (a, b))) => Some (substring (N.to_nat a) (N.to_nat (b - a)) text)
    | None => None
    end
  end.

End Re.
Import Re.

(** ** parsers/jd_parser.py *)

Module JDParser.

Definition required_keywords : list string := [
  "required"; "must have"; "mandatory"; "essential";
  "required skills"; "requirements"; "must possess";
  "key requirements"; "core skills"; "minimum qualifications";
  "basic qualifications"; "what you need"; "what we need";
  "you must have"; "you should have"; "necessary skills";
  "technical requirements"; "hard requirements"; "non-negotiable";
  "qualifications required"; "skills required"; "expected skills";
  "we are looking for"; "we expect"; "you will need" ].

Definition preferred_keywords : list string := [
  "preferred"; "nice to have"; "desired"; "plus";
  "preferred skills"; "bonus"; "advantage"; "good to have";
  "additional skills"; "preferred qualifications"; "a plus";
  "ideal candidate"; "would be nice"; "beneficial";
  "extra credit"; "not required but"; "optional";
  "added advantage"; "brownie points"; "icing on the cake";
  "it would be great if"; "even better if"; "extra skills" ].

Definition experience_patterns : list string := [
  "(\d+)\+?\s*(?:years?|yrs?).*?(?:experience|exp)";
  "(?:experience|exp).*?(\d+)\+?\s*(?:years?|yrs?)";
  "minimum\s+(\d+)\s+(?:years?|yrs?)";
  "at\s+least\s+(\d+)\s+(?:years?|yrs?)";
  "(\d+)\s*-\s*\d+\s*(?:years?|yrs?)";
  "(\d+)\s*to\s*\d+\s*(?:years?|yrs?)";
  "over\s+(\d+)\s+(?:years?|yrs?)";
  "more\s+than\s+(\d+)\s+(?:years?|yrs?)";
  "(\d+)\+\s*(?:years?|yrs?)";
  "around\s+(\d+)\s+(?:years?|yrs?)" ].

(** The dictionary returned by [parse_text]; the three [list(a_set)]
    entries are kept as sets. *)
Record JD := {
  text : string;
  min_experience : Z;
  required_skills : gset string;
  preferred_skills : gset string;
  keywords : gset string }.

(** [min(years)] of a non-empty list. *)
Definition py_min_list (y : Z) (ys : list Z) : Z := foldl Z.min y ys.

Definition _extract_experience (text : string) : Z :=
  let years :=
    foldl (λ years pattern,
      foldl (λ years mt,
        match group text mt 1 ≫= int with
        | Some year => years ++ [year]
        | None => years
        end) years (finditer pattern text flag_I))
      [] experience_patterns in
  match years with
  | [] => 0%Z
  | y :: ys => py_min_list y ys
  end.

(** The pattern built for one heading phrase: the phrase, a colon or
    blanks, then lazily everything up to a phrase of the other kind or
    the end of the text. *)
Definition section_pattern (keyword : string) (others : list string) : string :=
  keyword +:+ "[:\s]+(.*?)(?=" +:+ join "|" others +:+ "|$)".

Definition _split_sections (text : string) : string * string :=
  let required_text :=
    foldl (λ acc keyword,
      match search (section_pattern keyword preferred_keywords) text flag_IS with
      | Some mt => acc +:+ default "" (group text mt 1) +:+ " "
      | None => acc
      end) "" required_keywords in
  let preferred_text :=
    foldl (λ acc keyword,
      match search (section_pattern keyword required_keywords) text flag_IS with
      | Some mt => acc +:+ default "" (group text mt 1) +:+ " "
      | None => acc
      end) "" preferred_keywords in
  (strip required_text, strip preferred_text).

Definition skill_patterns : list string := [
  "\b(java|python|javascript|typescript|c\+\+|c#|c|ruby|php|go|golang|rust|swift|kotlin|scala|perl|r|matlab|vba|bash|shell|powershell)\b";
  "\b(spring|spring\s*boot|spring\s*mvc|spring\s*cloud|hibernate|jpa|jdbc|j2ee|jee|java\s*ee|servlets|jsp|jsf|struts|maven|gradle|tomcat|jboss|wildfly|weblogic|websphere)\b";
  "\b(django|flask|fastapi|pandas|numpy|scipy|tensorflow|pytorch|keras|scikit-learn|sklearn|celery|asyncio)\b";
  "\b(react|react\.?js|angular|angular\.?js|vue|vue\.?js|next\.?js|nuxt|svelte|ember|backbone|jquery|redux|mobx|webpack|babel|vite|npm|yarn|pnpm)\b";
  "\b(node\.?js|express\.?js|express|nestjs|nest\.?js|asp\.net|\.net|\.net\s*core|rails|ruby\s*on\s*rails|laravel|symfony|codeigniter|gin|echo|fiber)\b";
  "\b(mysql|postgresql|postgres|mongodb|mongo|oracle|sql\s*server|mssql|sqlite|redis|cassandra|dynamodb|couchdb|mariadb|neo4j|elasticsearch|elastic)\b";
  "\b(sql|nosql|plsql|pl/sql|t-sql|rdbms|database)\b";
  "\b(aws|amazon\s*web\s*services|azure|microsoft\s*azure|gcp|google\s*cloud|cloud|heroku|digitalocean|linode|vercel|netlify)\b";
  "\b(ec2|s3|lambda|rds|dynamodb|sqs|sns|cloudfront|cloudwatch|ecs|eks|fargate|api\s*gateway|cognito|iam)\b";
  "\b(docker|kubernetes|k8s|jenkins|git|github|gitlab|bitbucket|ci/cd|cicd|terraform|ansible|puppet|chef|vagrant|helm|argocd)\b";
  "\b(html5?|css3?|sass|scss|less|tailwind|bootstrap|xml|json|yaml|rest|restful|soap|graphql|api|apis|microservices|micro-services)\b";
  "\b(kafka|rabbitmq|activemq|sqs|redis|celery|zeromq|pulsar)\b";
  "\b(junit|testng|mockito|jest|mocha|chai|cypress|selenium|pytest|unittest|rspec|jasmine|karma|protractor)\b";
  "\b(jira|confluence|trello|asana|slack|teams|notion|monday)\b";
  "\b(agile|scrum|kanban|waterfall|tdd|bdd|ddd|lean|xp|extreme\s*programming|devops|devsecops)\b";
  "\b(hadoop|spark|hive|pig|airflow|etl|data\s*warehouse|snowflake|redshift|bigquery|tableau|power\s*bi|looker)\b";
  "\b(android|ios|react\s*native|flutter|xamarin|ionic|swift|objective-c|kotlin)\b";
  "\b(oauth|jwt|ssl|tls|https|encryption|security|owasp|penetration|vulnerability)\b";
  "\b(prometheus|grafana|elk|splunk|datadog|newrelic|dynatrace|logstash|kibana)\b";
  "\b(git|svn|subversion|mercurial|github|gitlab|bitbucket)\b";
  "\b(mvc|mvvm|mvp|clean\s*architecture|hexagonal|cqrs|event\s*sourcing|saga|domain\s*driven)\b" ].

Definition normalizations : gmap string string := list_to_map [
  ("react.js", "react");
  ("reactjs", "react");
  ("vue.js", "vue");
  ("vuejs", "vue");
  ("node.js", "nodejs");
  ("express.js", "express");
  ("next.js", "nextjs");
  ("angular.js", "angular");
  ("angularjs", "angular");
  ("nest.js", "nestjs");
  ("golang", "go");
  ("postgres", "postgresql");
  ("mongo", "mongodb");
  ("k8s", "kubernetes");
  ("amazon web services", "aws");
  ("microsoft azure", "azure");
  ("google cloud", "gcp");
  ("pl/sql", "plsql");
  ("mssql", "sql server") ].

Definition _normalize_skill (skill : string) : string :=
  let skill := strip (lower skill) in
  default skill (normalizations !! skill).

Definition _extract_skills (text : string) : gset string :=
  foldl (λ skills pattern,
    foldl (λ skills mt,
      let skill := strip (default "" (group text mt 1)) in
      match skill with
      | EmptyString => skills
      | _ => {[ _normalize_skill skill ]} ∪ skills
      end) skills (finditer pattern text flag_I))
    ∅ skill_patterns.

Definition cap_pattern : string := "\b([A-Z][a-z]+(?:\s+[A-Z][a-z]+)*)\b".
Definition version_pattern : string := "\b([a-z]+\s*\d+(?:\.\d+)?)\b".
Definition common_words : list string := ["the"; "and"; "for"; "with"; "this"; "that"].

Definition _extract_keywords (text : string) : gset string :=
  let keywords : gset string :=
    foldl (λ keywords mt,
      let keyword := default "" (group text mt 1) in
      if decide (lower keyword ∈ common_words) then keywords
      else {[ lower keyword ]} ∪ keywords)
      ∅ (finditer cap_pattern text flag_M) in
  foldl (λ keywords mt, {[ lower (default "" (group text mt 1)) ]} ∪ keywords)
    keywords (finditer version_pattern text flag_I).

Definition parse_text (text : string) : JD :=
  let text_lower := lower text in
  let min_experience := _extract_experience text_lower in
  let '(required_section, preferred_section) := _split_sections text_lower in
  let required_skills := _extract_skills required_section in
  let preferred_skills := _extract_skills preferred_section in
  let required_skills :=
    if decide (required_skills = ∅ ∧ preferred_skills = ∅)
    then let all_skills := _extract_skills text_lower in all_skills
    else required_skills in
  let keywords := _extract_keywords text_lower in
  {| text := text;
     min_experience := min_experience;
     required_skills := required_skills;
     preferred_skills := preferred_skills;
     keywords := keywords |}.

End JDParser.

(** ** extractors/keyword_extractor.py *)

Module KeywordExtractor.

Definition patterns : list string := [
  "(\d+)\+?\s*(?:years?|yrs?).*?(?:experience|exp)";
  "(?:experience|exp).*?(\d+)\+?\s*(?:years?|yrs?)";
  "over\s+(\d+)\s+(?:years?|yrs?)";
  "more\s+than\s+(\d+)\s+(?:years?|yrs?)" ].

Definition date_patterns : list string := [
  "(\d{4})\s*[-–]\s*(\d{4}|present|current)";
  "(\d{1,2}/\d{4})\s*[-–]\s*(\d{1,2}/\d{4}|present|current)" ].

(** [int(re.search(r'\d{4}', s).group())]; [None] stands for the
    [AttributeError] of a failed search. *)
Definition year_of (s : string) : option Z :=
  search "\d{4}" s no_flags ≫= λ mt, group s mt 0 ≫= int.

Definition _calculate_experience_from_dates (text : string) : Z :=
  foldl (λ total_years pattern,
    foldl (λ total_years mt,
      let start := default "" (group text mt 1) in
      let end_ := default "" (group text mt 2) in
      match year_of start with
      | None => total_years
      | Some start_year =>
        let end_year :=
          if decide (lower end_ ∈ ["present"; "current"]) then Some 2026%Z
          else year_of end_ in
        match end_year with
        | None => total_years
        | Some end_year =>
          let years := Z.max 0 (end_year - start_year) in
          if (0 <? years)%Z && (years <? 30)%Z then (total_years + years)%Z
          else total_years
        end
      end) total_years (finditer pattern text flag_I))
    0%Z date_patterns.

(** [max(years)] of a non-empty list. *)
Definition py_max_list (y : Z) (ys : list Z) : Z := foldl Z.max y ys.

Definition extract_experience_years (text : string) : Z :=
  let text_lower := lower text in
  let years :=
    foldl (λ years pattern,
      foldl (λ years mt,
        match group text_lower mt 1 ≫= int with
        | Some year =>
          if (0 <? year)%Z && (year <? 50)%Z then years ++ [year] else years
        | None => years
        end) years (finditer pattern text_lower no_flags))
      [] patterns in
  let date_years := _calculate_experience_from_dates text in
  let years := if (date_years =? 0)%Z then years else years ++ [date_years] in
  match years with
  | [] => 0%Z
  | y :: ys => py_max_list y ys
  end.

End KeywordExtractor.

(** ** Notions of the specification

    The words the specification uses for what the code computes, written
    independently of the loops of the code, so that the theorems can compare
    the two. *)

Module Spec.

(** The keyword-match formula in the words of the specification, the JD
    keywords being a set: the match ratio is divided by the number of JD
    keywords, and a resume keyword counts towards the bonus when its
    lowercase form is a JD keyword. *)
Definition keyword_match_claimed (resumeKeywords : list string)
    (jdKeywords : gset string) : Qc :=
  if decide (jdKeywords = ∅) then 1
  else
    let distinct : gset string := list_to_set (lower <$> resumeKeywords) in
    let lowered : gset string := set_map lower jdKeywords in
    let matchRatio := len (size (distinct ∩ lowered)) / len (size jdKeywords) in
    let bonus :=
      match resumeKeywords with
      | [] => 0
      | _ =>
        py_min (dec 2 10)
          (len (length (filter (λ kw, lower kw ∈ jdKeywords) resumeKeywords))
           / len (length resumeKeywords))
      end in
    py_min 1 (matchRatio + bonus).

(** The year values a list of patterns matches in a text: group 1 of every
    match of every pattern, read as an integer. *)
Definition year_values (patterns : list string) (fl : Flags) (text : string) : list Z :=
  flat_map (λ pattern, omap (λ mt, group text mt 1 ≫= int) (finditer pattern text fl))
    patterns.

(** [lo < n < hi] *)
Definition between (lo hi n : Z) : bool := (lo <? n)%Z && (n <? hi)%Z.

(** The span in years of one matched date range, the words present and
    current standing for the year 2026. *)
Definition span_of (text : string) (mt : Match) : option Z :=
  let start := default "" (group text mt 1) in
  let end_ := default "" (group text mt 2) in
  start_year ← KeywordExtractor.year_of start;
  end_year ← (if decide (lower end_ ∈ ["present"; "current"]) then Some 2026%Z
              else KeywordExtractor.year_of end_);
  Some (Z.max 0 (end_year - start_year)).

(** The spans the code adds up: those of the matches of the first date
    pattern, then those of the matches of the second.  A range that both
    patterns match contributes two spans. *)
Definition date_spans (text : string) : list Z :=
  flat_map (λ pattern, omap (span_of text) (finditer pattern text flag_I))
    KeywordExtractor.date_patterns.

Definition sum_list (l : list Z) : Z := foldr Z.add 0%Z l.

(** What the first strategy of the resume side yields: the year values of
    the phrase patterns that lie strictly between 0 and 50. *)
Definition phrase_years (text : string) : list Z :=
  filter (λ n, between 0 50 n = true)
    (year_values KeywordExtractor.patterns no_flags (lower text)).

(** What the second strategy yields: the sum of the spans that lie strictly
    between 0 and 30. *)
Definition date_years (text : string) : Z :=
  sum_list (filter (λ n, between 0 30 n = true) (date_spans text)).

(** An employment date range in the words of the specification: a range
    of either form, the form with months tried first, so that a scan of
    the text from left to right finds every range once. *)
Definition range_pattern : string :=
  "(\d{1,2}/\d{4})\s*[-–]\s*(\d{1,2}/\d{4}|present|current)|(\d{4})\s*[-–]\s*(\d{4}|present|current)".

Definition first_of (a b : option string) : string :=
  match a with Some s => s | None => default "" b end.

(** The span in years of one date range, the words present and current
    standing for the year 2026. *)
Definition range_span (text : string) (mt : Match) : option Z :=
  let start := first_of (group text mt 1) (group text mt 3) in
  let end_ := first_of (group text mt 2) (group text mt 4) in
  start_year ← KeywordExtractor.year_of start;
  end_year ← (if decide (lower end_ ∈ ["present"; "current"]) then Some 2026%Z
              else KeywordExtractor.year_of end_);
  Some (Z.max 0 (end_year - start_year)).

(** The spans of the date ranges of a text, one for each range. *)
Definition range_spans (text : string) : list Z :=
  omap (range_span text) (finditer range_pattern text flag_I).

(** The sum over the date ranges of a text of their spans, a span counting
    when it lies strictly between 0 and 30. *)
Definition range_years (text : string) : Z :=
  sum_list (filter (λ n, between 0 30 n = true) (range_spans text)).

Definition none {X} (o : option X) : bool :=
  match o with None => true | Some _ => false end.

(** No heading phrase of either kind, followed by a colon or a blank,
    occurs in the text. *)
Definition no_heading (text : string) : bool :=
  forallb (λ keyword,
      none (search (JDParser.section_pattern keyword JDParser.preferred_keywords)
              text flag_IS))
    JDParser.required_keywords
  && forallb (λ keyword,
      none (search (JDParser.section_pattern keyword JDParser.required_keywords)
              text flag_IS))
    JDParser.preferred_keywords.

End Spec.
Import Spec.

(** ** matcher/scorer.py, the threshold filter *)

Module ResumeScorerFilter.
Import ResumeScorer.

(** [min_score] is [None] for the default argument, read then from the
    configuration. *)
Definition filter_by_threshold (cfg : Config) (scored_resumes : list ScoredResume)
    (min_score : option Qc) : list ScoredResume :=
  let min_score :=
    match min_score with
    | None => default 0 (cfg_min_score cfg)
    | Some m => m
    end in
  filter (λ r, min_score ≤ total_score (score r)) scored_resumes.

End ResumeScorerFilter.

(** ** main.py, screen.py and app.py: rank, filter and select *)

Module ResumeScreeningSystem.
Import ResumeScorer.

(** [l[:n]]: the first [n] elements, and for a negative [n] all but the
    last [-n]. *)
Definition slice_to {A} (l : list A) (n : Z) : list A :=
  if (n <? 0)%Z then take (Z.to_nat (Z.of_nat (length l) + n)) l
  else take (Z.to_nat n) l.

(** Steps "Rank & Filter" of [run]: the optional threshold, the sort by
    total score, the first [top_n]. *)
Definition top_resumes (scored_resumes : list ScoredResume) (top_n : Z)
    (min_score : option Qc) : list ScoredResume :=
  let scored_resumes :=
    match min_score with
    | Some min_score =>
      filter (λ r, min_score ≤ total_score (score r)) scored_resumes
    | None => scored_resumes
    end in
  let ranked_resumes := sorted_reverse (λ x, total_score (score x)) scored_resumes in
  slice_to ranked_resumes top_n.

(** The dictionary returned by [parse_text] as [score_resume] reads it:
    the three [list(a_set)] entries are lists of the elements of the sets,
    in some order. *)
Definition jd_data_of (jd : JDParser.JD) : JdData :=
  {| jd_required_skills := Some (elements (JDParser.required_skills jd));
     jd_preferred_skills := Some (elements (JDParser.preferred_skills jd));
     jd_keywords := Some (elements (JDParser.keywords jd));
     jd_min_experience := Some (JDParser.min_experience jd) |}.

(** Step "Extract & Score" of [run] for one resume text, the three
    extractors being given. *)
Definition score_entry (cfg : Config)
    (extract_skills : string → gset string)
    (extract_experience_years : string → Z)
    (extract_keywords : string → list string)
    (jd_data : JdData) (resume_text : string) : ScoredResume :=
  let resume_skills := extract_skills resume_text in
  let resume_experience := extract_experience_years resume_text in
  let resume_keywords := extract_keywords resume_text in
  let score := score_resume cfg resume_skills resume_experience resume_keywords jd_data in
  {| resume := resume_text;
     score := score;
     skills := elements resume_skills;
     experience := resume_experience |}.

End ResumeScreeningSystem.

(** ** extractors/keyword_extractor.py, skills, keywords and density *)

Module KeywordExtractorSkills.

(** The taxonomy: categories in the order of the dictionary, each with its
    skills and their variations. *)
Definition Taxonomy := list (string * list (string * list string)).

Definition _get_default_taxonomy : Taxonomy := [
  ("programming_languages", [
    ("java", ["java"; "j2ee"; "jdk"; "jre"; "java 8"; "java 11"; "java 17"]);
    ("python", ["python"; "python3"; "py"]);
    ("javascript", ["javascript"; "js"; "ecmascript"; "es6"; "es2015"]);
    ("typescript", ["typescript"; "ts"]);
    ("csharp", ["c#"; "csharp"; ".net"; "dotnet"]);
    ("cpp", ["c++"; "cpp"]);
    ("go", ["go"; "golang"]);
    ("rust", ["rust"]);
    ("ruby", ["ruby"; "rails"]);
    ("php", ["php"]);
    ("kotlin", ["kotlin"]);
    ("scala", ["scala"]);
    ("swift", ["swift"]) ]);
  ("frameworks", [
    ("spring", ["spring"; "spring boot"; "spring mvc"; "spring framework"; "spring cloud"]);
    ("hibernate", ["hibernate"; "jpa"]);
    ("django", ["django"]);
    ("flask", ["flask"]);
    ("react", ["react"; "reactjs"; "react.js"]);
    ("angular", ["angular"; "angularjs"; "angular.js"]);
    ("vue", ["vue"; "vuejs"; "vue.js"]);
    ("nodejs", ["node"; "nodejs"; "node.js"]);
    ("express", ["express"; "expressjs"; "express.js"]);
    ("aspnet", ["asp.net"; "aspnet"]);
    ("struts", ["struts"]);
    ("jsf", ["jsf"; "java server faces"]) ]);
  ("databases", [
    ("mysql", ["mysql"]);
    ("postgresql", ["postgresql"; "postgres"]);
    ("mongodb", ["mongodb"; "mongo"]);
    ("oracle", ["oracle"; "oracle db"; "oracle database"]);
    ("sqlserver", ["sql server"; "mssql"; "ms sql"]);
    ("redis", ["redis"]);
    ("cassandra", ["cassandra"]);
    ("dynamodb", ["dynamodb"]);
    ("db2", ["db2"]) ]);
  ("cloud", [
    ("aws", ["aws"; "amazon web services"; "ec2"; "s3"; "lambda"; "cloudformation"]);
    ("azure", ["azure"; "microsoft azure"]);
    ("gcp", ["gcp"; "google cloud"; "google cloud platform"]) ]);
  ("devops", [
    ("docker", ["docker"]);
    ("kubernetes", ["kubernetes"; "k8s"]);
    ("jenkins", ["jenkins"]);
    ("git", ["git"; "github"; "gitlab"; "bitbucket"]);
    ("cicd", ["ci/cd"; "cicd"; "continuous integration"; "continuous deployment"]);
    ("maven", ["maven"]);
    ("gradle", ["gradle"]);
    ("ansible", ["ansible"]);
    ("terraform", ["terraform"]) ]);
  ("web_technologies", [
    ("html", ["html"; "html5"]);
    ("css", ["css"; "css3"; "sass"; "less"]);
    ("rest", ["rest"; "restful"; "rest api"]);
    ("soap", ["soap"]);
    ("microservices", ["microservices"; "microservice"]);
    ("graphql", ["graphql"]);
    ("json", ["json"]);
    ("xml", ["xml"]) ]);
  ("methodologies", [
    ("agile", ["agile"]);
    ("scrum", ["scrum"]);
    ("kanban", ["kanban"]);
    ("devops", ["devops"]);
    ("tdd", ["tdd"; "test driven development"]);
    ("bdd", ["bdd"; "behavior driven development"]) ]) ].

(** The characters [re.escape] puts a backslash before. *)
Definition special_chars : string :=
  String (ascii_of_N 9) (String (ascii_of_N 10) (String (ascii_of_N 11)
    (String (ascii_of_N 12) (String (ascii_of_N 13) "()[]{}?*+-|^$\.&~# ")))).

Fixpoint in_string (c : ascii) (s : string) : bool :=
  match s with
  | EmptyString => false
  | String a s' => Ascii.eqb a c || in_string c s'
  end.

(** [re.escape(s)] *)
Fixpoint escape (s : string) : string :=
  match s with
  | EmptyString => EmptyString
  | String c s' =>
    if in_string c special_chars then String "\" (String c (escape s'))
    else String c (escape s')
  end.

(** [r'\b' + re.escape(variation) + r'\b'] *)
Definition word_pattern (variation : string) : string :=
  "\b" +:+ escape variation +:+ "\b".

(** The loop over the variations of one skill, left by [break] at the
    first variation found. *)
Fixpoint found_variation (text_lower : string) (variations : list string) : bool :=
  match variations with
  | [] => false
  | variation :: rest =>
    match search (word_pattern variation) text_lower no_flags with
    | Some _ => true
    | None => found_variation text_lower rest
    end
  end.

Definition extract_skills (skills_taxonomy : Taxonomy) (text : string) : gset string :=
  let text_lower := lower text in
  foldl (λ found_skills category,
    foldl (λ found_skills entry,
      if found_variation text_lower entry.2 then {[ entry.1 ]} ∪ found_skills
      else found_skills) found_skills category.2)
    ∅ skills_taxonomy.

(** [re.findall(pattern, text)] for a pattern without a group: the matched
    strings. *)
Definition findall (pattern : string) (text : string) : list string :=
  (λ mt, default "" (group text mt 0)) <$> finditer pattern text no_flags.

Definition extract_keywords (skills_taxonomy : Taxonomy) (text : string) : list string :=
  let text_lower := lower text in
  foldl (λ keywords category,
    foldl (λ keywords entry,
      foldl (λ keywords variation,
        let matches := findall (word_pattern variation) text_lower in
        keywords ++ matches) keywords entry.2) keywords category.2)
    [] skills_taxonomy.

(** [len(s.split())]: the number of maximal runs of characters that are
    not white space; [in_word] tells whether the preceding character
    belongs to such a run. *)
Fixpoint count_words (in_word : bool) (s : string) : nat :=
  match s with
  | EmptyString => 0
  | String c s' =>
    if is_space c then count_words false s'
    else if in_word then count_words true s'
    else S (count_words true s')
  end.

Definition calculate_keyword_density (text : string) (keywords : list string) : Qc :=
  match text, keywords with
  | EmptyString, _ | _, [] => 0
  | _, _ =>
    let text_lower := lower text in
    let total_words := count_words false text_lower in
    if (total_words =? 0)%nat then 0
    else
      let keyword_count :=
        foldl (λ keyword_count keyword,
          let matches := findall (word_pattern (lower keyword)) text_lower in
          (keyword_count + length matches)%nat) 0%nat keywords in
      let density := py_min 1 (len keyword_count / len total_words * Zq 10) in
      density
  end.

(** [text.split('\n')] *)
Fixpoint split_lines (cur : string) (s : string) : list string :=
  match s with
  | EmptyString => [String.rev cur]
  | String c s' =>
    if Ascii.eqb c newline then String.rev cur :: split_lines EmptyString s'
    else split_lines (String c cur) s'
  end.

Fixpoint contains_char (c : ascii) (s : string) : bool :=
  match s with
  | EmptyString => false
  | String a s' => Ascii.eqb a c || contains_char c s'
  end.

Definition name_pattern : string := "\b([A-Z][a-z]+(?:\s+[A-Z][a-z]+){1,3})\b".

(** The loop of [_extract_name] over the lines kept. *)
Fixpoint name_in_lines (lines : list string) : string :=
  match lines with
  | [] => ""
  | line :: rest =>
    if contains_char "@" line
       || negb (none (search "\d{3}[-.\s]?\d{3}[-.\s]?\d{4}" line no_flags))
    then name_in_lines rest
    else
      match search name_pattern line no_flags with
      | Some mt =>
        let name := strip (default "" (group line mt 1)) in
        if decide (lower name ∈ ["resume"; "curriculum vitae"; "summary"])
        then name_in_lines rest
        else name
      | None => name_in_lines rest
      end
  end.

Definition _extract_name (text : string) : string :=
  let lines := take 5 (split_lines EmptyString text) in
  name_in_lines lines.

End KeywordExtractorSkills.

(** ** Reading a word pattern *)

Module WordPattern.
Import Re.

(** A word boundary, the characters of [variation] one after the other,
    a word boundary. *)
Fixpoint literally (variation : string) : regex :=
  match variation with
  | EmptyString => WordB
  | String c v' => Cat (Lit c) (literally v')
  end.

(** The position after [variation] when the text goes on with it at [p]. *)
Fixpoint skip (variation : string) (p : Pos) : option Pos :=
  match variation with
  | EmptyString => Some p
  | String c v' =>
    match rest p with
    | String a _ => if Ascii.eqb a c then skip v' (advance p) else None
    | EmptyString => None
    end
  end.

End WordPattern.

(** * Properties *)

Set Warnings "-clear-no-such-hyp".

(** ** Arithmetic on exact rationals *)

Ltac qc_to_q :=
  repeat (progress (unfold Qcle, Qclt, Qcminus, Qcplus, Qcopp, Qcmult, Qcdiv, Qcinv,
                      Zq, dec, Q2Qc in *; cbn [this] in * ));
  rewrite ?Qred_correct in *.

(** Closed goals about sets and numbers are settled by evaluation. *)
Ltac by_evaluation := apply (bool_decide_unpack _); vm_compute; exact I.

Lemma floor_bounds (x : Qc) : Zq (Qfloor x) ≤ x ∧ x < Zq (Qfloor x) + 1.
Proof.
  pose proof (Qfloor_le x) as H1. pose proof (Qlt_floor x) as H2.
  split; qc_to_q.
  - exact H1.
  - rewrite inject_Z_plus in H2. exact H2.
Qed.

Lemma round_half_even_near (x : Qc) :
  Zq (round_half_even x) - dec 1 2 ≤ x ∧ x ≤ Zq (round_half_even x) + dec 1 2.
Proof.
  destruct (floor_bounds x) as [H1 H2]. unfold round_half_even.
  set (f := Qfloor x) in *.
  assert (Hs : Zq (f + 1) = Zq f + 1).
  { apply Qc_is_canon. qc_to_q. rewrite inject_Z_plus. reflexivity. }
  destruct (decide (x - Zq f < dec 1 2)) as [Ha|Ha].
  - split; qc_to_q; lra.
  - destruct (decide (dec 1 2 < x - Zq f)) as [Hb|Hb].
    + rewrite Hs. split; qc_to_q; lra.
    + destruct (Z.even f); rewrite ?Hs; split; qc_to_q; lra.
Qed.

(** Rounding to two decimals moves a value by at most half a hundredth. *)
Lemma py_round2_near (x : Qc) :
  py_round2 x - dec 1 200 ≤ x ∧ x ≤ py_round2 x + dec 1 200.
Proof.
  unfold py_round2.
  destruct (round_half_even_near (x * Zq 100)) as [H1 H2].
  set (n := round_half_even (x * Zq 100)) in *.
  split; qc_to_q.
  all: clearbody n; change (/ inject_Z 100)%Q with (1 # 100)%Q;
    change (inject_Z 100) with (100 # 1)%Q in *; lra.
Qed.

Lemma py_min_le_l (a b : Qc) : py_min a b ≤ a.
Proof.
  unfold py_min. destruct (decide (b < a)).
  - by apply Qclt_le_weak.
  - apply Qcle_refl.
Qed.

(** ** Lower case *)

Lemma lower_ascii_idemp (c : ascii) : lower_ascii (lower_ascii c) = lower_ascii c.
Proof. destruct c as [[] [] [] [] [] [] [] []]; reflexivity. Qed.

Lemma lower_ascii_not_upper (c : ascii) : is_upper (lower_ascii c) = false.
Proof. destruct c as [[] [] [] [] [] [] [] []]; reflexivity. Qed.

Lemma lower_idemp (s : string) : lower (lower s) = lower s.
Proof. induction s as [|c s IH]; simpl; [done|]. by rewrite lower_ascii_idemp, IH. Qed.

Lemma has_upper_lower (s : string) : has_upper (lower s) = false.
Proof.
  induction s as [|c s IH]; simpl; [done|].
  by rewrite lower_ascii_not_upper, IH.
Qed.

Lemma has_upper_not_fixed (s : string) : has_upper s = true → lower s ≠ s.
Proof. intros H E. rewrite <- E, has_upper_lower in H. done. Qed.

Lemma lowered_set_fixed (l : list string) (s : string) :
  s ∈ (list_to_set (lower <$> l) : gset string) → lower s = s.
Proof.
  rewrite elem_of_list_to_set, list_elem_of_fmap.
  intros (r & -> & _). apply lower_idemp.
Qed.

Lemma upper_not_in_lowered (l : list string) (s : string) :
  has_upper s = true → s ∉ (list_to_set (lower <$> l) : gset string).
Proof. intros Hu Hin. by apply (has_upper_not_fixed s Hu), (lowered_set_fixed l). Qed.

(** ** The scorer in binary64 *)

Section ScorerBinary64.
Import Binary64.

Lemma true_div_defined (a b : Z) :
  (b ≠ 0)%Z → (Z.abs a ≤ Z.abs b)%Z → true_div a b = Some (nearest a b).
Proof.
  intros Hb Hab. unfold true_div, too_large.
  destruct (Z.eqb_spec b 0); [done|].
  destruct (Z.leb_spec ((2 ^ 1024 - 2 ^ 970) * Z.abs b) (Z.abs a)) as [H|H]; [|done].
  exfalso. assert (Hm : (2 ≤ 2 ^ 1024 - 2 ^ 970)%Z) by (by vm_compute).
  set (M := (2 ^ 1024 - 2 ^ 970)%Z) in *. clearbody M. nia.
Qed.

(** The experience score is defined whenever the resume's years are not
    negative: no division raises. *)
Lemma experience_match_defined (cfg : ResumeScorer.Config) (have need : Z) :
  (0 ≤ have)%Z →
  ∃ score, ResumeScorerBinary64._calculate_experience_match cfg have need = Some score.
Proof.
  intros Hh. unfold ResumeScorerBinary64._calculate_experience_match.
  destruct (Z.eqb_spec need 0); [by eexists|].
  set (tolerance := default 2%Z (ResumeScorer.cfg_experience_tolerance cfg)).
  rewrite !Z.geb_leb. destruct (Z.leb_spec need have); [by eexists|].
  destruct (Z.leb_spec (need - tolerance) have).
  - rewrite true_div_defined by lia. by eexists.
  - destruct (Z.gtb_spec need 0); [|lia].
    rewrite true_div_defined by lia. by eexists.
Qed.

(** C1, as amended.  The experience-match component is the two-regime
    piecewise function of (have, need), computed in binary64: 1.0 when
    [need = 0]; 1.0 when [have >= need];
    [max(0.7, 1.0 - (need - have) / (tolerance + 1) * 0.3)] when
    [need - tolerance <= have < need], where the division raises nothing;
    otherwise [max(0.0, have / need * 0.7)] for a positive [need], where
    the division raises nothing for [have >= 0], and 0.0 for a negative
    [need].  The default tolerance is 2, and with it and [need = 5]:
    [have = 5] gives 1.0, [have = 4] and [have = 3] give the floats 0.9 and
    0.8, which lie in [0.7, 1.0), [have = 2] gives
    5044031582654955 / 2^54, the float next below 0.28, printed
    0.27999999999999997, and [have = 0] gives 0.0. *)
Theorem experience_match_piecewise (cfg : ResumeScorer.Config) (have need : Z) :
  let tolerance := default 2%Z (ResumeScorer.cfg_experience_tolerance cfg) in
  let result := ResumeScorerBinary64._calculate_experience_match cfg have need in
  let at5 := ResumeScorerBinary64._calculate_experience_match
               ResumeScorer.default_config in
  (need = 0%Z → result = Some one) ∧
  (need ≠ 0%Z → (need ≤ have)%Z → result = Some one) ∧
  (need ≠ 0%Z → (need - tolerance ≤ have < need)%Z →
     true_div (need - have) (tolerance + 1)
       = Some (nearest (need - have) (tolerance + 1)) ∧
     result = Some (py_max (lit 7 10)
                      (sub one (mul (nearest (need - have) (tolerance + 1))
                                    (lit 3 10))))) ∧
  ((0 < need)%Z → (have < need - tolerance)%Z → (have < need)%Z →
     result = (ratio ← true_div have need;
               Some (py_max zero (mul ratio (lit 7 10)))) ∧
     ((0 ≤ have)%Z → true_div have need = Some (nearest have need))) ∧
  ((need < 0)%Z → (have < need - tolerance)%Z → (have < need)%Z →
     result = Some zero) ∧
  default 2%Z (ResumeScorer.cfg_experience_tolerance ResumeScorer.default_config)
    = 2%Z ∧
  at5 5%Z 5%Z = Some one ∧
  at5 4%Z 5%Z = Some (lit 9 10) ∧
  at5 3%Z 5%Z = Some (lit 8 10) ∧
  (leb (lit 7 10) (lit 9 10) = true ∧ ltb (lit 9 10) one = true) ∧
  (leb (lit 7 10) (lit 8 10) = true ∧ ltb (lit 8 10) one = true) ∧
  at5 2%Z 5%Z = Some (S754_finite false 5044031582654955 (-54)) ∧
  (at5 2%Z 5%Z ≫= value) = Some (5044031582654955 # 18014398509481984)%Q ∧
  at5 0%Z 5%Z = Some zero.
Proof.
  intros tolerance result at5.
  split; [|split; [|split; [|split; [|split]]]].
  - intros ->. reflexivity.
  - intros Hne Hle. unfold result, ResumeScorerBinary64._calculate_experience_match.
    destruct (Z.eqb_spec need 0); [done|].
    rewrite Z.geb_leb. destruct (Z.leb_spec need have); [done|lia].
  - intros Hne [Hlo Hhi].
    assert (Hd : true_div (need - have) (tolerance + 1)
                 = Some (nearest (need - have) (tolerance + 1))).
    { apply true_div_defined; lia. }
    split; [exact Hd|].
    unfold result, ResumeScorerBinary64._calculate_experience_match. fold tolerance.
    destruct (Z.eqb_spec need 0); [done|].
    rewrite !Z.geb_leb. destruct (Z.leb_spec need have); [lia|].
    destruct (Z.leb_spec (need - tolerance) have); [|lia].
    by rewrite Hd.
  - intros Hpos Hlo Hhi. split.
    + unfold result, ResumeScorerBinary64._calculate_experience_match. fold tolerance.
      destruct (Z.eqb_spec need 0); [lia|].
      rewrite !Z.geb_leb. destruct (Z.leb_spec need have); [lia|].
      destruct (Z.leb_spec (need - tolerance) have); [lia|].
      destruct (Z.gtb_spec need 0); [done|lia].
    + intros Hh. apply true_div_defined; lia.
  - intros Hneg Hlo Hhi.
    unfold result, ResumeScorerBinary64._calculate_experience_match. fold tolerance.
    destruct (Z.eqb_spec need 0); [lia|].
    rewrite !Z.geb_leb. destruct (Z.leb_spec need have); [lia|].
    destruct (Z.leb_spec (need - tolerance) have); [lia|].
    destruct (Z.gtb_spec need 0); [lia|]. reflexivity.
  - repeat split; by vm_compute.
Qed.

Lemma experience_match_piecewise_witness :
  ResumeScorerBinary64._calculate_experience_match ResumeScorer.default_config 4 5
    = Some (py_max (lit 7 10) (sub one (mul (nearest 1 3) (lit 3 10)))) ∧
  ResumeScorerBinary64._calculate_experience_match ResumeScorer.default_config 2 5
    = Some (py_max zero (mul (nearest 2 5) (lit 7 10))) ∧
  ResumeScorerBinary64._calculate_experience_match ResumeScorer.default_config (-7) (-2)
    = Some zero.
Proof.
  destruct (experience_match_piecewise ResumeScorer.default_config 4 5)
    as (_ & _ & H3 & _).
  destruct (experience_match_piecewise ResumeScorer.default_config 2 5)
    as (_ & _ & _ & H4 & _).
  destruct (experience_match_piecewise ResumeScorer.default_config (-7) (-2))
    as (_ & _ & _ & _ & H5 & _).
  split; [apply H3; [done|simpl; lia]|]. split.
  - destruct H4 as [H4 H4']; [lia|simpl; lia|lia|].
    rewrite H4, H4' by lia. reflexivity.
  - apply H5; simpl; lia.
Defined.

(** C1, the counterexample.  With the default tolerance, [have = 2] and
    [need = 5] the code returns [2 / 5 * 0.7] as binary64 computes it,
    which is not the float 0.28 and whose exact value is not 28/100.  For
    [have = -10] and [need = -5] the formula [max(0.0, have / need * 0.7)]
    of the claim gives 1.4 where the code, which takes the ratio to be 0
    when [need] is not positive, returns 0.0. *)
Lemma experience_match_claim_fails :
  let at2 := ResumeScorerBinary64._calculate_experience_match
               ResumeScorer.default_config 2 5 in
  at2 ≠ Some (lit 28 100) ∧
  (at2 ≫= value) ≠ Some (28 # 100)%Q ∧
  (∀ q, at2 ≫= value = Some q → ¬ (q == 28 # 100)%Q) ∧
  ResumeScorerBinary64._calculate_experience_match ResumeScorer.default_config (-10) (-5)
    = Some zero ∧
  py_max zero (mul (nearest (-10) (-5)) (lit 7 10)) = lit 14 10 ∧
  lit 14 10 ≠ zero.
Proof.
  intros at2. repeat split; try (by vm_compute).
  intros q Hq. vm_compute in Hq. injection Hq as <-. by vm_compute.
Qed.

End ScorerBinary64.

Section TotalBinary64.
Import Binary64.

Lemma round_half_even_div_near (num den : Z) :
  (0 < den)%Z → (2 * Z.abs (num - den * round_half_even num den) ≤ den)%Z.
Proof.
  intros Hd. unfold round_half_even.
  pose proof (Z.div_mod num den ltac:(lia)) as Hdm.
  pose proof (Z.mod_pos_bound num den Hd) as Hr.
  destruct (Z.compare_spec (2 * (num mod den)) den) as [E|E|E];
    [destruct (Z.even (num / den))|..]; lia.
Qed.

(** C4.  [score_resume] returns a score whenever the experience component
    is computed, and then: the total score is the weighted sum of the four
    component scores, the weights being those of the configuration when it
    has weights and 0.50, 0.25, 0.15 and 0.10 when it has none, multiplied
    by 100 and rounded to two decimals; each component score is reported
    multiplied by 100 and rounded to two decimals.  Sums, products and
    [round] are those of binary64. *)
Theorem total_score_weighted_sum (cfg : ResumeScorer.Config)
    (resume_skills : gset string) (resume_experience : Z)
    (resume_keywords : list string) (jd_data : ResumeScorer.JdData)
    (experience_score : float) :
  let jd_required : gset string :=
    list_to_set (lower <$> default [] (ResumeScorer.jd_required_skills jd_data)) in
  let jd_preferred : gset string :=
    list_to_set (lower <$> default [] (ResumeScorer.jd_preferred_skills jd_data)) in
  let required_score :=
    ResumeScorerBinary64._calculate_skill_match resume_skills jd_required in
  let preferred_score :=
    ResumeScorerBinary64._calculate_skill_match resume_skills jd_preferred in
  let keyword_score :=
    ResumeScorerBinary64._calculate_keyword_match resume_keywords
      (default [] (ResumeScorer.jd_keywords jd_data)) in
  let weighted (wr wp we wk : float) :=
    add (add (add (mul required_score wr) (mul preferred_score wp))
             (mul experience_score we))
        (mul keyword_score wk) in
  let percent (x : float) := round2 (mul x (lit 100 1)) in
  ResumeScorerBinary64._calculate_experience_match cfg resume_experience
    (default 0%Z (ResumeScorer.jd_min_experience jd_data)) = Some experience_score →
  ∃ sc,
    ResumeScorerBinary64.score_resume cfg resume_skills resume_experience
      resume_keywords jd_data = Some sc ∧
    (∀ w, ResumeScorer.cfg_weights cfg = Some w →
       ResumeScorerBinary64.total_score sc
       = percent (weighted
           (ResumeScorerBinary64.of_config (ResumeScorer.required_skills_w w))
           (ResumeScorerBinary64.of_config (ResumeScorer.preferred_skills_w w))
           (ResumeScorerBinary64.of_config (ResumeScorer.experience_w w))
           (ResumeScorerBinary64.of_config (ResumeScorer.keyword_density_w w)))) ∧
    (ResumeScorer.cfg_weights cfg = None →
       ResumeScorerBinary64.total_score sc
       = percent (weighted (lit 50 100) (lit 25 100) (lit 15 100) (lit 10 100))) ∧
    ResumeScorerBinary64.required_skills_score sc = percent required_score ∧
    ResumeScorerBinary64.preferred_skills_score sc = percent preferred_score ∧
    ResumeScorerBinary64.experience_score sc = percent experience_score ∧
    ResumeScorerBinary64.keyword_score sc = percent keyword_score ∧
    ResumeScorer.cfg_weights ResumeScorer.default_config
      = Some ResumeScorer.default_weights ∧
    ResumeScorerBinary64.of_config <$>
      [ResumeScorer.required_skills_w ResumeScorer.default_weights;
       ResumeScorer.preferred_skills_w ResumeScorer.default_weights;
       ResumeScorer.experience_w ResumeScorer.default_weights;
       ResumeScorer.keyword_density_w ResumeScorer.default_weights]
      = [lit 50 100; lit 25 100; lit 15 100; lit 10 100] ∧
    (∀ s m e,
       round2 (S754_finite s m e)
       = (if s then SFopp (nearest (hundredths m e) 100)
          else nearest (hundredths m e) 100) ∧
       ((0 ≤ e)%Z → hundredths m e = (Zpos m * 2 ^ e * 100)%Z) ∧
       ((e < 0)%Z →
          (2 * Z.abs (Zpos m * 100 - 2 ^ (- e) * hundredths m e) ≤ 2 ^ (- e))%Z)).
Proof.
  intros jd_required jd_preferred required_score preferred_score keyword_score
    weighted percent He.
  unfold ResumeScorerBinary64.score_resume. rewrite He. cbn [mbind option_bind].
  eexists. split; [reflexivity|]. cbn [ResumeScorerBinary64.total_score
    ResumeScorerBinary64.required_skills_score
    ResumeScorerBinary64.preferred_skills_score
    ResumeScorerBinary64.experience_score ResumeScorerBinary64.keyword_score].
  split; [|split; [|do 5 (split; [reflexivity|]); split; [by vm_compute|]]].
  - intros w Hw. unfold ResumeScorer.weights. rewrite Hw. reflexivity.
  - intros Hw. unfold ResumeScorer.weights. rewrite Hw. reflexivity.
  - intros s m e. split; [reflexivity|].
    unfold hundredths. split.
    + intros H. destruct (Z.leb_spec 0 e); lia.
    + intros H. destruct (Z.leb_spec 0 e); [lia|].
      apply round_half_even_div_near. apply Z.pow_pos_nonneg; lia.
Qed.

(** Two of five required skills, three of eight preferred skills, the
    experience asked for and no JD keyword, under the default weights: the
    weighted sum is 0.54375 and its hundredfold 54.37499999999999 in
    binary64, reported as 54.37. *)
Lemma total_score_weighted_sum_witness :
  let jd_data :=
    {| ResumeScorer.jd_required_skills := Some ["a"; "b"; "c"; "d"; "e"];
       ResumeScorer.jd_preferred_skills :=
         Some ["a"; "b"; "x"; "p"; "q"; "r"; "s"; "t"];
       ResumeScorer.jd_keywords := None;
       ResumeScorer.jd_min_experience := Some 3%Z |} in
  ∃ sc,
    ResumeScorerBinary64.score_resume ResumeScorer.default_config
      {[ "a"; "b"; "x" ]} 3 [] jd_data = Some sc ∧
    ResumeScorerBinary64.total_score sc = lit 5437 100 ∧
    ResumeScorerBinary64.required_skills_score sc = lit 40 1 ∧
    ResumeScorerBinary64.preferred_skills_score sc = lit 375 10.
Proof.
  intros jd_data.
  destruct (total_score_weighted_sum ResumeScorer.default_config
              {[ "a"; "b"; "x" ]} 3 [] jd_data one)
    as (sc & Hsc & Ht & _ & Hr & Hp & _); [reflexivity|].
  exists sc. split; [exact Hsc|].
  rewrite (Ht ResumeScorer.default_weights eq_refl), Hr, Hp.
  repeat split; by vm_compute.
Defined.

End TotalBinary64.

(** ** The scorer *)

Section Scorer.
Import ResumeScorer.

(** C2. The skill-match component returns 1 when [need] is empty and
    [|have ∩ need| / |need|] otherwise; [score_resume] applies it to the
    (lower-cased) required skills and to the (lower-cased) preferred skills
    of the job description, and reports 100 percent for an empty list of
    required skills, and likewise for preferred skills. *)
Theorem skill_match_ratio (cfg : Config) (have need : gset string)
    (resume_experience : Z) (resume_keywords : list string) (jd_data : JdData) :
  let sc := score_resume cfg have resume_experience resume_keywords jd_data in
  let requiredSkills : gset string :=
    list_to_set (lower <$> default [] (jd_required_skills jd_data)) in
  let preferredSkills : gset string :=
    list_to_set (lower <$> default [] (jd_preferred_skills jd_data)) in
  (need = ∅ → _calculate_skill_match have need = 1) ∧
  (need ≠ ∅ →
     _calculate_skill_match have need = len (size (have ∩ need)) / len (size need)) ∧
  required_skills_score sc
    = py_round2 (_calculate_skill_match have requiredSkills * Zq 100) ∧
  preferred_skills_score sc
    = py_round2 (_calculate_skill_match have preferredSkills * Zq 100) ∧
  (default [] (jd_required_skills jd_data) = [] →
     _calculate_skill_match have requiredSkills = 1 ∧ required_skills_score sc = Zq 100) ∧
  (default [] (jd_preferred_skills jd_data) = [] →
     _calculate_skill_match have preferredSkills = 1 ∧ preferred_skills_score sc = Zq 100).
Proof.
  intros sc requiredSkills preferredSkills.
  split; [|split; [|split; [|split; [|split]]]].
  - intros ->. reflexivity.
  - intros Hne. unfold _calculate_skill_match. by rewrite decide_False.
  - reflexivity.
  - reflexivity.
  - intros E. unfold sc, score_resume, requiredSkills; cbn. rewrite E.
    split; [reflexivity|]. apply Qc_is_canon. reflexivity.
  - intros E. unfold sc, score_resume, preferredSkills; cbn. rewrite E.
    split; [reflexivity|]. apply Qc_is_canon. reflexivity.
Qed.

Lemma skill_match_ratio_witness :
  _calculate_skill_match {[ "java"; "docker" ]} ∅ = 1 ∧
  _calculate_skill_match {[ "java"; "spring"; "mysql"; "docker" ]}
    {[ "docker"; "kubernetes" ]} = dec 1 2 ∧
  required_skills_score
    (score_resume default_config {[ "java" ]} 3 []
       {| jd_required_skills := Some []; jd_preferred_skills := None;
          jd_keywords := None; jd_min_experience := None |}) = Zq 100.
Proof.
  split; [|split].
  - apply (skill_match_ratio default_config {[ "java"; "docker" ]} ∅ 0 []
             {| jd_required_skills := None; jd_preferred_skills := None;
                jd_keywords := None; jd_min_experience := None |}).
    reflexivity.
  - destruct (skill_match_ratio default_config
                {[ "java"; "spring"; "mysql"; "docker" ]} {[ "docker"; "kubernetes" ]}
                0 []
                {| jd_required_skills := None; jd_preferred_skills := None;
                   jd_keywords := None; jd_min_experience := None |})
      as (_ & H & _).
    rewrite H; [|by_evaluation]. apply Qc_is_canon. by vm_compute.
  - apply (skill_match_ratio default_config {[ "java" ]} ∅ 3 []
             {| jd_required_skills := Some []; jd_preferred_skills := None;
                jd_keywords := None; jd_min_experience := None |}).
    reflexivity.
Defined.

Lemma keyword_match_unfold (resume_keywords jd_keywords : list string) :
  jd_keywords ≠ [] →
  let resume_set : gset string := list_to_set (lower <$> resume_keywords) in
  let jd_set : gset string := list_to_set (lower <$> jd_keywords) in
  _calculate_keyword_match resume_keywords jd_keywords =
    py_min 1
      (len (size (resume_set ∩ jd_set)) / len (size jd_set)
       + match resume_keywords with
         | [] => 0
         | _ =>
           py_min (dec 2 10)
             (len (length (filter (λ kw, lower kw ∈ jd_set) resume_keywords))
              / len (length resume_keywords))
         end).
Proof.
  intros Hne resume_set jd_set. unfold _calculate_keyword_match.
  destruct jd_keywords as [|kw kws]; [done|].
  fold resume_set. fold jd_set.
  rewrite decide_False; [done|].
  unfold jd_set. simpl. set_solver.
Qed.

Lemma size_lowered_distinct (l : list string) :
  NoDup (lower <$> l) → size (list_to_set (lower <$> l) : gset string) = length l.
Proof. intros Hnd. by rewrite size_list_to_set, length_fmap. Qed.

(** C3, as amended. The keyword-match component returns 1 when the JD
    keyword list is empty and otherwise [min(1, matchRatio + bonus)], where
    [matchRatio] is the number of distinct lower-cased resume keywords that
    are lower-cased JD keywords, divided by the number of distinct
    lower-cased JD keywords, and [bonus] is [min(0.2, count / |resumeKeywords|)]
    with [count] the resume keywords whose lower-case form is a lower-cased
    JD keyword (0 for an empty resume list).  The score never exceeds 1.
    The divisor is the number of JD keywords whenever no two of them are
    equal ignoring case. *)
Theorem keyword_match_formula (resume_keywords jd_keywords : list string) :
  let resume_set : gset string := list_to_set (lower <$> resume_keywords) in
  let jd_set : gset string := list_to_set (lower <$> jd_keywords) in
  let matchRatio := len (size (resume_set ∩ jd_set)) / len (size jd_set) in
  let count := length (filter (λ kw, lower kw ∈ jd_set) resume_keywords) in
  let bonus :=
    if decide (resume_keywords = []) then 0
    else py_min (dec 2 10) (len count / len (length resume_keywords)) in
  (jd_keywords = [] → _calculate_keyword_match resume_keywords jd_keywords = 1) ∧
  (jd_keywords ≠ [] →
     _calculate_keyword_match resume_keywords jd_keywords = py_min 1 (matchRatio + bonus)) ∧
  _calculate_keyword_match resume_keywords jd_keywords ≤ 1 ∧
  (NoDup (lower <$> jd_keywords) → size jd_set = length jd_keywords).
Proof.
  intros resume_set jd_set matchRatio count bonus.
  assert (Hform : jd_keywords ≠ [] →
    _calculate_keyword_match resume_keywords jd_keywords = py_min 1 (matchRatio + bonus)).
  { intros Hne. rewrite keyword_match_unfold by done.
    unfold matchRatio, bonus, count, resume_set, jd_set.
    by destruct resume_keywords. }
  split; [|split; [|split]].
  - intros ->. reflexivity.
  - exact Hform.
  - destruct jd_keywords as [|kw kws]; [by vm_compute|].
    rewrite Hform by done. apply py_min_le_l.
  - apply size_lowered_distinct.
Qed.

Lemma keyword_match_formula_witness :
  _calculate_keyword_match ["java"; "spring"; "mysql"; "java"; "spring"]
    ["java"; "spring"; "microservices"] = dec 13 15 ∧
  _calculate_keyword_match ["java"] [] = 1 ∧
  size (list_to_set (lower <$> ["java"; "spring"; "microservices"]) : gset string) = 3%nat.
Proof.
  destruct (keyword_match_formula ["java"; "spring"; "mysql"; "java"; "spring"]
              ["java"; "spring"; "microservices"]) as (_ & H2 & _ & H4).
  destruct (keyword_match_formula ["java"] []) as (H1 & _).
  split; [|split].
  - rewrite H2 by done. apply Qc_is_canon. by vm_compute.
  - by apply H1.
  - apply H4. by_evaluation.
Defined.

(** C3, the counterexample. For the JD keywords "Java" and "java" and the
    one resume keyword "java", the code divides by the one distinct
    lower-cased JD keyword and returns 1, where the formula of the claim
    divides by the two JD keywords and gives 0.7. *)
Lemma keyword_match_claim_fails :
  _calculate_keyword_match ["java"] ["Java"; "java"] = 1 ∧
  keyword_match_claimed ["java"] (list_to_set ["Java"; "java"]) = dec 7 10 ∧
  _calculate_keyword_match ["java"] ["Java"; "java"]
    ≠ keyword_match_claimed ["java"] (list_to_set ["Java"; "java"]).
Proof.
  assert (H1 : _calculate_keyword_match ["java"] ["Java"; "java"] = 1).
  { apply Qc_is_canon. by vm_compute. }
  assert (H2 : keyword_match_claimed ["java"] (list_to_set ["Java"; "java"]) = dec 7 10).
  { apply Qc_is_canon. by vm_compute. }
  split; [done|]. split; [done|]. rewrite H1, H2. by intros [=].
Qed.

Lemma skill_match_without (have need : gset string) (s : string) :
  s ∉ need → _calculate_skill_match have need = _calculate_skill_match (have ∖ {[s]}) need.
Proof.
  intros Hs. unfold _calculate_skill_match.
  replace ((have ∖ {[s]}) ∩ need) with (have ∩ need) by set_solver. done.
Qed.

(** C10, as amended. [score_resume] lower-cases the required and preferred
    skill names of the job description and takes the resume skills as they
    are: a resume skill with an upper-case letter is in neither matched
    list, and the scores are the same with it as without it; and when its
    lower-case form is a (lower-cased) required skill, that form is listed
    as missing unless the resume skill set holds the lower-case form too. *)
Theorem uppercase_skill_never_matches (cfg : Config) (resume_skills : gset string)
    (resume_experience : Z) (resume_keywords : list string) (jd_data : JdData)
    (s : string) :
  s ∈ resume_skills → has_upper s = true →
  let sc := score_resume cfg resume_skills resume_experience resume_keywords jd_data in
  let sc' := score_resume cfg (resume_skills ∖ {[s]}) resume_experience
               resume_keywords jd_data in
  let jd_required : gset string :=
    list_to_set (lower <$> default [] (jd_required_skills jd_data)) in
  let jd_preferred : gset string :=
    list_to_set (lower <$> default [] (jd_preferred_skills jd_data)) in
  (s ∉ jd_required) ∧ (s ∉ jd_preferred) ∧
  (s ∉ matched_required_skills sc) ∧
  (s ∉ matched_preferred_skills sc) ∧
  _calculate_skill_match resume_skills jd_required
    = _calculate_skill_match (resume_skills ∖ {[s]}) jd_required ∧
  _calculate_skill_match resume_skills jd_preferred
    = _calculate_skill_match (resume_skills ∖ {[s]}) jd_preferred ∧
  required_skills_score sc = required_skills_score sc' ∧
  preferred_skills_score sc = preferred_skills_score sc' ∧
  total_score sc = total_score sc' ∧
  (lower s ∈ jd_required → lower s ∉ resume_skills →
   lower s ∈ missing_required_skills sc).
Proof.
  intros Hin Hu sc sc' jd_required jd_preferred.
  pose proof (upper_not_in_lowered (default [] (jd_required_skills jd_data)) s Hu) as Hr.
  pose proof (upper_not_in_lowered (default [] (jd_preferred_skills jd_data)) s Hu) as Hp.
  fold jd_required in Hr. fold jd_preferred in Hp.
  unfold sc, sc', score_resume; cbn. fold jd_required. fold jd_preferred.
  rewrite <- !(skill_match_without resume_skills _ s) by done.
  repeat split; set_solver.
Qed.

Lemma uppercase_skill_never_matches_witness :
  "Java" ∈ ({[ "Java"; "docker" ]} : gset string) ∧ has_upper "Java" = true ∧
  ("Java" ∉ matched_required_skills
     (score_resume default_config {[ "Java"; "docker" ]} 3 []
        {| jd_required_skills := Some ["Java"]; jd_preferred_skills := None;
           jd_keywords := None; jd_min_experience := None |})) ∧
  lower "Java" ∈ missing_required_skills
    (score_resume default_config {[ "Java"; "docker" ]} 3 []
       {| jd_required_skills := Some ["Java"]; jd_preferred_skills := None;
          jd_keywords := None; jd_min_experience := None |}).
Proof.
  assert (Hin : "Java" ∈ ({[ "Java"; "docker" ]} : gset string)) by by_evaluation.
  destruct (uppercase_skill_never_matches default_config {[ "Java"; "docker" ]} 3 []
              {| jd_required_skills := Some ["Java"]; jd_preferred_skills := None;
                 jd_keywords := None; jd_min_experience := None |} "Java" Hin eq_refl)
    as (_ & _ & H3 & _ & _ & _ & _ & _ & _ & H10).
  split; [exact Hin|]. split; [reflexivity|]. split; [exact H3|].
  apply H10; by_evaluation.
Defined.

(** C10, the counterexample. The resume skills "Java" and "java" against
    the required skill "Java": the resume skill "Java" has an upper-case
    letter and equals the JD skill ignoring case, yet its lower-case JD
    counterpart "java" is matched by the other resume skill and is not
    listed as missing. *)
Lemma uppercase_skill_counterpart_not_missing :
  let sc := score_resume default_config {[ "Java"; "java" ]} 3 []
              {| jd_required_skills := Some ["Java"]; jd_preferred_skills := None;
                 jd_keywords := None; jd_min_experience := None |} in
  "Java" ∈ ({[ "Java"; "java" ]} : gset string) ∧ has_upper "Java" = true ∧
  lower "Java" ∈ (list_to_set (lower <$> ["Java"]) : gset string) ∧
  ¬ (lower "Java" ∈ missing_required_skills sc) ∧
  missing_required_skills sc = ∅.
Proof.
  cbv zeta. split; [by_evaluation|]. split; [reflexivity|].
  split; [by_evaluation|]. split; by_evaluation.
Qed.

(** *** Ranking *)

Section Sorting.
Context {A : Type} (key : A → Qc).

Lemma insert_desc_perm (x : A) (l : list A) : insert_desc key x l ≡ₚ x :: l.
Proof.
  induction l as [|y l IH]; simpl; [done|].
  destruct (decide (key x < key y)); [|done].
  rewrite IH. apply perm_swap.
Qed.

Lemma sorted_reverse_perm (l : list A) : sorted_reverse key l ≡ₚ l.
Proof.
  induction l as [|x l IH]; simpl; [done|].
  rewrite insert_desc_perm. by rewrite IH.
Qed.

Lemma insert_desc_hd (x a : A) (l : list A) :
  key x ≤ key a → HdRel (λ a b, key b ≤ key a) a l → HdRel (λ a b, key b ≤ key a) a (insert_desc key x l).
Proof.
  intros Hax Hl. destruct l as [|y l]; simpl; [by constructor|].
  destruct (decide (key x < key y)); constructor; [|done].
  by inversion Hl.
Qed.

Lemma insert_desc_sorted (x : A) (l : list A) :
  Sorted (λ a b, key b ≤ key a) l → Sorted (λ a b, key b ≤ key a) (insert_desc key x l).
Proof.
  induction 1 as [|y l Hs IH Hhd]; simpl; [by repeat constructor|].
  destruct (decide (key x < key y)) as [Hlt|Hge].
  - constructor; [done|]. apply insert_desc_hd; [|done].
    by apply Qclt_le_weak.
  - constructor; [by constructor|]. constructor.
    by apply Qcnot_lt_le.
Qed.

Lemma sorted_reverse_sorted (l : list A) : Sorted (λ a b, key b ≤ key a) (sorted_reverse key l).
Proof.
  induction l as [|x l IH]; simpl; [constructor|].
  by apply insert_desc_sorted.
Qed.

Lemma desc_trans : Transitive (λ a b : A, key b ≤ key a).
Proof. intros a b c Hab Hbc. by eapply Qcle_trans. Qed.

(** Inserting an element does not disturb the elements of any one key. *)
Lemma insert_desc_filter (v : Qc) (x : A) (l : list A) :
  filter (λ y, key y = v) (insert_desc key x l) = filter (λ y, key y = v) (x :: l).
Proof.
  induction l as [|y l IH]; simpl; [done|].
  destruct (decide (key x < key y)) as [Hlt|Hge]; [|done].
  rewrite !filter_cons in *.
  destruct (decide (key y = v)) as [Hy|Hy], (decide (key x = v)) as [Hx|Hx];
    rewrite IH; try done.
  exfalso. rewrite Hx, Hy in Hlt. by apply Qclt_not_eq in Hlt.
Qed.

Lemma sorted_reverse_stable (v : Qc) (l : list A) :
  filter (λ y, key y = v) (sorted_reverse key l) = filter (λ y, key y = v) l.
Proof.
  induction l as [|x l IH]; simpl; [done|].
  rewrite insert_desc_filter, !filter_cons, IH. done.
Qed.

Lemma filter_key_head (x : A) (l : list A) :
  filter (λ y, key y = key x) (x :: l) = x :: filter (λ y, key y = key x) l.
Proof. rewrite filter_cons. by rewrite decide_True. Qed.

(** A list is determined by its being in descending order and by the
    order of the elements of each key. *)
Lemma stable_sorted_unique (l1 l2 : list A) :
  StronglySorted (λ a b, key b ≤ key a) l1 →
  StronglySorted (λ a b, key b ≤ key a) l2 →
  (∀ v, filter (λ y, key y = v) l1 = filter (λ y, key y = v) l2) →
  l1 = l2.
Proof.
  intros H1. revert l2. induction H1 as [|x t1 Hs1 IH Hx]; intros l2 H2 Hf.
  - destruct l2 as [|y t2]; [done|].
    specialize (Hf (key y)). rewrite filter_key_head in Hf. done.
  - destruct H2 as [|y t2 Hs2 Hy].
    { specialize (Hf (key x)). rewrite filter_key_head in Hf. done. }
    assert (Hxy : key x = key y).
    { apply Qcle_antisym.
      - pose proof (Hf (key x)) as Hfx. rewrite filter_key_head in Hfx.
        assert (Hin : x ∈ filter (λ z, key z = key x) (y :: t2)).
        { rewrite <- Hfx. set_solver. }
        apply list_elem_of_filter in Hin as [_ Hin].
        apply elem_of_cons in Hin as [->|Hin]; [apply Qcle_refl|].
        rewrite Forall_forall in Hy. by apply Hy.
      - pose proof (Hf (key y)) as Hfy. rewrite filter_key_head in Hfy.
        assert (Hin : y ∈ filter (λ z, key z = key y) (x :: t1)).
        { rewrite Hfy. set_solver. }
        apply list_elem_of_filter in Hin as [_ Hin].
        apply elem_of_cons in Hin as [->|Hin]; [apply Qcle_refl|].
        rewrite Forall_forall in Hx. by apply Hx. }
    assert (x = y) as ->.
    { pose proof (Hf (key x)) as Hfx. rewrite filter_key_head in Hfx.
      rewrite (filter_cons _ y), decide_True in Hfx by done. by injection Hfx. }
    f_equal. apply IH; [done|]. intros v. specialize (Hf v).
    rewrite !filter_cons in Hf. destruct (decide (key y = v)); [by injection Hf|done].
Qed.

(** Whatever sorts stably in descending order returns what the insertion
    sort returns. *)
Lemma sorted_reverse_unique (l l' : list A) :
  StronglySorted (λ a b, key b ≤ key a) l' →
  (∀ v, filter (λ y, key y = v) l' = filter (λ y, key y = v) l) →
  l' = sorted_reverse key l.
Proof.
  intros Hs Hf. apply stable_sorted_unique; [done| |].
  - apply Sorted_StronglySorted; [apply desc_trans|apply sorted_reverse_sorted].
  - intros v. by rewrite sorted_reverse_stable.
Qed.

End Sorting.

(** C8. Ranking returns the list in descending order of [total_score]; the
    result is a permutation of the input; and the entries of any one total
    score come out in the order they went in. *)
Theorem rank_resumes_stable_descending (scored_resumes : list ScoredResume) :
  let total (x : ScoredResume) := total_score (score x) in
  StronglySorted (λ a b, total b ≤ total a) (rank_resumes scored_resumes) ∧
  rank_resumes scored_resumes ≡ₚ scored_resumes ∧
  (∀ v : Qc, filter (λ x, total x = v) (rank_resumes scored_resumes)
             = filter (λ x, total x = v) scored_resumes).
Proof.
  intros total. unfold rank_resumes. fold total. split; [|split].
  - apply Sorted_StronglySorted; [apply desc_trans|apply sorted_reverse_sorted].
  - apply sorted_reverse_perm.
  - intros v. apply sorted_reverse_stable.
Qed.

End Scorer.

(** ** Loops as maps, filters and sums *)

Section Loops.
Context {M A : Type}.

Lemma foldl_same (f g : A → M → A) (ms : list M) (acc : A) :
  (∀ acc m, f acc m = g acc m) → foldl f acc ms = foldl g acc ms.
Proof.
  intros Hfg. revert acc. induction ms as [|m ms IH]; intros acc; simpl; [done|].
  by rewrite Hfg, IH.
Qed.

(** A loop that appends what [f] yields is a filtering map. *)
Lemma append_loop (f : M → option A) (ms : list M) (acc : list A) :
  foldl (λ acc m, match f m with Some y => acc ++ [y] | None => acc end) acc ms
  = acc ++ omap f ms.
Proof.
  revert acc. induction ms as [|m ms IH]; intros acc; simpl.
  - by rewrite app_nil_r.
  - rewrite IH. destruct (f m); [|done]. by rewrite <- app_assoc.
Qed.

Lemma append_loops {P : Type} (f : P → M → option A) (g : P → list M) (ps : list P)
    (acc : list A) :
  foldl (λ acc p,
    foldl (λ acc m, match f p m with Some y => acc ++ [y] | None => acc end) acc (g p))
    acc ps
  = acc ++ flat_map (λ p, omap (f p) (g p)) ps.
Proof.
  revert acc. induction ps as [|p ps IH]; intros acc; simpl.
  - by rewrite app_nil_r.
  - rewrite IH, append_loop. by rewrite <- app_assoc.
Qed.

End Loops.

Lemma flat_map_same {P B : Type} (h1 h2 : P → list B) (ps : list P) :
  (∀ p, h1 p = h2 p) → flat_map h1 ps = flat_map h2 ps.
Proof. intros H. induction ps as [|p ps IH]; simpl; [done|]. by rewrite H, IH. Qed.

Lemma omap_guard {M : Type} (f : M → option Z) (b : Z → bool) (ms : list M) :
  omap (λ m, f m ≫= λ y, if b y then Some y else None) ms
  = filter (λ y, b y = true) (omap f ms).
Proof.
  induction ms as [|m ms IH]; simpl; [done|].
  destruct (f m) as [y|]; simpl; [|done].
  rewrite filter_cons.
  destruct (decide (b y = true)) as [E|E];
    [rewrite E; f_equal|rewrite (not_true_is_false _ E)]; exact IH.
Qed.

Lemma filter_flat_map {P : Type} (b : Z → Prop) `{!∀ y, Decision (b y)}
    (h : P → list Z) (ps : list P) :
  filter b (flat_map h ps) = flat_map (λ p, filter b (h p)) ps.
Proof.
  induction ps as [|p ps IH]; simpl; [done|]. by rewrite filter_app, IH.
Qed.

Lemma sum_list_app (l1 l2 : list Z) :
  sum_list (l1 ++ l2) = (sum_list l1 + sum_list l2)%Z.
Proof. induction l1 as [|x l1 IH]; simpl; [done|]. unfold sum_list in *. simpl. lia. Qed.

Lemma sum_list_nonneg (l : list Z) : Forall (λ y, 0 ≤ y)%Z l → (0 ≤ sum_list l)%Z.
Proof. induction 1 as [|y l Hy _ IH]; unfold sum_list in *; simpl; lia. Qed.

(** A loop that adds what [f] yields, when [b] accepts it, is a sum. *)
Lemma add_loop {M : Type} (f : M → option Z) (b : Z → bool) (ms : list M) (total : Z) :
  foldl (λ total m,
    match f m with
    | Some y => if b y then (total + y)%Z else total
    | None => total
    end) total ms
  = (total + sum_list (filter (λ y, b y = true) (omap f ms)))%Z.
Proof.
  revert total. induction ms as [|m ms IH]; intros total; simpl.
  - unfold sum_list. simpl. lia.
  - rewrite IH. destruct (f m) as [y|]; simpl; [|done].
    rewrite filter_cons.
    destruct (decide (b y = true)) as [E|E];
      [rewrite E|rewrite (not_true_is_false _ E)]; [|done].
    unfold sum_list. simpl. rewrite <- Z.add_assoc. reflexivity.
Qed.

Lemma add_loops {M P : Type} (f : M → option Z) (b : Z → bool) (g : P → list M)
    (ps : list P) (total : Z) :
  foldl (λ total p,
    foldl (λ total m,
      match f m with
      | Some y => if b y then (total + y)%Z else total
      | None => total
      end) total (g p)) total ps
  = (total + sum_list (filter (λ y, b y = true) (flat_map (λ p, omap f (g p)) ps)))%Z.
Proof.
  revert total. induction ps as [|p ps IH]; intros total; simpl.
  - unfold sum_list. simpl. lia.
  - rewrite IH, add_loop, filter_app, sum_list_app. lia.
Qed.

Lemma min_list_spec (y : Z) (ys : list Z) :
  JDParser.py_min_list y ys ∈ y :: ys
  ∧ ∀ v, v ∈ y :: ys → (JDParser.py_min_list y ys ≤ v)%Z.
Proof.
  unfold JDParser.py_min_list. revert y. induction ys as [|z ys IH]; intros y; simpl.
  - split; [set_solver|]. intros v Hv. apply list_elem_of_singleton in Hv. lia.
  - destruct (IH (Z.min y z)) as [Hin Hle]. split.
    + apply elem_of_cons in Hin as [->|Hin]; [|set_solver].
      destruct (Z.min_spec y z) as [[_ ->]|[_ ->]]; set_solver.
    + intros v Hv.
      assert (foldl Z.min (Z.min y z) ys ≤ Z.min y z)%Z by (apply Hle; set_solver).
      apply elem_of_cons in Hv as [->|Hv]; [lia|].
      apply elem_of_cons in Hv as [->|Hv]; [lia|].
      apply Hle. set_solver.
Qed.

Lemma max_list_spec (y : Z) (ys : list Z) :
  KeywordExtractor.py_max_list y ys ∈ y :: ys
  ∧ ∀ v, v ∈ y :: ys → (v ≤ KeywordExtractor.py_max_list y ys)%Z.
Proof.
  unfold KeywordExtractor.py_max_list. revert y.
  induction ys as [|z ys IH]; intros y; simpl.
  - split; [set_solver|]. intros v Hv. apply list_elem_of_singleton in Hv. lia.
  - destruct (IH (Z.max y z)) as [Hin Hle]. split.
    + apply elem_of_cons in Hin as [->|Hin]; [|set_solver].
      destruct (Z.max_spec y z) as [[_ ->]|[_ ->]]; set_solver.
    + intros v Hv.
      assert (Z.max y z ≤ foldl Z.max (Z.max y z) ys)%Z by (apply Hle; set_solver).
      apply elem_of_cons in Hv as [->|Hv]; [lia|].
      apply elem_of_cons in Hv as [->|Hv]; [lia|].
      apply Hle. set_solver.
Qed.

(** ** The job-description side: a minimum *)

Lemma extract_experience_values (text : string) :
  JDParser._extract_experience text =
    match year_values JDParser.experience_patterns flag_I text with
    | [] => 0%Z
    | y :: ys => JDParser.py_min_list y ys
    end.
Proof.
  unfold JDParser._extract_experience, year_values.
  by rewrite (append_loops (λ _ mt, group text mt 1 ≫= int)
                (λ pattern, finditer pattern text flag_I)).
Qed.

Lemma parse_text_min_experience (text : string) :
  JDParser.min_experience (JDParser.parse_text text)
  = JDParser._extract_experience (lower text).
Proof.
  unfold JDParser.parse_text. by destruct (JDParser._split_sections (lower text)).
Qed.

(** C7. The minimum-experience requirement of a job description is the
    minimum of all the year values its experience patterns match in the
    (lower-cased) text, and 0 when none matches: "minimum 5 years" gives 5,
    "at least 3 yrs" gives 3, the range "3-5 years" gives its lower bound 3;
    where the text states 3 and 7 years the job-description side takes 3
    and the resume side takes 7. *)
Theorem extract_experience_minimum (text : string) :
  let values := year_values JDParser.experience_patterns flag_I (lower text) in
  let result := JDParser.min_experience (JDParser.parse_text text) in
  (values = [] → result = 0%Z) ∧
  (values ≠ [] → result ∈ values ∧ ∀ v, v ∈ values → (result ≤ v)%Z) ∧
  JDParser.min_experience (JDParser.parse_text "Minimum 5 years of Java") = 5%Z ∧
  JDParser.min_experience (JDParser.parse_text "At least 3 yrs in Python") = 3%Z ∧
  JDParser.min_experience (JDParser.parse_text "3-5 years of experience") = 3%Z ∧
  JDParser.min_experience (JDParser.parse_text "Java developer") = 0%Z ∧
  JDParser.min_experience
    (JDParser.parse_text "3 years experience, later 7 years experience") = 3%Z ∧
  KeywordExtractor.extract_experience_years
    "3 years experience, later 7 years experience" = 7%Z.
Proof.
  intros values result.
  split; [|split].
  - unfold result. rewrite parse_text_min_experience, extract_experience_values.
    fold values. by intros ->.
  - unfold result. rewrite parse_text_min_experience, extract_experience_values.
    fold values. destruct values as [|y ys]; [done|]. intros _. apply min_list_spec.
  - repeat split; by vm_compute.
Qed.

Lemma extract_experience_minimum_witness :
  year_values JDParser.experience_patterns flag_I (lower "Java developer") = [] ∧
  JDParser.min_experience (JDParser.parse_text "Java developer") = 0%Z ∧
  year_values JDParser.experience_patterns flag_I (lower "3-5 Years of Experience")
    = [5; 3]%Z ∧
  (JDParser.min_experience (JDParser.parse_text "3-5 Years of Experience") ≤ 3)%Z.
Proof.
  destruct (extract_experience_minimum "Java developer") as (H1 & _).
  destruct (extract_experience_minimum "3-5 Years of Experience") as (_ & H2 & _).
  split; [by vm_compute|]. split; [apply H1; by vm_compute|].
  split; [by vm_compute|].
  destruct H2 as [_ Hle]; [by vm_compute|].
  apply Hle. by_evaluation.
Defined.

(** ** The resume side: a maximum *)

Lemma experience_from_dates_sum (text : string) :
  KeywordExtractor._calculate_experience_from_dates text = date_years text.
Proof.
  unfold KeywordExtractor._calculate_experience_from_dates, date_years, date_spans.
  rewrite <- (Z.add_0_l (sum_list _)).
  rewrite <- (add_loops (span_of text) (between 0 30)
                (λ pattern, finditer pattern text flag_I)).
  apply foldl_same. intros total pattern. apply foldl_same. intros total' mt.
  unfold span_of, between.
  destruct (KeywordExtractor.year_of _) as [start_year|]; simpl; [|done].
  destruct (if decide _ then _ else _) as [end_year|]; simpl; done.
Qed.

Lemma phrase_loop (text : string) :
  foldl (λ years pattern,
    foldl (λ years mt,
      match group (lower text) mt 1 ≫= int with
      | Some year =>
        if (0 <? year)%Z && (year <? 50)%Z then years ++ [year] else years
      | None => years
      end) years (finditer pattern (lower text) no_flags))
    [] KeywordExtractor.patterns
  = phrase_years text.
Proof.
  set (f := λ mt, group (lower text) mt 1 ≫= int).
  set (g := λ pattern, finditer pattern (lower text) no_flags).
  set (f' := λ (_ : string) mt, f mt ≫= λ y, if between 0 50 y then Some y else None).
  etrans; [|etrans; [apply (append_loops f' g KeywordExtractor.patterns [])|]].
  - apply foldl_same. intros years pattern. apply foldl_same. intros years' mt.
    unfold f', f, between.
    destruct (group (lower text) mt 1 ≫= int) as [y|]; simpl; [|done].
    by destruct ((0 <? y)%Z && (y <? 50)%Z).
  - unfold phrase_years, year_values. rewrite filter_flat_map, app_nil_l.
    apply flat_map_same. intros p. apply omap_guard.
Qed.

Lemma extract_experience_years_candidates (text : string) :
  KeywordExtractor.extract_experience_years text =
    match phrase_years text
          ++ (if (date_years text =? 0)%Z then [] else [date_years text]) with
    | [] => 0%Z
    | y :: ys => KeywordExtractor.py_max_list y ys
    end.
Proof.
  unfold KeywordExtractor.extract_experience_years.
  rewrite phrase_loop, experience_from_dates_sum.
  destruct (date_years text =? 0)%Z; [|done]. by rewrite app_nil_r.
Qed.

Lemma date_years_nonneg (text : string) : (0 ≤ date_years text)%Z.
Proof.
  apply sum_list_nonneg, Forall_forall. intros y Hy.
  apply list_elem_of_filter in Hy as [Hy _].
  unfold between in Hy. apply andb_true_iff in Hy as [Hy _]. lia.
Qed.

Lemma phrase_years_pos (text : string) (y : Z) :
  y ∈ phrase_years text → (0 < y < 50)%Z.
Proof.
  intros Hy. apply list_elem_of_filter in Hy as [Hy _].
  unfold between in Hy. apply andb_true_iff in Hy as [H1 H2]. lia.
Qed.

(** What the code computes: the years of experience of a resume are the
    maximum over the candidates of two strategies, every year value
    strictly between 0 and 50 that a phrase pattern matches in the
    lower-cased text, and the one sum of the spans strictly between 0 and
    30 of the matches of the two date patterns, present and current
    standing for 2026.  The result is 0 when neither strategy yields
    anything.  It is a maximum, not a sum: 5 stated years and a range of 3
    years give 5, and 2 stated years and ranges of 3 and 8 years give 11. *)
Theorem extract_experience_years_maximum (text : string) :
  let candidates := phrase_years text ++ [date_years text] in
  let result := KeywordExtractor.extract_experience_years text in
  result ∈ candidates ∧
  (∀ c, c ∈ candidates → (c ≤ result)%Z) ∧
  (phrase_years text = [] →
   filter (λ n, between 0 30 n = true) (date_spans text) = [] →
   result = 0%Z) ∧
  KeywordExtractor.extract_experience_years
    "5 years of experience. Acme 2015 - 2018" = 5%Z ∧
  KeywordExtractor.extract_experience_years
    "2 years of experience. Acme 2015 - 2018, Initech 2018 - present" = 11%Z ∧
  KeywordExtractor.extract_experience_years "60 years of experience" = 0%Z ∧
  KeywordExtractor.extract_experience_years "Acme 1980 - 2020" = 0%Z ∧
  KeywordExtractor.extract_experience_years "nothing here" = 0%Z.
Proof.
  intros candidates result.
  assert (Hmax : result ∈ candidates ∧ (∀ c, c ∈ candidates → (c ≤ result)%Z) ∧
    (phrase_years text = [] →
     filter (λ n, between 0 30 n = true) (date_spans text) = [] → result = 0%Z)).
  { unfold result, candidates.
    rewrite extract_experience_years_candidates.
    pose proof (date_years_nonneg text) as Hd.
    pose proof (phrase_years_pos text) as Hp.
    destruct (Z.eqb_spec (date_years text) 0) as [E|E].
    - rewrite app_nil_r, E. destruct (phrase_years text) as [|y ys] eqn:Ey.
      + repeat split; [set_solver|].
        intros c Hc. apply list_elem_of_singleton in Hc as ->. done.
      + destruct (max_list_spec y ys) as [Hin Hle].
        repeat split; [set_solver| |done].
        intros c Hc. apply elem_of_app in Hc as [Hc|Hc]; [by apply Hle|].
        apply list_elem_of_singleton in Hc as ->.
        specialize (Hle y ltac:(set_solver)).
        specialize (Hp y ltac:(set_solver)). lia.
    - destruct (phrase_years text ++ [date_years text]) as [|y ys] eqn:Ey.
      { by destruct (phrase_years text). }
      destruct (max_list_spec y ys) as [Hin Hle]. repeat split; [done|done|].
      intros _ Hs. unfold date_years in E. rewrite Hs in E. done. }
  destruct Hmax as (H1 & H2 & H3).
  split; [exact H1|]. split; [exact H2|]. split; [exact H3|].
  repeat split; by vm_compute.
Qed.

Lemma extract_experience_years_maximum_witness :
  phrase_years "nothing here" = [] ∧
  filter (λ n, between 0 30 n = true) (date_spans "nothing here") = [] ∧
  KeywordExtractor.extract_experience_years "nothing here" = 0%Z ∧
  (3 ≤ KeywordExtractor.extract_experience_years
         "5 years of experience. Acme 2015 - 2018")%Z.
Proof.
  destruct (extract_experience_years_maximum "nothing here") as (_ & _ & H3 & _).
  destruct (extract_experience_years_maximum
              "5 years of experience. Acme 2015 - 2018") as (_ & H2 & _).
  split; [by vm_compute|]. split; [by vm_compute|].
  split; [apply H3; by vm_compute|].
  apply H2. by_evaluation.
Defined.

(** C6, at the failing input.  The text holds one employment date range,
    from 01/2020 to the present, whose span is 6 years, so that the sum
    over the date ranges is 6.  Both date patterns of the code match that
    range, the first from its year on and the second from its month on,
    and the code adds the span once for each: the date total is 12, and
    so are the years of experience returned. *)
Theorem date_range_counted_twice :
  let text := "Software Engineer, 01/2020 - present" in
  range_spans text = [6%Z] ∧
  range_years text = 6%Z ∧
  (λ pattern, (λ mt, group text mt 0) <$> finditer pattern text flag_I)
    <$> KeywordExtractor.date_patterns
    = [[Some "2020 - present"]; [Some "01/2020 - present"]] ∧
  date_spans text = [6%Z; 6%Z] ∧
  KeywordExtractor._calculate_experience_from_dates text = 12%Z ∧
  KeywordExtractor.extract_experience_years text = 12%Z.
Proof. repeat split; by vm_compute. Qed.

(** ** The fallback of the job-description analyzer *)

Lemma section_loop_none (h : string → option Match) (text : string)
    (keywords : list string) (acc : string) :
  forallb (λ keyword, none (h keyword)) keywords = true →
  foldl (λ acc keyword,
    match h keyword with
    | Some mt => acc +:+ default "" (group text mt 1) +:+ " "
    | None => acc
    end) acc keywords = acc.
Proof.
  induction keywords as [|k ks IH]; simpl; [done|].
  intros [Hk Hks]%andb_true_iff. destruct (h k); [done|]. by apply IH.
Qed.

(** Without a heading both sections are empty. *)
Lemma split_sections_no_heading (text : string) :
  no_heading text = true → JDParser._split_sections text = ("", "").
Proof.
  intros [Hr Hp]%andb_true_iff. unfold JDParser._split_sections.
  rewrite (section_loop_none
    (λ keyword,
       search (JDParser.section_pattern keyword JDParser.preferred_keywords)
         text flag_IS)) by done.
  rewrite (section_loop_none
    (λ keyword,
       search (JDParser.section_pattern keyword JDParser.required_keywords)
         text flag_IS)) by done.
  reflexivity.
Qed.

(** No skill is found in the empty text. *)
Lemma extract_skills_empty : JDParser._extract_skills "" = ∅.
Proof. by vm_compute. Qed.

Lemma parse_text_fallback (text : string) :
  JDParser._extract_skills (JDParser._split_sections (lower text)).1 = ∅ →
  JDParser._extract_skills (JDParser._split_sections (lower text)).2 = ∅ →
  JDParser.required_skills (JDParser.parse_text text)
    = JDParser._extract_skills (lower text)
  ∧ JDParser.preferred_skills (JDParser.parse_text text) = ∅.
Proof.
  unfold JDParser.parse_text.
  destruct (JDParser._split_sections (lower text)) as [r p]. simpl.
  intros Hr Hp. rewrite decide_True by done. done.
Qed.

(** C5. When skill extraction finds nothing in the detected required
    section and nothing in the detected preferred section, [parse_text]
    extracts the skills of the entire (lower-cased) text, makes them the
    required skills and leaves the preferred skills empty; a job
    description without any heading is such a text. *)
Theorem parse_text_fallback_policy (text : string) :
  (JDParser._extract_skills (JDParser._split_sections (lower text)).1 = ∅ →
   JDParser._extract_skills (JDParser._split_sections (lower text)).2 = ∅ →
   JDParser.required_skills (JDParser.parse_text text)
     = JDParser._extract_skills (lower text)
   ∧ JDParser.preferred_skills (JDParser.parse_text text) = ∅) ∧
  (no_heading (lower text) = true →
   JDParser.required_skills (JDParser.parse_text text)
     = JDParser._extract_skills (lower text)
   ∧ JDParser.preferred_skills (JDParser.parse_text text) = ∅).
Proof.
  split; [apply parse_text_fallback|].
  intros H%split_sections_no_heading.
  apply parse_text_fallback; rewrite H; apply extract_skills_empty.
Qed.

Lemma parse_text_fallback_policy_witness :
  no_heading (lower "Java and Docker developer") = true ∧
  JDParser.required_skills (JDParser.parse_text "Java and Docker developer")
    = {[ "java"; "docker" ]} ∧
  JDParser.preferred_skills (JDParser.parse_text "Java and Docker developer") = ∅ ∧
  JDParser._extract_skills
    (JDParser._split_sections (lower "Required: teamwork. Preferred: humour.")).1 = ∅ ∧
  JDParser._extract_skills
    (JDParser._split_sections (lower "Required: teamwork. Preferred: humour.")).2 = ∅ ∧
  JDParser.preferred_skills
    (JDParser.parse_text "Required: teamwork. Preferred: humour.") = ∅.
Proof.
  destruct (parse_text_fallback_policy "Java and Docker developer") as [_ H].
  destruct H as [H1 H2]; [by vm_compute|].
  destruct (parse_text_fallback_policy "Required: teamwork. Preferred: humour.")
    as [H' _].
  destruct H' as [_ H4]; [by_evaluation|by_evaluation|].
  split; [by vm_compute|]. split; [rewrite H1; by_evaluation|].
  split; [exact H2|]. split; [by_evaluation|]. split; [by_evaluation|exact H4].
Defined.

(** ** The keywords of a job description *)

Lemma compile_cap_pattern :
  ∃ r1 r2, compile JDParser.cap_pattern
           = Some (Cat WordB (Cat (Group 1 (Cat (Set_ [CRange "A" "Z"]) r1)) r2)).
Proof. eexists _, _. reflexivity. Qed.

(** A match of a pattern of that shape starts at an upper-case letter. *)
Lemma run_needs_upper (bound : nat) (r1 r2 : regex) (p : Pos) (c : Caps)
    (k : Pos → Caps → option (Pos * Caps)) :
  has_upper (rest p) = false →
  run flag_M bound (Cat WordB (Cat (Group 1 (Cat (Set_ [CRange "A" "Z"]) r1)) r2)) p c k
  = None.
Proof.
  intros Hu. cbn [run]. destruct (at_boundary p); [|done].
  unfold one. destruct (rest p) as [|a t]; [done|].
  simpl in Hu. apply orb_false_iff in Hu as [Ha _].
  unfold set_has. cbn [existsb flag_M IGNORECASE andb orb].
  change (item_has (CRange "A" "Z") a) with (is_upper a). by rewrite Ha.
Qed.

Lemma search_needs_upper (bound : nat) (r1 r2 : regex) (s : string) (i : N)
    (pv : option ascii) :
  has_upper s = false →
  search_from flag_M bound
    (Cat WordB (Cat (Group 1 (Cat (Set_ [CRange "A" "Z"]) r1)) r2)) i pv s
  = None.
Proof.
  revert i pv. induction s as [|a t IH]; intros i pv Hu.
  - cbn [search_from]. unfold match_at. by rewrite run_needs_upper.
  - cbn [search_from]. unfold match_at. rewrite run_needs_upper by done.
    apply IH. simpl in Hu. by apply orb_false_iff in Hu as [_ Ht].
Qed.

(** The pattern for capitalized phrases matches nothing in a lower-cased
    text. *)
Lemma cap_pattern_dead (text : string) :
  finditer JDParser.cap_pattern (lower text) flag_M = [].
Proof.
  unfold finditer. destruct compile_cap_pattern as (r1 & r2 & ->).
  cbn [matches_from start_of idx prev rest].
  by rewrite search_needs_upper by apply has_upper_lower.
Qed.

(** C9, at the failing input. [_extract_keywords] finds the capitalized
    phrase "Spring Boot" in the text as written, but [parse_text] hands it
    the lower-cased text, where the pattern for capitalized phrases matches
    nothing, whatever the text: the keywords of the job description are the
    version-tagged token "java 11" alone, and "spring boot" is not among
    them. *)
Theorem capitalized_phrases_lost :
  "spring boot"
    ∈ JDParser._extract_keywords "Strong knowledge of Spring Boot and Java 11" ∧
  JDParser.keywords (JDParser.parse_text "Strong knowledge of Spring Boot and Java 11")
    = {[ "java 11" ]} ∧
  ("spring boot"
     ∉ JDParser.keywords
         (JDParser.parse_text "Strong knowledge of Spring Boot and Java 11")) ∧
  (∀ text, finditer JDParser.cap_pattern (lower text) flag_M = []).
Proof.
  split; [by_evaluation|]. split; [by_evaluation|]. split; [by_evaluation|].
  apply cap_pattern_dead.
Qed.

(** ** The patterns of the source are all within the modelled syntax *)

Lemma patterns_compile :
  forallb (λ pattern, negb (none (compile pattern)))
    (JDParser.experience_patterns ++ JDParser.skill_patterns
     ++ [JDParser.cap_pattern; JDParser.version_pattern]
     ++ map (λ keyword, JDParser.section_pattern keyword JDParser.preferred_keywords)
          JDParser.required_keywords
     ++ map (λ keyword, JDParser.section_pattern keyword JDParser.required_keywords)
          JDParser.preferred_keywords
     ++ KeywordExtractor.patterns ++ KeywordExtractor.date_patterns ++ ["\d{4}"])
  = true.
Proof. by vm_compute. Qed.

(** ** The scenario of the specification, end to end *)

Example scenario_sections :
  JDParser._split_sections
    (lower "Required: Java, Spring, MySQL. Preferred: Docker, Kubernetes. Minimum 5 years.")
  = ("java, spring, mysql.", "docker, kubernetes. minimum 5 years.").
Proof. by vm_compute. Qed.

Example scenario_job_description :
  let jd := JDParser.parse_text
    "Required: Java, Spring, MySQL. Preferred: Docker, Kubernetes. Minimum 5 years." in
  JDParser.required_skills jd = {[ "java"; "spring"; "mysql" ]} ∧
  JDParser.preferred_skills jd = {[ "docker"; "kubernetes" ]} ∧
  JDParser.min_experience jd = 5%Z.
Proof. cbv zeta. split; [by_evaluation|]. split; [by_evaluation|by vm_compute]. Qed.

Example scenario_score :
  let jd := JDParser.parse_text
    "Required: Java, Spring, MySQL. Preferred: Docker, Kubernetes. Minimum 5 years." in
  let sc := ResumeScorer.score_resume ResumeScorer.default_config
    {[ "java"; "spring"; "mysql"; "docker" ]} 6 []
    {| ResumeScorer.jd_required_skills := Some (elements (JDParser.required_skills jd));
       ResumeScorer.jd_preferred_skills := Some (elements (JDParser.preferred_skills jd));
       ResumeScorer.jd_keywords := Some (elements (JDParser.keywords jd));
       ResumeScorer.jd_min_experience := Some (JDParser.min_experience jd) |} in
  ResumeScorer.required_skills_score sc = Zq 100 ∧
  ResumeScorer.preferred_skills_score sc = Zq 50 ∧
  ResumeScorer.experience_score sc = Zq 100 ∧
  ResumeScorer.matched_required_skills sc = {[ "java"; "spring"; "mysql" ]} ∧
  ResumeScorer.missing_required_skills sc = ∅.
Proof.
  cbv zeta. repeat split; try by_evaluation; apply Qc_is_canon; by vm_compute.
Qed.

Example resume_sample :
  KeywordExtractor.extract_experience_years
    "Senior Java Developer with 8 years of experience. Tech Corp (2018 - Present)"
  = 8%Z.
Proof. by vm_compute. Qed.

(** * Further properties of the code *)

(** ** Arithmetic *)

Lemma Zq_le (a b : Z) : (a ≤ b)%Z → Zq a ≤ Zq b.
Proof. intros H. qc_to_q. by rewrite <- Zle_Qle. Qed.

Lemma Zq_le_inv (a b : Z) : Zq a ≤ Zq b → (a ≤ b)%Z.
Proof. intros H. qc_to_q. by rewrite Zle_Qle. Qed.

Lemma Zq_lt (a b : Z) : (a < b)%Z → Zq a < Zq b.
Proof. intros H. qc_to_q. by rewrite <- Zlt_Qlt. Qed.

Lemma Zq_add (a b : Z) : Zq (a + b) = Zq a + Zq b.
Proof. apply Qc_is_canon. qc_to_q. by rewrite inject_Z_plus. Qed.

Lemma Zq_inj (a b : Z) : Zq a = Zq b → a = b.
Proof.
  intros H. apply Z.le_antisymm; apply Zq_le_inv; rewrite H; apply Qcle_refl.
Qed.

Lemma len_nonneg (n : nat) : 0 ≤ len n.
Proof. apply (Zq_le 0). lia. Qed.

Lemma len_le (n m : nat) : (n ≤ m)%nat → len n ≤ len m.
Proof. intros H. apply Zq_le. lia. Qed.

Lemma len_pos (n : nat) : (0 < n)%nat → 0 < len n.
Proof. intros H. apply (Zq_lt 0). lia. Qed.

Lemma len_S (n : nat) : len (S n) = len n + 1.
Proof. unfold len. rewrite Nat2Z.inj_succ, <- Z.add_1_r. apply Zq_add. Qed.

Lemma Qcinv_pos (d : Qc) : 0 < d → 0 < / d.
Proof.
  intros Hd. qc_to_q. by apply Qinv_lt_0_compat.
Qed.

Lemma Qcdiv_le_compat (a b d : Qc) : 0 < d → a ≤ b → a / d ≤ b / d.
Proof.
  intros Hd Hab. unfold Qcdiv. apply Qcmult_le_compat_r; [done|].
  apply Qclt_le_weak. by apply Qcinv_pos.
Qed.

Lemma Qcdiv_self (d : Qc) : 0 < d → d / d = 1.
Proof.
  intros Hd. unfold Qcdiv. apply Qcmult_inv_r. intros ->. by apply Qclt_not_eq in Hd.
Qed.

Lemma Qcdiv_0 (d : Qc) : 0 / d = 0.
Proof. unfold Qcdiv. ring. Qed.

(** A part of a whole, as a fraction, lies between 0 and 1. *)
Lemma Qcdiv_unit (a d : Qc) : 0 ≤ a → a ≤ d → 0 < d → 0 ≤ a / d ∧ a / d ≤ 1.
Proof.
  intros Ha Had Hd. split.
  - rewrite <- (Qcdiv_0 d). by apply Qcdiv_le_compat.
  - rewrite <- (Qcdiv_self d) by done. by apply Qcdiv_le_compat.
Qed.

Lemma py_max_ge_l (a b : Qc) : a ≤ py_max a b.
Proof.
  unfold py_max. destruct (decide (a < b)).
  - by apply Qclt_le_weak.
  - apply Qcle_refl.
Qed.

Lemma py_max_ge_r (a b : Qc) : b ≤ py_max a b.
Proof.
  unfold py_max. destruct (decide (a < b)).
  - apply Qcle_refl.
  - by apply Qcnot_lt_le.
Qed.

Lemma py_max_lub (a b c : Qc) : a ≤ c → b ≤ c → py_max a b ≤ c.
Proof. intros Ha Hb. unfold py_max. by destruct (decide (a < b)). Qed.

Lemma py_max_mono (a b b' : Qc) : b ≤ b' → py_max a b ≤ py_max a b'.
Proof.
  intros H. apply py_max_lub; [apply py_max_ge_l|].
  eapply Qcle_trans; [exact H|apply py_max_ge_r].
Qed.

Lemma py_min_le_r (a b : Qc) : py_min a b ≤ b.
Proof.
  unfold py_min. destruct (decide (b < a)).
  - apply Qcle_refl.
  - by apply Qcnot_lt_le.
Qed.

Lemma py_min_glb (a b c : Qc) : c ≤ a → c ≤ b → c ≤ py_min a b.
Proof. intros Ha Hb. unfold py_min. by destruct (decide (b < a)). Qed.

Lemma Qclt_add_pos (a e : Qc) : 0 < e → a < a + e.
Proof.
  intros He. apply Qclt_minus_iff. by replace (a + e + - a) with e by ring.
Qed.

Lemma Qcle_add_nonneg (a e : Qc) : 0 ≤ e → a ≤ a + e.
Proof.
  intros He. apply Qcle_minus_iff. by replace (a + e + - a) with e by ring.
Qed.

Lemma size_pos_nonempty (X : gset string) : X ≠ ∅ → (0 < size X)%nat.
Proof.
  intros Hne. assert (size X ≠ 0%nat); [|lia].
  apply size_non_empty_iff. by intros ?%leibniz_equiv.
Qed.

Lemma Qcdiv_lt_compat (a b d : Qc) : 0 < d → a < b → a / d < b / d.
Proof.
  intros Hd Hab. unfold Qcdiv. apply Qcmult_lt_compat_r; [by apply Qcinv_pos|done].
Qed.

(** ** The scorer: skills *)

Section ScorerMore.
Import ResumeScorer.

Lemma skill_match_bounds (have need : gset string) :
  0 ≤ _calculate_skill_match have need ∧
  _calculate_skill_match have need ≤ 1 ∧
  (_calculate_skill_match have need = 1 ↔ need ⊆ have).
Proof.
  unfold _calculate_skill_match. destruct (decide (need = ∅)) as [->|Hne].
  { split; [done|]. split; [done|]. split; [intros _; set_solver|done]. }
  assert (Hpos : 0 < len (size need)).
  { by apply len_pos, size_pos_nonempty. }
  assert (Hsub : (size (have ∩ need) ≤ size need)%nat).
  { apply subseteq_size. set_solver. }
  destruct (Qcdiv_unit (len (size (have ∩ need))) (len (size need)))
    as [H0 H1]; [apply len_nonneg|by apply len_le|done|].
  split; [done|]. split; [done|]. split.
  - intros E.
    assert (Hsz : size (have ∩ need) = size need).
    { apply Nat2Z.inj, Zq_inj.
      fold (len (size (have ∩ need))). fold (len (size need)).
      rewrite <- (Qcmult_1_l (len (size need))), <- E.
      unfold Qcdiv. rewrite <- Qcmult_assoc, (Qcmult_comm (/ _)), Qcmult_inv_r; [ring|].
      intros E0. rewrite E0 in Hpos. done. }
    assert (Heq : have ∩ need ≡ need).
    { apply set_subseteq_size_equiv; [set_solver|lia]. }
    set_solver.
  - intros Hs. replace (have ∩ need) with need by set_solver. by apply Qcdiv_self.
Qed.

(** X1. The skill score is a fraction between 0 and 1, and it is 1 exactly when
    the resume has every skill asked for. *)
Theorem skill_match_range_full (have need : gset string) :
  0 ≤ _calculate_skill_match have need ∧
  _calculate_skill_match have need ≤ 1 ∧
  (_calculate_skill_match have need = 1 ↔ need ⊆ have).
Proof. exact (skill_match_bounds have need). Qed.

(** X2. A missing required skill, once the resume has it, is one more
    matched skill and a strictly higher skill score. *)
Theorem skill_match_gain (have need : gset string) (s : string) :
  s ∈ need → s ∉ have →
  size (({[ s ]} ∪ have) ∩ need) = S (size (have ∩ need))
  ∧ _calculate_skill_match have need < _calculate_skill_match ({[ s ]} ∪ have) need.
Proof.
  intros Hs Hn.
  assert (Hpos : 0 < len (size need)).
  { apply len_pos, size_pos_nonempty. set_solver. }
  assert (Hsz : size (({[ s ]} ∪ have) ∩ need) = S (size (have ∩ need))).
  { replace (({[ s ]} ∪ have) ∩ need) with ({[ s ]} ∪ (have ∩ need)) by set_solver.
    rewrite size_union by set_solver. by rewrite size_singleton. }
  split; [exact Hsz|]. unfold _calculate_skill_match.
  rewrite !decide_False by set_solver. rewrite Hsz, len_S.
  assert (E : (len (size (have ∩ need)) + 1) / len (size need)
              = len (size (have ∩ need)) / len (size need) + 1 / len (size need)).
  { unfold Qcdiv. ring. }
  rewrite E. apply Qclt_add_pos. unfold Qcdiv. rewrite Qcmult_1_l. by apply Qcinv_pos.
Qed.

Lemma skill_match_gain_witness :
  size (({[ "go" ]} ∪ {[ "java" ]}) ∩ ({[ "java"; "go"; "rust" ]} : gset string))
    = S (size (({[ "java" ]} : gset string) ∩ {[ "java"; "go"; "rust" ]}))
  ∧ _calculate_skill_match {[ "java" ]} {[ "java"; "go"; "rust" ]}
    < _calculate_skill_match ({[ "go" ]} ∪ {[ "java" ]}) {[ "java"; "go"; "rust" ]}.
Proof. apply skill_match_gain; by_evaluation. Defined.

(** X3. The required skills split into the matched and the missing ones, and
    nothing is missing exactly when the required-skills component is 1. *)
Theorem required_skills_partition (cfg : Config) (resume_skills : gset string)
    (resume_experience : Z) (resume_keywords : list string) (jd_data : JdData) :
  let sc := score_resume cfg resume_skills resume_experience resume_keywords jd_data in
  let jd_required : gset string :=
    list_to_set (lower <$> default [] (jd_required_skills jd_data)) in
  matched_required_skills sc ∪ missing_required_skills sc = jd_required ∧
  matched_required_skills sc ## missing_required_skills sc ∧
  (size (matched_required_skills sc) + size (missing_required_skills sc)
   = size jd_required)%nat ∧
  (missing_required_skills sc = ∅
   ↔ _calculate_skill_match resume_skills jd_required = 1).
Proof.
  intros sc jd_required. unfold sc, score_resume; cbn. fold jd_required.
  assert (Hu : resume_skills ∩ jd_required ∪ jd_required ∖ resume_skills = jd_required).
  { apply set_eq. intros x. destruct (decide (x ∈ resume_skills)); set_solver. }
  assert (Hd : resume_skills ∩ jd_required ## jd_required ∖ resume_skills) by set_solver.
  split; [done|]. split; [done|]. split.
  - rewrite <- size_union by done. by rewrite Hu.
  - destruct (skill_match_bounds resume_skills jd_required) as (_ & _ & ->).
    split; [|set_solver]. intros He x Hx.
    destruct (decide (x ∈ resume_skills)); [done|]. set_solver.
Qed.

(** ** The scorer: experience *)

Lemma unit_fraction (g d : Z) : (0 < g)%Z → (g < d)%Z → 0 < Zq g / Zq d ∧ Zq g / Zq d < 1.
Proof.
  intros Hg Hd.
  assert (Hd0 : 0 < Zq d) by (apply (Zq_lt 0); lia).
  split.
  - rewrite <- (Qcdiv_0 (Zq d)). apply Qcdiv_lt_compat; [done|apply (Zq_lt 0); lia].
  - rewrite <- (Qcdiv_self (Zq d)) by done. apply Qcdiv_lt_compat; [done|by apply Zq_lt].
Qed.

(** The four regimes of the experience score. *)
Lemma experience_match_cases (cfg : Config) (have need : Z) :
  let tolerance := default 2%Z (cfg_experience_tolerance cfg) in
  let F := _calculate_experience_match cfg have need in
  (need = 0%Z ∧ F = 1) ∨
  (need ≠ 0%Z ∧ (need ≤ have)%Z ∧ F = 1) ∨
  (need ≠ 0%Z ∧ (need - tolerance ≤ have < need)%Z ∧
     F = py_max (dec 7 10) (1 - Zq (need - have) / Zq (tolerance + 1) * dec 3 10)) ∨
  (need ≠ 0%Z ∧ (have < need - tolerance)%Z ∧ (have < need)%Z ∧
     F = py_max 0 ((if (need >? 0)%Z then Zq have / Zq need else 0) * dec 7 10)).
Proof.
  intros tolerance F. unfold F, _calculate_experience_match. fold tolerance.
  destruct (Z.eqb_spec need 0) as [->|Hne]; [by left|right].
  rewrite !Z.geb_leb.
  destruct (Z.leb_spec need have); [by left|right].
  destruct (Z.leb_spec (need - tolerance) have); [left|right]; repeat split; try done; lia.
Qed.

Lemma band_value (tolerance gap : Z) :
  (1 ≤ gap ≤ tolerance)%Z →
  dec 7 10 < 1 - Zq gap / Zq (tolerance + 1) * dec 3 10 ∧
  1 - Zq gap / Zq (tolerance + 1) * dec 3 10 < 1.
Proof.
  intros Hg. destruct (unit_fraction gap (tolerance + 1)) as [H0 H1]; [lia|lia|].
  set (x := Zq gap / Zq (tolerance + 1)) in *. clearbody x.
  split; qc_to_q; lra.
Qed.

Lemma below_value (have need : Z) :
  (have < need)%Z →
  0 ≤ py_max 0 ((if (need >? 0)%Z then Zq have / Zq need else 0) * dec 7 10) ∧
  py_max 0 ((if (need >? 0)%Z then Zq have / Zq need else 0) * dec 7 10) < dec 7 10.
Proof.
  intros Hlt. split; [apply py_max_ge_l|].
  assert (H7 : (0 : Qc) < dec 7 10) by done.
  unfold py_max. destruct (decide (0 < _)) as [Hpos|_]; [|done].
  destruct (Z.gtb_spec need 0) as [Hn|Hn].
  - assert (Hr : Zq have / Zq need < 1).
    { rewrite <- (Qcdiv_self (Zq need)) by (apply (Zq_lt 0); lia).
      apply Qcdiv_lt_compat; [apply (Zq_lt 0); lia|by apply Zq_lt]. }
    set (x := Zq have / Zq need) in *. clearbody x. qc_to_q. lra.
  - exfalso. revert Hpos. by vm_compute.
Qed.



Lemma experience_match_bounds (cfg : Config) (have need : Z) :
  0 ≤ _calculate_experience_match cfg have need ∧
  _calculate_experience_match cfg have need ≤ 1.
Proof.
  destruct (experience_match_cases cfg have need)
    as [[_ ->]|[(_ & _ & ->)|[(_ & Hb & ->)|(_ & _ & Hb & ->)]]]; try done.
  - destruct (band_value (default 2%Z (cfg_experience_tolerance cfg)) (need - have))
      as [H7 H1]; [lia|].
    unfold py_max. rewrite decide_True by done.
    split; [|by apply Qclt_le_weak].
    apply Qclt_le_weak. by eapply Qclt_trans; [|exact H7].
  - destruct (below_value have need Hb) as [H0 H7]. split; [done|].
    apply Qclt_le_weak. by eapply Qclt_trans; [exact H7|].
Qed.


(** X6. More experience never lowers the experience score. *)
Theorem experience_match_monotone (cfg : Config) (have1 have2 need : Z) :
  (have1 ≤ have2)%Z →
  _calculate_experience_match cfg have1 need ≤ _calculate_experience_match cfg have2 need.
Proof.
  intros Hle.
  destruct (experience_match_cases cfg have2 need)
    as [[_ E2]|[(_ & _ & E2)|[(Hne & Hb2 & E2)|(Hne & Hb2 & Hlt2 & E2)]]].
  - rewrite E2. apply experience_match_bounds.
  - rewrite E2. apply experience_match_bounds.
  - destruct (experience_match_cases cfg have1 need)
      as [[? _]|[(_ & ? & _)|[(_ & Hb1 & E1)|(_ & _ & Hlt1 & E1)]]]; try lia.
    + rewrite E1, E2. apply py_max_mono.
      set (tolerance := default 2%Z (cfg_experience_tolerance cfg)) in *.
      assert (Hd : Zq (need - have2) / Zq (tolerance + 1)
                   ≤ Zq (need - have1) / Zq (tolerance + 1)).
      { apply Qcdiv_le_compat; [apply (Zq_lt 0); lia|apply Zq_le; lia]. }
      set (x2 := Zq (need - have2) / _) in *. set (x1 := Zq (need - have1) / _) in *.
      clearbody x1 x2. qc_to_q. lra.
    + rewrite E1, E2. destruct (below_value have1 need Hlt1) as [_ H7].
      eapply Qcle_trans; [by apply Qclt_le_weak|]. apply py_max_ge_l.
  - destruct (experience_match_cases cfg have1 need)
      as [[? _]|[(_ & ? & _)|[(_ & Hb1 & _)|(_ & _ & Hlt1 & E1)]]]; try lia.
    rewrite E1, E2. apply py_max_mono.
    destruct (Z.gtb_spec need 0) as [Hn|Hn]; [|apply Qcle_refl].
    assert (Hd : Zq have1 / Zq need ≤ Zq have2 / Zq need).
    { apply Qcdiv_le_compat; [apply (Zq_lt 0); lia|by apply Zq_le]. }
    set (x2 := Zq have2 / _) in *. set (x1 := Zq have1 / _) in *.
    clearbody x1 x2. qc_to_q. lra.
Qed.

Lemma experience_match_monotone_witness :
  _calculate_experience_match default_config 2 5
  ≤ _calculate_experience_match default_config 4 5.
Proof. apply experience_match_monotone. lia. Defined.

End ScorerMore.

(** ** The scorer: keywords *)

Section KeywordMore.
Import ResumeScorer.

Lemma length_filter_fmap {A B} (f : A → B) (P : B → Prop) `{!∀ y, Decision (P y)}
    (l : list A) :
  length (filter P (f <$> l)) = length (filter (λ x, P (f x)) l).
Proof.
  induction l as [|x l IH]; [done|]. rewrite fmap_cons, !filter_cons.
  destruct (decide (P (f x))); simpl; by rewrite IH.
Qed.

Lemma fmap_lower_idemp (l : list string) : lower <$> (lower <$> l) = lower <$> l.
Proof.
  rewrite <- list_fmap_compose. apply list_fmap_ext. intros _ s _. apply lower_idemp.
Qed.

Lemma keyword_match_properties (resume_keywords jd_keywords : list string) :
  0 ≤ _calculate_keyword_match resume_keywords jd_keywords ∧
  _calculate_keyword_match resume_keywords jd_keywords ≤ 1 ∧
  (∀ resume_keywords' jd_keywords',
     resume_keywords ≡ₚ resume_keywords' → jd_keywords ≡ₚ jd_keywords' →
     _calculate_keyword_match resume_keywords' jd_keywords'
       = _calculate_keyword_match resume_keywords jd_keywords) ∧
  _calculate_keyword_match (lower <$> resume_keywords) (lower <$> jd_keywords)
    = _calculate_keyword_match resume_keywords jd_keywords.
Proof.
  split; [|split; [|split]].
  - destruct jd_keywords as [|kw kws]; [done|].
    rewrite keyword_match_unfold by done. apply py_min_glb; [done|].
    set (J := list_to_set (lower <$> kw :: kws) : gset string).
    assert (HJ : 0 < len (size J)).
    { apply len_pos, size_pos_nonempty. unfold J. simpl. set_solver. }
    assert (Hr : 0 ≤ len (size (list_to_set (lower <$> resume_keywords) ∩ J)) / len (size J)).
    { apply Qcdiv_unit; [apply len_nonneg|apply len_le, subseteq_size; set_solver|done]. }
    eapply Qcle_trans; [exact Hr|]. apply Qcle_add_nonneg.
    destruct resume_keywords as [|r rs]; [done|].
    apply py_min_glb; [done|].
    apply Qcdiv_unit; [apply len_nonneg|apply len_le, length_filter|].
    apply len_pos. simpl. lia.
  - destruct jd_keywords as [|kw kws]; [done|].
    rewrite keyword_match_unfold by done. apply py_min_le_l.
  - intros r' j' Hr Hj.
    destruct jd_keywords as [|kw kws].
    { apply Permutation.Permutation_nil in Hj. by subst j'. }
    assert (j' ≠ []).
    { intros ->. symmetry in Hj. by apply Permutation.Permutation_nil in Hj. }
    rewrite !keyword_match_unfold by done.
    assert (EJ : (list_to_set (lower <$> j') : gset string)
                 = list_to_set (lower <$> kw :: kws)).
    { apply list_to_set_perm_L. by rewrite Hj. }
    assert (ER : (list_to_set (lower <$> r') : gset string)
                 = list_to_set (lower <$> resume_keywords)).
    { apply list_to_set_perm_L. by rewrite Hr. }
    rewrite EJ, ER.
    assert (EL : length r' = length resume_keywords) by by rewrite Hr.
    assert (EF : ∀ J : gset string,
      length (filter (λ kw, lower kw ∈ J) r')
      = length (filter (λ kw, lower kw ∈ J) resume_keywords)) by (intros J; by rewrite Hr).
    destruct resume_keywords as [|r rs], r' as [|r0 rs0]; try done.
    by rewrite EL, EF.
  - destruct jd_keywords as [|kw kws]; [done|].
    rewrite !keyword_match_unfold by done.
    rewrite !fmap_lower_idemp.
    destruct resume_keywords as [|r rs]; [done|].
    rewrite fmap_cons. rewrite <- (fmap_cons lower r rs).
    rewrite length_filter_fmap, length_fmap.
    set (J := list_to_set (lower <$> kw :: kws) : gset string).
    rewrite (list_filter_iff (λ x, lower (lower x) ∈ J) (λ x, lower x ∈ J)); [done|].
    intros s. by rewrite lower_idemp.
Qed.

(** X7. The keyword score lies between 0 and 1; it depends neither on the
    order of the resume keywords, nor on the order of the JD keywords, nor
    on the case of either. *)
Theorem keyword_match_invariant (resume_keywords jd_keywords : list string) :
  0 ≤ _calculate_keyword_match resume_keywords jd_keywords ∧
  _calculate_keyword_match resume_keywords jd_keywords ≤ 1 ∧
  (∀ resume_keywords' jd_keywords',
     resume_keywords ≡ₚ resume_keywords' → jd_keywords ≡ₚ jd_keywords' →
     _calculate_keyword_match resume_keywords' jd_keywords'
       = _calculate_keyword_match resume_keywords jd_keywords) ∧
  _calculate_keyword_match (lower <$> resume_keywords) (lower <$> jd_keywords)
    = _calculate_keyword_match resume_keywords jd_keywords.
Proof. exact (keyword_match_properties resume_keywords jd_keywords). Qed.

Lemma keyword_match_invariant_witness :
  _calculate_keyword_match ["docker"; "Java"] ["go"; "java"]
  = _calculate_keyword_match ["Java"; "docker"] ["java"; "go"].
Proof.
  apply (keyword_match_invariant ["Java"; "docker"] ["java"; "go"]); apply perm_swap.
Defined.

End KeywordMore.

(** ** The scorer: totals *)

Section TotalMore.
Import ResumeScorer.

(** Rounding to the nearest integer stays between integer bounds. *)
Lemma round_half_even_bounds (a b : Z) (x : Qc) :
  Zq a ≤ x → x ≤ Zq b → (a ≤ round_half_even x ≤ b)%Z.
Proof.
  intros Ha Hb. destruct (round_half_even_near x) as [H1 H2].
  set (n := round_half_even x) in *. clearbody n.
  split.
  - destruct (Z_le_gt_dec a n) as [|Hlt]; [done|exfalso].
    assert (H : Zq (n + 1) ≤ Zq a) by (apply Zq_le; lia).
    rewrite Zq_add in H. qc_to_q. change (inject_Z 1) with 1%Q in H. lra.
  - destruct (Z_le_gt_dec n b) as [|Hlt]; [done|exfalso].
    assert (H : Zq (b + 1) ≤ Zq n) by (apply Zq_le; lia).
    rewrite Zq_add in H. qc_to_q. change (inject_Z 1) with 1%Q in H. lra.
Qed.

(** A fraction, as a percentage rounded to two decimals, is between 0 and
    100. *)
Lemma percent_range (x : Qc) :
  0 ≤ x → x ≤ 1 → 0 ≤ py_round2 (x * Zq 100) ∧ py_round2 (x * Zq 100) ≤ Zq 100.
Proof.
  intros H0 H1. unfold py_round2.
  destruct (round_half_even_bounds 0 10000 (x * Zq 100 * Zq 100)) as [Hn0 Hn1].
  { qc_to_q. change (inject_Z 100) with (100 # 1)%Q. change (inject_Z 0) with 0%Q. lra. }
  { qc_to_q. change (inject_Z 100) with (100 # 1)%Q.
    change (inject_Z 10000) with (10000 # 1)%Q. lra. }
  set (n := round_half_even _) in *. clearbody n.
  apply (Zq_le 0) in Hn0. apply (Zq_le _ 10000) in Hn1.
  split; qc_to_q.
  all: change (/ inject_Z 100)%Q with (1 # 100)%Q;
    change (inject_Z 100) with (100 # 1)%Q;
    change (inject_Z 10000) with (10000 # 1)%Q in *;
    change (inject_Z 0) with 0%Q in *; lra.
Qed.

Lemma weighted_sum_range (r p e k wr wp we wk : Qc) :
  0 ≤ r ≤ 1 → 0 ≤ p ≤ 1 → 0 ≤ e ≤ 1 → 0 ≤ k ≤ 1 →
  0 ≤ wr → 0 ≤ wp → 0 ≤ we → 0 ≤ wk → wr + wp + we + wk = 1 →
  0 ≤ r * wr + p * wp + e * we + k * wk ∧ r * wr + p * wp + e * we + k * wk ≤ 1.
Proof.
  intros [Hr0 Hr1] [Hp0 Hp1] [He0 He1] [Hk0 Hk1] Hwr Hwp Hwe Hwk Hsum.
  assert (Hm : ∀ c w : Qc, 0 ≤ c → c ≤ 1 → 0 ≤ w → 0 ≤ c * w ∧ c * w ≤ w).
  { intros c w Hc0 Hc1 Hw. split.
    - rewrite <- (Qcmult_0_l w). by apply Qcmult_le_compat_r.
    - rewrite <- (Qcmult_1_l w) at 2. by apply Qcmult_le_compat_r. }
  destruct (Hm r wr Hr0 Hr1 Hwr) as [A1 A2].
  destruct (Hm p wp Hp0 Hp1 Hwp) as [B1 B2].
  destruct (Hm e we He0 He1 Hwe) as [C1 C2].
  destruct (Hm k wk Hk0 Hk1 Hwk) as [D1 D2].
  set (a := r * wr) in *. set (b := p * wp) in *.
  set (c := e * we) in *. set (d := k * wk) in *.
  clearbody a b c d. clear Hm.
  assert (Hs : Qeq (this (wr + wp + we + wk)) 1%Q) by (by rewrite Hsum).
  clear Hsum. split; qc_to_q; lra.
Qed.

Lemma score_bounds (cfg : Config) (resume_skills : gset string)
    (resume_experience : Z) (resume_keywords : list string) (jd_data : JdData) :
  let sc := score_resume cfg resume_skills resume_experience resume_keywords jd_data in
  let w := weights cfg in
  (0 ≤ required_skills_score sc ∧ required_skills_score sc ≤ Zq 100) ∧
  (0 ≤ preferred_skills_score sc ∧ preferred_skills_score sc ≤ Zq 100) ∧
  (0 ≤ experience_score sc ∧ experience_score sc ≤ Zq 100) ∧
  (0 ≤ keyword_score sc ∧ keyword_score sc ≤ Zq 100) ∧
  (0 ≤ required_skills_w w → 0 ≤ preferred_skills_w w → 0 ≤ experience_w w →
   0 ≤ keyword_density_w w →
   required_skills_w w + preferred_skills_w w + experience_w w + keyword_density_w w = 1 →
   0 ≤ total_score sc ∧ total_score sc ≤ Zq 100).
Proof.
  intros sc w. unfold sc, score_resume; cbn.
  set (jr := list_to_set (lower <$> default [] (jd_required_skills jd_data)) : gset string).
  set (jp := list_to_set (lower <$> default [] (jd_preferred_skills jd_data)) : gset string).
  destruct (skill_match_bounds resume_skills jr) as (R0 & R1 & _).
  destruct (skill_match_bounds resume_skills jp) as (P0 & P1 & _).
  destruct (experience_match_bounds cfg resume_experience
              (default 0%Z (jd_min_experience jd_data))) as (E0 & E1).
  destruct (keyword_match_properties resume_keywords (default [] (jd_keywords jd_data)))
    as (K0 & K1 & _).
  split; [by apply percent_range|]. split; [by apply percent_range|].
  split; [by apply percent_range|]. split; [by apply percent_range|].
  intros Hwr Hwp Hwe Hwk Hsum. fold w.
  apply percent_range; by apply weighted_sum_range.
Qed.

(** X8. Every component is reported between 0 and 100, and so is the total
    when the weights are not negative and sum to 1, as the default weights
    do. *)
Theorem score_range (cfg : Config) (resume_skills : gset string)
    (resume_experience : Z) (resume_keywords : list string) (jd_data : JdData) :
  let sc := score_resume cfg resume_skills resume_experience resume_keywords jd_data in
  let w := weights cfg in
  (0 ≤ required_skills_score sc ∧ required_skills_score sc ≤ Zq 100) ∧
  (0 ≤ preferred_skills_score sc ∧ preferred_skills_score sc ≤ Zq 100) ∧
  (0 ≤ experience_score sc ∧ experience_score sc ≤ Zq 100) ∧
  (0 ≤ keyword_score sc ∧ keyword_score sc ≤ Zq 100) ∧
  (0 ≤ required_skills_w w → 0 ≤ preferred_skills_w w → 0 ≤ experience_w w →
   0 ≤ keyword_density_w w →
   required_skills_w w + preferred_skills_w w + experience_w w + keyword_density_w w = 1 →
   0 ≤ total_score sc ∧ total_score sc ≤ Zq 100).
Proof. exact (score_bounds cfg resume_skills resume_experience resume_keywords jd_data). Qed.

Lemma score_range_witness :
  0 ≤ total_score (score_resume default_config {[ "java" ]} 3 ["java"]
        {| jd_required_skills := Some ["java"; "go"]; jd_preferred_skills := None;
           jd_keywords := Some ["java"]; jd_min_experience := Some 5%Z |}) ∧
  total_score (score_resume default_config {[ "java" ]} 3 ["java"]
        {| jd_required_skills := Some ["java"; "go"]; jd_preferred_skills := None;
           jd_keywords := Some ["java"]; jd_min_experience := Some 5%Z |}) ≤ Zq 100.
Proof.
  destruct (score_range default_config {[ "java" ]} 3 ["java"]
        {| jd_required_skills := Some ["java"; "go"]; jd_preferred_skills := None;
           jd_keywords := Some ["java"]; jd_min_experience := Some 5%Z |})
    as (_ & _ & _ & _ & H).
  apply H; try done. apply Qc_is_canon. by vm_compute.
Defined.

End TotalMore.

(** ** Threshold, ranking and selection *)

Section Selection.
Import ResumeScorer ResumeScorerFilter ResumeScreeningSystem.

Lemma StronglySorted_filter {A} (R : relation A) (P : A → Prop)
    `{!∀ x, Decision (P x)} (l : list A) :
  StronglySorted R l → StronglySorted R (filter P l).
Proof.
  induction 1 as [|x l Hs IH Hx]; [constructor|].
  rewrite filter_cons. destruct (decide (P x)); [|done].
  constructor; [done|]. rewrite Forall_forall in *.
  intros y [_ Hy]%list_elem_of_filter. by apply Hx.
Qed.

Lemma StronglySorted_prefix {A} (R : relation A) (l1 l2 : list A) :
  StronglySorted R (l1 ++ l2) →
  StronglySorted R l1 ∧ ∀ x y, x ∈ l1 → y ∈ l2 → R x y.
Proof.
  induction l1 as [|a l1 IH]; simpl; intros Hs.
  - split; [constructor|]. intros x y Hx. by apply elem_of_nil in Hx.
  - apply StronglySorted_inv in Hs as [Hs Ha]. destruct (IH Hs) as [IH1 IH2].
    rewrite Forall_forall in Ha. split.
    + constructor; [done|]. apply Forall_forall. intros y Hy. apply Ha.
      apply list_elem_of_In, in_or_app. left. by apply list_elem_of_In.
    + intros x y Hx Hy. apply elem_of_cons in Hx as [->|Hx]; [|by apply IH2].
      apply Ha. apply list_elem_of_In, in_or_app. right. by apply list_elem_of_In.
Qed.

Lemma filter_comm {A} (P Q : A → Prop) `{!∀ x, Decision (P x), !∀ x, Decision (Q x)}
    (l : list A) :
  filter P (filter Q l) = filter Q (filter P l).
Proof. rewrite !list_filter_filter. apply list_filter_iff. naive_solver. Qed.

(** Sorting what passes a test is keeping what passes of the sorted list. *)
Lemma sorted_reverse_filter {A} (key : A → Qc) (P : A → Prop)
    `{!∀ x, Decision (P x)} (l : list A) :
  sorted_reverse key (filter P l) = filter P (sorted_reverse key l).
Proof.
  symmetry. apply sorted_reverse_unique.
  - apply StronglySorted_filter, Sorted_StronglySorted;
      [apply desc_trans|apply sorted_reverse_sorted].
  - intros v. rewrite filter_comm, sorted_reverse_stable. apply filter_comm.
Qed.

(** X9. The threshold filter keeps exactly the entries that reach the
    threshold, and it may as well be applied after ranking as before. *)
Theorem filter_by_threshold_rank (cfg : Config) (scored_resumes : list ScoredResume)
    (min_score : option Qc) :
  let threshold := default (default 0 (cfg_min_score cfg)) min_score in
  (∀ r, r ∈ filter_by_threshold cfg scored_resumes min_score
        ↔ threshold ≤ total_score (score r) ∧ r ∈ scored_resumes) ∧
  filter_by_threshold cfg scored_resumes min_score `sublist_of` scored_resumes ∧
  rank_resumes (filter_by_threshold cfg scored_resumes min_score)
    = filter_by_threshold cfg (rank_resumes scored_resumes) min_score.
Proof.
  intros threshold.
  assert (E : ∀ l, filter_by_threshold cfg l min_score
                   = filter (λ r, threshold ≤ total_score (score r)) l).
  { intros l. unfold filter_by_threshold, threshold. by destruct min_score. }
  rewrite !E. split; [|split].
  - intros r. apply (list_elem_of_filter (λ r, threshold ≤ total_score (score r))).
  - apply sublist_filter.
  - unfold rank_resumes. apply sorted_reverse_filter.
Qed.

(** X10. With the threshold of the default configuration no resume scored under
    valid weights is filtered out. *)
Theorem default_threshold_keeps_all (cfg : Config) (scored_resumes : list ScoredResume) :
  let w := weights cfg in
  default 0 (cfg_min_score cfg) ≤ 0 →
  0 ≤ required_skills_w w → 0 ≤ preferred_skills_w w → 0 ≤ experience_w w →
  0 ≤ keyword_density_w w →
  required_skills_w w + preferred_skills_w w + experience_w w + keyword_density_w w = 1 →
  Forall (λ r, ∃ resume_skills resume_experience resume_keywords jd_data,
            score r = score_resume cfg resume_skills resume_experience
                        resume_keywords jd_data) scored_resumes →
  filter_by_threshold cfg scored_resumes None = scored_resumes.
Proof.
  intros w Hm Hwr Hwp Hwe Hwk Hsum Hall. unfold filter_by_threshold.
  induction Hall as [|r l (sk & ex & kws & jd & Hr) _ IH]; [done|].
  rewrite filter_cons, IH. rewrite decide_True; [done|].
  rewrite Hr. eapply Qcle_trans; [exact Hm|].
  by apply (score_bounds cfg sk ex kws jd).
Qed.

Lemma default_threshold_keeps_all_witness :
  filter_by_threshold default_config
    [ {| resume := "a"; skills := [];  experience := 0;
         score := score_resume default_config ∅ 0 []
           {| jd_required_skills := Some ["java"]; jd_preferred_skills := Some ["go"];
              jd_keywords := Some ["java"]; jd_min_experience := Some 5%Z |} |} ] None
  = [ {| resume := "a"; skills := [];  experience := 0;
         score := score_resume default_config ∅ 0 []
           {| jd_required_skills := Some ["java"]; jd_preferred_skills := Some ["go"];
              jd_keywords := Some ["java"]; jd_min_experience := Some 5%Z |} |} ].
Proof.
  apply default_threshold_keeps_all; try done.
  - apply Qc_is_canon. by vm_compute.
  - constructor; [|constructor]. by eexists _, _, _, _.
Defined.

Lemma slice_to_prefix {A} (l : list A) (n : Z) :
  ∃ rest, slice_to l n ++ rest = l ∧
    length (slice_to l n)
    = (if (n <? 0)%Z then length l - Z.to_nat (- n) else min (Z.to_nat n) (length l))%nat.
Proof.
  unfold slice_to. destruct (Z.ltb_spec n 0).
  - exists (drop (Z.to_nat (Z.of_nat (length l) + n)) l).
    split; [apply take_drop|]. rewrite length_take. lia.
  - exists (drop (Z.to_nat n) l). split; [apply take_drop|]. apply length_take.
Qed.

(** X11. The selection of [run]: the entries returned are the first in rank of
    those that pass the threshold; there are [top_n] of them, or all when
    fewer pass; no entry left out ranks above an entry returned; and a
    negative [top_n] leaves out the last [-top_n] in rank. *)
Theorem top_resumes_selection (scored_resumes : list ScoredResume) (top_n : Z)
    (min_score : option Qc) :
  let total (x : ScoredResume) := total_score (score x) in
  let passing :=
    match min_score with
    | Some m => filter (λ r, m ≤ total r) scored_resumes
    | None => scored_resumes
    end in
  let result := top_resumes scored_resumes top_n min_score in
  (∃ rest, result ++ rest = rank_resumes passing ∧
           ∀ x y, x ∈ result → y ∈ rest → total y ≤ total x) ∧
  StronglySorted (λ a b, total b ≤ total a) result ∧
  ((0 ≤ top_n)%Z → length result = min (Z.to_nat top_n) (length passing)) ∧
  ((Z.of_nat (length passing) ≤ top_n)%Z → result = rank_resumes passing) ∧
  ((top_n < 0)%Z → length result = (length passing - Z.to_nat (- top_n))%nat).
Proof.
  intros total passing result.
  assert (Er : result = slice_to (rank_resumes passing) top_n).
  { unfold result, top_resumes, rank_resumes, passing, total. by destruct min_score. }
  destruct (slice_to_prefix (rank_resumes passing) top_n) as (rest & Happ & Hlen).
  rewrite <- Er in Happ, Hlen.
  assert (Hs : StronglySorted (λ a b, total b ≤ total a) (result ++ rest)).
  { rewrite Happ. apply Sorted_StronglySorted; [apply desc_trans|].
    apply sorted_reverse_sorted. }
  assert (Hl : length (rank_resumes passing) = length passing).
  { unfold rank_resumes. by rewrite sorted_reverse_perm. }
  rewrite Hl in Hlen.
  split; [|split; [|split; [|split]]].
  - exists rest. split; [done|]. intros x y Hx Hy.
    by apply (StronglySorted_prefix _ _ _ Hs).
  - by apply StronglySorted_prefix in Hs as [Hs _].
  - intros Hn. destruct (Z.ltb_spec top_n 0); [lia|done].
  - intros Hn. destruct (Z.ltb_spec top_n 0); [lia|].
    assert (length rest = 0%nat).
    { apply (f_equal length) in Happ. rewrite length_app, Hl in Happ. lia. }
    destruct rest; [|done]. by rewrite app_nil_r in Happ.
  - intros Hn. destruct (Z.ltb_spec top_n 0); [done|lia].
Qed.

Lemma top_resumes_selection_witness :
  let entry (name : string) (total : Qc) : ScoredResume :=
    {| resume := name;
       score := {| total_score := total; required_skills_score := 0;
                   preferred_skills_score := 0; experience_score := 0;
                   keyword_score := 0; matched_required_skills := ∅;
                   matched_preferred_skills := ∅; missing_required_skills := ∅;
                   resume_experience := 0; required_experience := 0 |};
       skills := []; experience := 0 |} in
  let batch := [entry "a" (Zq 40); entry "b" (Zq 90); entry "c" (Zq 55);
                entry "d" (Zq 90); entry "e" (Zq 70)] in
  top_resumes batch 2 (Some (Zq 50)) = [entry "b" (Zq 90); entry "d" (Zq 90)] ∧
  length (top_resumes batch 2 (Some (Zq 50))) = 2%nat ∧
  top_resumes batch 10 (Some (Zq 50))
    = [entry "b" (Zq 90); entry "d" (Zq 90); entry "e" (Zq 70); entry "c" (Zq 55)] ∧
  length (top_resumes batch (-1) (Some (Zq 50))) = 3%nat.
Proof.
  intros entry batch.
  destruct (top_resumes_selection batch 2 (Some (Zq 50))) as (_ & _ & H1 & _).
  destruct (top_resumes_selection batch 10 (Some (Zq 50))) as (_ & _ & _ & H2 & _).
  destruct (top_resumes_selection batch (-1) (Some (Zq 50))) as (_ & _ & _ & _ & H3).
  split; [by vm_compute|]. split; [by rewrite H1|].
  split; [rewrite H2; [by vm_compute|by vm_compute]|]. by rewrite H3.
Defined.

End Selection.

(** ** The job-description analyzer *)

Section AnalyzerMore.

Lemma is_space_lower (c : ascii) : is_space (lower_ascii c) = is_space c.
Proof. destruct c as [[] [] [] [] [] [] [] []]; reflexivity. Qed.

Lemma lstrip_lower (s : string) : lstrip (lower s) = lower (lstrip s).
Proof.
  induction s as [|c s IH]; simpl; [done|].
  rewrite is_space_lower. by destruct (is_space c).
Qed.

Lemma rstrip_lower (s : string) : rstrip (lower s) = lower (rstrip s).
Proof.
  induction s as [|c s IH]; simpl; [done|].
  rewrite IH, is_space_lower. destruct (rstrip s); simpl; [|done].
  by destruct (is_space c).
Qed.

Lemma strip_lower (s : string) : strip (lower s) = lower (strip s).
Proof. unfold strip. by rewrite rstrip_lower, lstrip_lower. Qed.

Lemma lstrip_idemp (s : string) : lstrip (lstrip s) = lstrip s.
Proof.
  induction s as [|c s IH]; simpl; [done|].
  destruct (is_space c) eqn:E; [done|]. simpl. by rewrite E.
Qed.

Lemma rstrip_cons (c : ascii) (s : string) :
  rstrip (String c s) =
    if is_space c then (match rstrip s with EmptyString => EmptyString
                        | t => String c t end)
    else String c (rstrip s).
Proof. simpl. destruct (rstrip s), (is_space c); done. Qed.

Lemma rstrip_idemp (s : string) : rstrip (rstrip s) = rstrip s.
Proof.
  induction s as [|c s IH]; [done|].
  rewrite rstrip_cons. destruct (is_space c) eqn:E.
  - destruct (rstrip s) as [|a t] eqn:Et; [done|].
    rewrite rstrip_cons, E, IH. done.
  - rewrite rstrip_cons, E, IH. done.
Qed.

Lemma rstrip_lstrip (s : string) : rstrip (lstrip s) = lstrip (rstrip s).
Proof.
  induction s as [|c s IH]; [done|].
  rewrite rstrip_cons. simpl lstrip at 1. destruct (is_space c) eqn:E.
  - rewrite IH. destruct (rstrip s) as [|a t]; [done|]. simpl. by rewrite E.
  - rewrite rstrip_cons, E. simpl. by rewrite E.
Qed.

Lemma strip_idemp (s : string) : strip (strip s) = strip s.
Proof.
  unfold strip. by rewrite rstrip_lstrip, rstrip_idemp, lstrip_idemp.
Qed.

Lemma has_upper_fixed (s : string) : has_upper s = false → lower s = s.
Proof.
  induction s as [|c s IH]; simpl; [done|].
  intros [Hc Hs]%orb_false_iff. unfold lower_ascii. by rewrite Hc, IH.
Qed.

Lemma normalizations_values :
  map_Forall (λ _ v, has_upper v = false ∧ strip v = v
                     ∧ JDParser.normalizations !! v = None)
    JDParser.normalizations.
Proof. by_evaluation. Qed.

Lemma normalize_skill_fixed (skill : string) :
  JDParser._normalize_skill (JDParser._normalize_skill skill)
    = JDParser._normalize_skill skill ∧
  has_upper (JDParser._normalize_skill skill) = false ∧
  strip (JDParser._normalize_skill skill) = JDParser._normalize_skill skill.
Proof.
  assert (Hfix : ∀ t, has_upper t = false → strip t = t →
                      JDParser.normalizations !! t = None →
                      JDParser._normalize_skill t = t).
  { intros t Hu Hs Hn. unfold JDParser._normalize_skill.
    by rewrite (has_upper_fixed t Hu), Hs, Hn. }
  assert (Hn : has_upper (JDParser._normalize_skill skill) = false
               ∧ strip (JDParser._normalize_skill skill) = JDParser._normalize_skill skill
               ∧ JDParser.normalizations !! JDParser._normalize_skill skill = None).
  { unfold JDParser._normalize_skill.
    set (s1 := strip (lower skill)).
    destruct (JDParser.normalizations !! s1) as [v|] eqn:Hv; simpl.
    - exact (normalizations_values _ _ Hv).
    - split; [|split; [apply strip_idemp|done]].
      unfold s1. rewrite strip_lower. apply has_upper_lower. }
  destruct Hn as (Hu & Hs & Hn). split; [by apply Hfix|done].
Qed.

(** X12. Normalizing a skill name gives a lower-case name without blanks around
    it, which normalizing leaves as it is. *)
Theorem normalize_skill_idempotent (skill : string) :
  JDParser._normalize_skill (JDParser._normalize_skill skill)
    = JDParser._normalize_skill skill ∧
  has_upper (JDParser._normalize_skill skill) = false ∧
  strip (JDParser._normalize_skill skill) = JDParser._normalize_skill skill.
Proof. exact (normalize_skill_fixed skill). Qed.

Lemma foldl_invariant {A B} (Inv : A → Prop) (f : A → B → A) (l : list B) (a : A) :
  Inv a → (∀ a x, Inv a → Inv (f a x)) → Inv (foldl f a l).
Proof.
  intros Ha Hf. revert a Ha. induction l as [|x l IH]; intros a Ha; simpl; [done|].
  by apply IH, Hf.
Qed.

Lemma extract_skills_lower (text : string) (s : string) :
  s ∈ JDParser._extract_skills text → has_upper s = false ∧ strip s = s.
Proof.
  revert s. unfold JDParser._extract_skills.
  apply (foldl_invariant (λ S : gset string, ∀ s, s ∈ S → has_upper s = false ∧ strip s = s)).
  { intros s Hs. set_solver. }
  intros S pattern HS. apply foldl_invariant; [done|].
  intros S' mt HS'. destruct (strip _) as [|c t] eqn:E; [done|].
  intros s [->%elem_of_singleton|Hs]%elem_of_union; [|by apply HS'].
  destruct (normalize_skill_fixed (String c t)) as (_ & ? & ?). done.
Qed.

Lemma extract_keywords_lower (text : string) (s : string) :
  s ∈ JDParser._extract_keywords text → has_upper s = false.
Proof.
  revert s. unfold JDParser._extract_keywords.
  apply (foldl_invariant (λ S : gset string, ∀ s, s ∈ S → has_upper s = false)).
  - apply (foldl_invariant (λ S : gset string, ∀ s, s ∈ S → has_upper s = false)).
    { intros s Hs. set_solver. }
    intros S mt HS. destruct (decide _); [done|].
    intros s [->%elem_of_singleton|Hs]%elem_of_union; [|by apply HS].
    apply has_upper_lower.
  - intros S mt HS s [->%elem_of_singleton|Hs]%elem_of_union; [|by apply HS].
    apply has_upper_lower.
Qed.

Lemma lowered_elements (S : gset string) :
  (∀ s, s ∈ S → has_upper s = false) →
  (list_to_set (lower <$> elements S) : gset string) = S.
Proof.
  intros HS. apply set_eq. intros x.
  rewrite elem_of_list_to_set, list_elem_of_fmap. split.
  - intros (y & -> & Hy%elem_of_elements). by rewrite has_upper_fixed by by apply HS.
  - intros Hx. exists x. split; [|by apply elem_of_elements].
    symmetry. by apply has_upper_fixed, HS.
Qed.

Lemma parse_text_skills_lower (text : string) (s : string) :
  s ∈ JDParser.required_skills (JDParser.parse_text text)
      ∪ JDParser.preferred_skills (JDParser.parse_text text) →
  has_upper s = false.
Proof.
  unfold JDParser.parse_text.
  destruct (JDParser._split_sections (lower text)) as [r p]. simpl.
  destruct (decide _); intros [H|H]%elem_of_union;
    by apply extract_skills_lower in H as [? _].
Qed.

Lemma parse_text_keywords_lower (text : string) (s : string) :
  s ∈ JDParser.keywords (JDParser.parse_text text) → has_upper s = false.
Proof.
  unfold JDParser.parse_text.
  destruct (JDParser._split_sections (lower text)) as [r p]. simpl.
  apply extract_keywords_lower.
Qed.

Lemma score_of_lowered_jd (cfg : ResumeScorer.Config) (jd : JDParser.JD)
    (resume_skills : gset string) (resume_experience : Z)
    (resume_keywords : list string) :
  (∀ s, s ∈ JDParser.required_skills jd ∪ JDParser.preferred_skills jd →
        has_upper s = false) →
  let sc := ResumeScorer.score_resume cfg resume_skills resume_experience resume_keywords
              (ResumeScreeningSystem.jd_data_of jd) in
  ResumeScorer.matched_required_skills sc
    = resume_skills ∩ JDParser.required_skills jd ∧
  ResumeScorer.matched_preferred_skills sc
    = resume_skills ∩ JDParser.preferred_skills jd ∧
  ResumeScorer.missing_required_skills sc
    = JDParser.required_skills jd ∖ resume_skills ∧
  ResumeScorer.required_skills_score sc
    = py_round2 (ResumeScorer._calculate_skill_match resume_skills
                   (JDParser.required_skills jd) * Zq 100) ∧
  ResumeScorer.preferred_skills_score sc
    = py_round2 (ResumeScorer._calculate_skill_match resume_skills
                   (JDParser.preferred_skills jd) * Zq 100) ∧
  ResumeScorer.required_experience sc = JDParser.min_experience jd.
Proof.
  intros Hlow.
  assert (Er : (list_to_set (lower <$> elements (JDParser.required_skills jd))
                : gset string) = JDParser.required_skills jd).
  { apply lowered_elements. intros s Hs. apply Hlow. set_solver. }
  assert (Ep : (list_to_set (lower <$> elements (JDParser.preferred_skills jd))
                : gset string) = JDParser.preferred_skills jd).
  { apply lowered_elements. intros s Hs. apply Hlow. set_solver. }
  unfold ResumeScorer.score_resume, ResumeScreeningSystem.jd_data_of. simpl.
  rewrite !Er, !Ep. done.
Qed.

(** X13. What [score_resume] makes of a parsed job description: its lower-casing
    changes nothing, so the resume skills are compared with the required
    and preferred skills as parsed, and the required experience is the
    parsed minimum. *)
Theorem parsed_job_description_scoring (cfg : ResumeScorer.Config) (text : string)
    (resume_skills : gset string) (resume_experience : Z)
    (resume_keywords : list string) :
  let jd := JDParser.parse_text text in
  let sc := ResumeScorer.score_resume cfg resume_skills resume_experience resume_keywords
              (ResumeScreeningSystem.jd_data_of jd) in
  ResumeScorer.matched_required_skills sc
    = resume_skills ∩ JDParser.required_skills jd ∧
  ResumeScorer.matched_preferred_skills sc
    = resume_skills ∩ JDParser.preferred_skills jd ∧
  ResumeScorer.missing_required_skills sc
    = JDParser.required_skills jd ∖ resume_skills ∧
  ResumeScorer.required_skills_score sc
    = py_round2 (ResumeScorer._calculate_skill_match resume_skills
                   (JDParser.required_skills jd) * Zq 100) ∧
  ResumeScorer.preferred_skills_score sc
    = py_round2 (ResumeScorer._calculate_skill_match resume_skills
                   (JDParser.preferred_skills jd) * Zq 100) ∧
  ResumeScorer.required_experience sc = JDParser.min_experience jd.
Proof.
  intros jd. apply score_of_lowered_jd. apply parse_text_skills_lower.
Qed.

(** X14. On the keywords of a parsed job description the keyword score divides
    the number of distinct lower-cased resume keywords among them by the
    number of JD keywords. *)
Theorem parsed_keywords_match (text : string) (resume_keywords : list string) :
  let jdKeywords := JDParser.keywords (JDParser.parse_text text) in
  let resume_set : gset string := list_to_set (lower <$> resume_keywords) in
  let bonus :=
    if decide (resume_keywords = []) then 0
    else py_min (dec 2 10)
           (len (length (filter (λ kw, lower kw ∈ jdKeywords) resume_keywords))
            / len (length resume_keywords)) in
  jdKeywords ≠ ∅ →
  ResumeScorer._calculate_keyword_match resume_keywords (elements jdKeywords)
    = py_min 1 (len (size (resume_set ∩ jdKeywords)) / len (size jdKeywords) + bonus).
Proof.
  intros jdKeywords resume_set bonus Hne.
  assert (E : (list_to_set (lower <$> elements jdKeywords) : gset string) = jdKeywords).
  { apply lowered_elements. apply parse_text_keywords_lower. }
  rewrite keyword_match_unfold.
  - rewrite E. unfold bonus, resume_set. by destruct resume_keywords.
  - intros Hel. apply Hne. apply elements_empty_inv in Hel. by apply leibniz_equiv.
Qed.

Lemma parsed_keywords_match_witness :
  ResumeScorer._calculate_keyword_match ["Java 11"; "java 11"]
    (elements (JDParser.keywords (JDParser.parse_text "Spring Boot and Java 11")))
  = 1.
Proof.
  rewrite (parsed_keywords_match "Spring Boot and Java 11" ["Java 11"; "java 11"]).
  - apply Qc_is_canon. by vm_compute.
  - by_evaluation.
Defined.

(** X15. A job description in whose text a skill is found never comes out with
    both skill lists empty. *)
Theorem parse_text_finds_skills (text : string) :
  JDParser._extract_skills (lower text) ≠ ∅ →
  JDParser.required_skills (JDParser.parse_text text) ≠ ∅
  ∨ JDParser.preferred_skills (JDParser.parse_text text) ≠ ∅.
Proof.
  unfold JDParser.parse_text.
  destruct (JDParser._split_sections (lower text)) as [r p]. simpl.
  intros Hall. destruct (decide _) as [[Hr Hp]|Hn]; [by left|].
  destruct (decide (JDParser._extract_skills r = ∅)); [|by left].
  right. intros Hp. by apply Hn.
Qed.

Lemma parse_text_finds_skills_witness :
  JDParser.required_skills (JDParser.parse_text "Preferred: Docker") ≠ ∅
  ∨ JDParser.preferred_skills (JDParser.parse_text "Preferred: Docker") ≠ ∅.
Proof. apply parse_text_finds_skills. by_evaluation. Defined.

(** *** Years are never negative *)

Lemma int_digits_nonneg (s : string) (acc z : Z) :
  (0 ≤ acc)%Z → int_digits acc s = Some z → (0 ≤ z)%Z.
Proof.
  revert acc. induction s as [|c s IH]; simpl; intros acc Hacc.
  - intros [= <-]. done.
  - destruct (is_digit c) eqn:Hc; [|done]. apply IH.
    unfold is_digit in Hc. apply andb_true_iff in Hc as [Hc _].
    apply N.leb_le in Hc. lia.
Qed.

Lemma int_nonneg (s : string) (z : Z) : int s = Some z → (0 ≤ z)%Z.
Proof. destruct s; [done|]. by apply int_digits_nonneg. Qed.

Lemma year_values_nonneg (patterns : list string) (fl : Flags) (text : string) (y : Z) :
  y ∈ year_values patterns fl text → (0 ≤ y)%Z.
Proof.
  unfold year_values. intros Hy. apply list_elem_of_In, in_flat_map in Hy as (p & _ & Hy).
  apply list_elem_of_In, list_elem_of_omap in Hy as (mt & _ & Hy).
  destruct (group text mt 1) as [g|]; [|done]. by apply int_nonneg in Hy.
Qed.

(** X16. The minimum experience of a job description and the years of
    experience of a resume are never negative; the latter are below 50
    unless they are the sum found in the date ranges. *)
Theorem experience_never_negative (text : string) :
  (0 ≤ JDParser.min_experience (JDParser.parse_text text))%Z ∧
  (0 ≤ KeywordExtractor.extract_experience_years text)%Z ∧
  ((KeywordExtractor.extract_experience_years text < 50)%Z
   ∨ KeywordExtractor.extract_experience_years text
     = KeywordExtractor._calculate_experience_from_dates text).
Proof.
  split; [|split].
  - rewrite parse_text_min_experience, extract_experience_values.
    destruct (year_values _ _ _) as [|y ys] eqn:E; [done|].
    destruct (min_list_spec y ys) as [Hin _]. rewrite <- E in Hin.
    by apply year_values_nonneg in Hin.
  - rewrite extract_experience_years_candidates.
    destruct (_ ++ _) as [|y ys] eqn:E; [done|].
    destruct (max_list_spec y ys) as [Hin _]. rewrite <- E in Hin.
    apply elem_of_app in Hin as [Hin|Hin].
    + apply phrase_years_pos in Hin. lia.
    + pose proof (date_years_nonneg text).
      destruct (date_years text =? 0)%Z; [by apply elem_of_nil in Hin|].
      apply list_elem_of_singleton in Hin. lia.
  - rewrite extract_experience_years_candidates, experience_from_dates_sum.
    destruct (_ ++ _) as [|y ys] eqn:E; [by left|].
    destruct (max_list_spec y ys) as [Hin _]. rewrite <- E in Hin.
    apply elem_of_app in Hin as [Hin|Hin].
    + left. apply phrase_years_pos in Hin. lia.
    + destruct (date_years text =? 0)%Z; [by apply elem_of_nil in Hin|].
      right. by apply list_elem_of_singleton in Hin.
Qed.

End AnalyzerMore.

(** ** The skill and keyword extractor *)

Section ExtractorMore.
Import KeywordExtractorSkills.

(** A pattern is found by [re.search] exactly when [re.finditer] yields a
    match. *)
Lemma search_none_finditer (pattern text : string) (fl : Flags) :
  search pattern text fl = None ↔ finditer pattern text fl = [].
Proof.
  unfold search, finditer. destruct (compile pattern) as [r|]; [|done].
  cbn [matches_from start_of idx prev rest].
  destruct (search_from _ _ _ _ _ _) as [mt|]; [|done].
  split; [done|]. destruct (_ <? _)%N; [done|]. by destruct (rest (m_stop mt)).
Qed.

Lemma findall_nil (pattern text : string) :
  findall pattern text = [] ↔ search pattern text no_flags = None.
Proof.
  unfold findall. rewrite search_none_finditer.
  destruct (finditer pattern text no_flags); [done|]. by split.
Qed.

Lemma found_variation_findall (text_lower : string) (variations : list string) :
  found_variation text_lower variations = false
  ↔ flat_map (λ v, findall (word_pattern v) text_lower) variations = [].
Proof.
  induction variations as [|v vs IH]; simpl; [done|].
  destruct (search _ _ _) as [mt|] eqn:E.
  - split; [done|]. intros [H _]%app_eq_nil. apply findall_nil in H. congruence.
  - rewrite IH. apply findall_nil in E. rewrite E. done.
Qed.

Lemma foldl_flat_map {A B C} (f : A → C → A) (g : B → list C) (l : list B) (a : A) :
  foldl (λ a x, foldl f a (g x)) a l = foldl f a (flat_map g l).
Proof.
  revert a. induction l as [|x l IH]; intros a; simpl; [done|].
  by rewrite foldl_app, IH.
Qed.

Lemma foldl_append {A B} (g : B → list A) (l : list B) (acc : list A) :
  foldl (λ acc x, acc ++ g x) acc l = acc ++ flat_map g l.
Proof.
  revert acc. induction l as [|x l IH]; intros acc; simpl.
  - by rewrite app_nil_r.
  - by rewrite IH, app_assoc.
Qed.

(** All the entries of a taxonomy, category after category. *)
Lemma extract_skills_entries (skills_taxonomy : Taxonomy) (text : string) :
  extract_skills skills_taxonomy text
  = foldl (λ found_skills entry,
      if found_variation (lower text) entry.2 then {[ entry.1 ]} ∪ found_skills
      else found_skills) ∅ (flat_map snd skills_taxonomy).
Proof. unfold extract_skills. apply (foldl_flat_map _ snd). Qed.

Lemma extract_keywords_entries (skills_taxonomy : Taxonomy) (text : string) :
  extract_keywords skills_taxonomy text
  = flat_map (λ entry, flat_map (λ v, findall (word_pattern v) (lower text)) entry.2)
      (flat_map snd skills_taxonomy).
Proof.
  unfold extract_keywords.
  rewrite (foldl_flat_map
    (λ keywords entry,
       foldl (λ keywords variation,
                keywords ++ findall (word_pattern variation) (lower text))
         keywords entry.2) snd).
  rewrite <- (app_nil_l (flat_map _ (flat_map snd _))).
  rewrite <- foldl_append. apply foldl_same. intros acc entry.
  apply foldl_append.
Qed.

Lemma skills_loop_spec (text_lower : string) (entries : list (string * list string))
    (S0 : gset string) (s : string) :
  s ∈ foldl (λ found_skills entry,
        if found_variation text_lower entry.2 then {[ entry.1 ]} ∪ found_skills
        else found_skills) S0 entries
  ↔ s ∈ S0 ∨ ∃ entry, entry ∈ entries ∧ entry.1 = s
                      ∧ found_variation text_lower entry.2 = true.
Proof.
  revert S0. induction entries as [|e es IH]; intros S0; simpl.
  - split; [by left|]. intros [?|(? & []%elem_of_nil & _)]. done.
  - rewrite IH. split.
    + intros [Hs|(e' & He' & Hn & Hf)].
      * destruct (found_variation text_lower e.2) eqn:Hf; [|by left].
        apply elem_of_union in Hs as [->%elem_of_singleton|Hs]; [|by left].
        right. exists e. split; [left|done].
      * right. exists e'. split; [by right|done].
    + intros [Hs|(e' & He' & Hn & Hf)].
      * left. destruct (found_variation text_lower e.2); set_solver.
      * apply elem_of_cons in He' as [->|He'].
        -- left. rewrite Hf. set_solver.
        -- right. by exists e'.
Qed.

Lemma skills_loop_size (text_lower : string) (entries : list (string * list string))
    (S0 : gset string) :
  (size (foldl (λ found_skills entry,
           if found_variation text_lower entry.2 then {[ entry.1 ]} ∪ found_skills
           else found_skills) S0 entries)
   ≤ size S0
     + length (flat_map (λ entry,
                 flat_map (λ v, findall (word_pattern v) text_lower) entry.2) entries))%nat.
Proof.
  revert S0. induction entries as [|e es IH]; intros S0; simpl; [lia|].
  etrans; [apply IH|]. rewrite length_app.
  destruct (found_variation text_lower e.2) eqn:Hf; [|lia].
  assert (Hne : flat_map (λ v, findall (word_pattern v) text_lower) e.2 ≠ []).
  { intros H%found_variation_findall. congruence. }
  assert (0 < length (flat_map (λ v, findall (word_pattern v) text_lower) e.2))%nat.
  { destruct (flat_map _ e.2); [congruence|simpl; lia]. }
  assert (size ({[ e.1 ]} ∪ S0) ≤ 1 + size S0)%nat; [|lia].
  rewrite size_union_alt, size_singleton. assert (size (S0 ∖ {[ e.1 ]}) ≤ size S0)%nat; [|lia].
  apply subseteq_size. set_solver.
Qed.

Lemma skills_loop_empty (text_lower : string) (entries : list (string * list string)) :
  foldl (λ found_skills entry,
     if found_variation text_lower entry.2 then {[ entry.1 ]} ∪ found_skills
     else found_skills) (∅ : gset string) entries = ∅
  ↔ flat_map (λ entry, flat_map (λ v, findall (word_pattern v) text_lower) entry.2)
      entries = [].
Proof.
  trans (Forall (λ entry : string * list string,
                   found_variation text_lower entry.2 = false) entries).
  - rewrite Forall_forall. split.
    + intros Hempty e He.
      destruct (found_variation text_lower e.2) eqn:Hf; [|done].
      assert (Hin : e.1 ∈ (∅ : gset string)); [|by apply elem_of_empty in Hin].
      rewrite <- Hempty. apply skills_loop_spec. right. by exists e.
    + intros Hall. apply set_eq. intros s. rewrite skills_loop_spec. split.
      * intros [Hs|(e & He & _ & Hf)]; [done|]. rewrite (Hall e He) in Hf. done.
      * intros Hs. by apply elem_of_empty in Hs.
  - induction entries as [|e es IH]; simpl.
    + split; [done|constructor].
    + rewrite Forall_cons, IH, found_variation_findall. split.
      * by intros [-> ->].
      * by intros [? ?]%app_eq_nil.
Qed.

(** X17. The skills found are names of the taxonomy, each found through one of
    its variations; a resume has no skill exactly when it has no keyword;
    there are at least as many keywords as skills; and the case of the
    text plays no part. *)
Theorem skills_and_keywords (skills_taxonomy : Taxonomy) (text : string) :
  (∀ s, s ∈ extract_skills skills_taxonomy text
        ↔ ∃ category entry, category ∈ skills_taxonomy ∧ entry ∈ category.2
            ∧ entry.1 = s ∧ found_variation (lower text) entry.2 = true) ∧
  (extract_skills skills_taxonomy text = ∅
   ↔ extract_keywords skills_taxonomy text = []) ∧
  (size (extract_skills skills_taxonomy text)
   ≤ length (extract_keywords skills_taxonomy text))%nat ∧
  extract_skills skills_taxonomy (lower text) = extract_skills skills_taxonomy text ∧
  extract_keywords skills_taxonomy (lower text) = extract_keywords skills_taxonomy text.
Proof.
  split; [|split; [|split; [|split]]].
  - intros s. rewrite extract_skills_entries, skills_loop_spec. split.
    + intros [Hs|(e & He & Hn & Hf)]; [by apply elem_of_empty in Hs|].
      apply list_elem_of_In, in_flat_map in He as (c & Hc & He).
      exists c, e. by rewrite !list_elem_of_In.
    + intros (c & e & Hc & He & Hn & Hf). right. exists e. split; [|done].
      apply list_elem_of_In, in_flat_map. exists c. by rewrite <- !list_elem_of_In.
  - rewrite extract_skills_entries, extract_keywords_entries.
    apply skills_loop_empty.
  - rewrite extract_skills_entries, extract_keywords_entries.
    etrans; [apply skills_loop_size|]. by rewrite size_empty.
  - unfold extract_skills. by rewrite lower_idemp.
  - unfold extract_keywords. by rewrite lower_idemp.
Qed.

End ExtractorMore.

(** ** Keyword density and the name of the candidate *)

Section DensityMore.
Import KeywordExtractorSkills.

Lemma count_loop {B} (g : B → list string) (l : list B) (n : nat) :
  foldl (λ keyword_count x, (keyword_count + length (g x))%nat) n l
  = (n + length (flat_map g l))%nat.
Proof.
  revert n. induction l as [|x l IH]; intros n; simpl; [lia|].
  rewrite IH, length_app. lia.
Qed.

Lemma len_mul10 (n : nat) : len n * Zq 10 = len (10 * n).
Proof.
  unfold len. rewrite Nat2Z.inj_mul, (Z.mul_comm (Z.of_nat 10)).
  unfold Zq. apply Qc_is_canon. qc_to_q. rewrite inject_Z_mult. reflexivity.
Qed.

Lemma keyword_density_unfold (text : string) (keywords : list string) :
  text ≠ "" → keywords ≠ [] → count_words false (lower text) ≠ 0%nat →
  calculate_keyword_density text keywords
  = py_min 1
      (len (10 * length (flat_map (λ keyword,
                            findall (word_pattern (lower keyword)) (lower text)) keywords))
       / len (count_words false (lower text))).
Proof.
  intros Ht Hk Hw. unfold calculate_keyword_density.
  destruct text as [|c t]; [done|]. destruct keywords as [|k ks]; [done|].
  destruct (Nat.eqb_spec (count_words false (lower (String c t))) 0); [done|].
  rewrite (count_loop (λ keyword, findall (word_pattern (lower keyword))
                                    (lower (String c t)))).
  rewrite <- len_mul10. cbn [Nat.add]. f_equal. unfold Qcdiv. ring.
Qed.

(** X18. The density lies between 0 and 1; it is 0 for a text without a word
    and for an empty list of keywords, and 1 as soon as there is one
    keyword occurrence for every ten words. *)
Theorem keyword_density_range (text : string) (keywords : list string) :
  let total_words := count_words false (lower text) in
  let keyword_count :=
    length (flat_map (λ keyword, findall (word_pattern (lower keyword)) (lower text))
              keywords) in
  0 ≤ calculate_keyword_density text keywords ∧
  calculate_keyword_density text keywords ≤ 1 ∧
  (total_words = 0%nat ∨ keywords = [] → calculate_keyword_density text keywords = 0) ∧
  ((0 < total_words ≤ 10 * keyword_count)%nat →
   calculate_keyword_density text keywords = 1).
Proof.
  intros total_words keyword_count.
  assert (Hzero : total_words = 0%nat ∨ keywords = [] →
                  calculate_keyword_density text keywords = 0).
  { unfold calculate_keyword_density. fold total_words. intros [Hw| ->].
    - destruct text as [|c t]; [done|]. destruct keywords as [|k ks]; [done|].
      by rewrite Hw.
    - by destruct text. }
  destruct (decide (total_words = 0%nat)) as [Hw|Hw].
  { rewrite Hzero by by left. repeat split; try done. lia. }
  destruct (decide (keywords = [])) as [Hk|Hk].
  { rewrite Hzero by by right. repeat split; try done.
    intros [_ Hc]. subst keywords. simpl in keyword_count. lia. }
  assert (Ht : text ≠ "").
  { intros ->. by apply Hw. }
  rewrite (keyword_density_unfold text keywords Ht Hk Hw).
  fold total_words keyword_count.
  assert (Hpos : 0 < len total_words) by (apply len_pos; lia).
  split; [|split; [|split]].
  - apply py_min_glb; [done|].
    rewrite <- (Qcdiv_0 (len total_words)).
    apply Qcdiv_le_compat; [done|apply len_nonneg].
  - apply py_min_le_l.
  - intros [?|?]; done.
  - intros [_ Hc]. unfold py_min. rewrite decide_False; [done|].
    apply Qcle_not_lt. rewrite <- (Qcdiv_self (len total_words)) at 1 by done.
    apply Qcdiv_le_compat; [done|by apply len_le].
Qed.

Lemma keyword_density_range_witness :
  calculate_keyword_density "" ["java"] = 0 ∧
  calculate_keyword_density "Java and more Java" ["java"] = 1.
Proof.
  split.
  - apply (keyword_density_range "" ["java"]). by left.
  - apply (keyword_density_range "Java and more Java" ["java"]). by_evaluation.
Defined.

Lemma has_upper_rev_app (a b : string) :
  has_upper (String.rev_app a b) = has_upper a || has_upper b.
Proof.
  revert b. induction a as [|c a IH]; intros b; simpl; [done|].
  rewrite IH. simpl. by destruct (is_upper c), (has_upper a), (has_upper b).
Qed.

Lemma split_lines_no_upper (cur s : string) :
  has_upper cur = false → has_upper s = false →
  Forall (λ line, has_upper line = false) (split_lines cur s).
Proof.
  revert cur. induction s as [|c s IH]; intros cur Hc Hs; simpl.
  - constructor; [|done]. unfold String.rev. by rewrite has_upper_rev_app, Hc.
  - simpl in Hs. apply orb_false_iff in Hs as [Hc' Hs].
    destruct (Ascii.eqb c newline).
    + constructor; [|by apply IH].
      unfold String.rev. by rewrite has_upper_rev_app, Hc.
    + apply IH; [|done]. simpl. by rewrite Hc', Hc.
Qed.

Lemma compile_name_pattern :
  ∃ r1 r2, compile name_pattern
           = Some (Cat WordB (Cat (Group 1 (Cat (Set_ [CRange "A" "Z"]) r1)) r2)).
Proof. eexists _, _. reflexivity. Qed.

(** Case being told apart, a match of a pattern of that shape starts at
    an upper-case letter. *)
Lemma search_upper_start (fl : Flags) (bound : nat) (r1 r2 : regex) (s : string)
    (i : N) (pv : option ascii) :
  IGNORECASE fl = false → has_upper s = false →
  search_from fl bound
    (Cat WordB (Cat (Group 1 (Cat (Set_ [CRange "A" "Z"]) r1)) r2)) i pv s
  = None.
Proof.
  intros Hfl.
  assert (Hrun : ∀ p, has_upper (rest p) = false →
    match_at fl bound (Cat WordB (Cat (Group 1 (Cat (Set_ [CRange "A" "Z"]) r1)) r2)) p
    = None).
  { intros p Hu. unfold match_at. cbn [run]. destruct (at_boundary p); [|done].
    unfold one. destruct (rest p) as [|a t]; [done|].
    simpl in Hu. apply orb_false_iff in Hu as [Ha _].
    unfold set_has. cbn [existsb]. rewrite Hfl. cbn [andb orb].
    change (item_has (CRange "A" "Z") a) with (is_upper a). by rewrite Ha. }
  revert i pv. induction s as [|a t IH]; intros i pv Hu; cbn [search_from].
  - by rewrite Hrun.
  - rewrite Hrun by done. apply IH. simpl in Hu. by apply orb_false_iff in Hu as [_ Ht].
Qed.

(** X19. No name is found in a text without an upper-case letter. *)
Theorem extract_name_needs_capital (text : string) :
  has_upper text = false → _extract_name text = "".
Proof.
  intros Hu. unfold _extract_name.
  assert (Hl : Forall (λ line, has_upper line = false)
                 (take 5 (split_lines EmptyString text))).
  { apply Forall_take. by apply split_lines_no_upper. }
  induction Hl as [|line lines Hline _ IH]; [done|]. cbn [name_in_lines].
  destruct (_ || _); [done|].
  unfold search at 1. destruct compile_name_pattern as (r1 & r2 & ->).
  by rewrite search_upper_start.
Qed.

Lemma extract_name_needs_capital_witness :
  _extract_name "john doe, developer" = "".
Proof. by apply extract_name_needs_capital. Defined.

End DensityMore.

(** ** Word patterns are read literally *)

Section WordPatterns.
Import KeywordExtractorSkills WordPattern.

Lemma plain_atom (c : ascii) (s' : string) (n' g : nat) :
  in_string c special_chars = false →
  parse_seq (S n') (String c s') g
  = match parse_quant (Lit c) s' with
    | Some (rq, s'') =>
      match parse_seq n' s'' g with
      | Some (r2, s3, g'') => Some (cat rq r2, s3, g'')
      | None => None
      end
    | None => None
    end.
Proof.
  destruct c as [[] [] [] [] [] [] [] []]; intros H; vm_compute in H;
    try discriminate H; reflexivity.
Qed.

Lemma escaped_atom (c : ascii) (s' : string) (n' g : nat) :
  in_string c special_chars = true →
  parse_seq (S n') (String "\" (String c s')) g
  = match parse_quant (Lit c) s' with
    | Some (rq, s'') =>
      match parse_seq n' s'' g with
      | Some (r2, s3, g'') => Some (cat rq r2, s3, g'')
      | None => None
      end
    | None => None
    end.
Proof.
  destruct c as [[] [] [] [] [] [] [] []]; intros H; vm_compute in H;
    try discriminate H; reflexivity.
Qed.

Lemma no_quantifier (r : regex) (h : ascii) (t : string) :
  h = "\"%char ∨ in_string h special_chars = false →
  parse_quant r (String h t) = Some (r, String h t).
Proof.
  intros [->|H]; [reflexivity|]. revert H.
  destruct h as [[] [] [] [] [] [] [] []]; intros H; vm_compute in H;
    try discriminate H; reflexivity.
Qed.

Lemma escape_head (v : string) :
  ∃ h t, escape v +:+ "\b" = String h t
         ∧ (h = "\"%char ∨ in_string h special_chars = false).
Proof.
  destruct v as [|c v]; cbn [escape].
  - eexists _, _. split; [reflexivity|by left].
  - destruct (in_string c special_chars) eqn:E; cbn [String.append].
    + eexists _, _. split; [reflexivity|by left].
    + eexists _, _. split; [reflexivity|by right].
Qed.

Lemma literally_cat (r : regex) (v : string) :
  r ≠ Eps → cat r (literally v) = Cat r (literally v).
Proof. intros Hr. destruct r; try done; by destruct v. Qed.

Lemma parse_escaped (v : string) (n g : nat) :
  (String.length v + 2 ≤ n)%nat →
  parse_seq n (escape v +:+ "\b") g = Some (literally v, EmptyString, g).
Proof.
  revert n. induction v as [|c v IH]; intros n Hn.
  - destruct n as [|[|n]]; [simpl in Hn; lia..|]. reflexivity.
  - destruct n as [|n]; [lia|]. simpl in Hn.
    assert (E : parse_seq (S n) (escape (String c v) +:+ "\b") g
      = match parse_quant (Lit c) (escape v +:+ "\b") with
        | Some (rq, s'') =>
          match parse_seq n s'' g with
          | Some (r2, s3, g'') => Some (cat rq r2, s3, g'')
          | None => None
          end
        | None => None
        end).
    { cbn [escape]. destruct (in_string c special_chars) eqn:Hc.
      - by apply escaped_atom.
      - by apply plain_atom. }
    rewrite E. destruct (escape_head v) as (h & t & Eh & Hh).
    rewrite Eh, no_quantifier by done. rewrite <- Eh.
    assert (Hn' : (String.length v + 2 ≤ n)%nat) by (clear -Hn; lia).
    rewrite (IH n Hn'). by rewrite literally_cat.
Qed.

Lemma escape_length (v : string) : (String.length v ≤ String.length (escape v))%nat.
Proof.
  induction v as [|c v IH]; cbn [escape String.length]; [lia|].
  destruct (in_string c special_chars); cbn [String.length]; lia.
Qed.

Lemma append_length (s t : string) :
  String.length (s +:+ t) = (String.length s + String.length t)%nat.
Proof. induction s as [|c s IH]; [done|]. simpl. by f_equal. Qed.

Lemma compile_word_pattern (v : string) :
  compile (word_pattern v) = Some (Cat WordB (literally v)).
Proof.
  unfold compile, word_pattern.
  change ("\b" +:+ escape v +:+ "\b")
    with (String "\" (String "b" (escape v +:+ "\b"))).
  set (s := escape v +:+ "\b").
  assert (Hlen : (String.length v ≤ String.length s)%nat).
  { unfold s. rewrite append_length. pose proof (escape_length v). lia. }
  cbn [String.length]. 
  replace (2 * S (S (String.length s)) + 2)%nat
    with (S (S (String.length s + String.length s + 4)))%nat by lia.
  cbn [parse_alt].
  assert (E : parse_seq (S (String.length s + String.length s + 4))
                (String "\" (String "b" s)) 1
              = Some (Cat WordB (literally v), EmptyString, 1%nat)).
  { transitivity
      (match parse_quant WordB s with
       | Some (rq, s'') =>
         match parse_seq (String.length s + String.length s + 4) s'' 1 with
         | Some (r2, s3, g'') => Some (cat rq r2, s3, g'')
         | None => None
         end
       | None => None
       end); [reflexivity|].
    destruct (escape_head v) as (h & t & Eh & Hh). fold s in Eh.
    rewrite Eh, no_quantifier by done. rewrite <- Eh. unfold s.
    rewrite parse_escaped by (fold s; lia). by rewrite literally_cat. }
  by rewrite E.
Qed.

Lemma run_literally (bound : nat) (v : string) (p : Pos) (c : Caps)
    (k : Pos → Caps → option (Pos * Caps)) :
  run no_flags bound (literally v) p c k
  = match skip v p with
    | Some p' => if at_boundary p' then k p' c else None
    | None => None
    end.
Proof.
  revert p. induction v as [|a v IH]; intros p; [reflexivity|].
  cbn [literally run skip]. unfold one. destruct (rest p) as [|x t] eqn:Ep; [done|].
  change (lit_has no_flags a x) with (Ascii.eqb x a).
  destruct (Ascii.eqb x a); [apply IH|done].
Qed.

Lemma skip_prev (v : string) (a : ascii) (p p' : Pos) :
  skip (v +:+ String a EmptyString) p = Some p' → prev p' = Some a.
Proof.
  revert p. induction v as [|x v IH]; intros p; simpl.
  - destruct p as [i pv [|y t]]; simpl; [done|].
    destruct (Ascii.eqb_spec y a) as [->|]; [|done]. by intros [= <-].
  - destruct (rest p) as [|y t]; [done|]. destruct (Ascii.eqb y x); [apply IH|done].
Qed.

(** X20. Whatever characters a variation is made of, its pattern is a valid
    pattern and none of them is read as an operator: a match at a position
    is the variation itself, character by character, between two word
    boundaries.  A variation that ends in a character that is not a word
    character, such as [c++] or [c#], is therefore found only where a word
    character follows it at once. *)
Theorem word_pattern_literal (variation : string) :
  compile (word_pattern variation) = Some (Cat WordB (literally variation)) ∧
  (∀ bound p,
     match_at no_flags bound (Cat WordB (literally variation)) p
     = if at_boundary p then
         match skip variation p with
         | Some p' =>
           if at_boundary p'
           then Some {| m_start := idx p; m_stop := p'; m_caps := [] |}
           else None
         | None => None
         end
       else None) ∧
  (∀ v a bound p mt,
     variation = v +:+ String a EmptyString → is_word a = false →
     match_at no_flags bound (Cat WordB (literally variation)) p = Some mt →
     ∃ x t, rest (m_stop mt) = String x t ∧ is_word x = true).
Proof.
  assert (Hm : ∀ bound p,
     match_at no_flags bound (Cat WordB (literally variation)) p
     = if at_boundary p then
         match skip variation p with
         | Some p' =>
           if at_boundary p'
           then Some {| m_start := idx p; m_stop := p'; m_caps := [] |}
           else None
         | None => None
         end
       else None).
  { intros bound p. unfold match_at. cbn [run].
    destruct (at_boundary p); [|done]. rewrite run_literally.
    destruct (skip variation p) as [p'|]; [|done]. by destruct (at_boundary p'). }
  split; [apply compile_word_pattern|]. split; [exact Hm|].
  intros v a bound p mt -> Ha. rewrite Hm.
  destruct (at_boundary p); [|done].
  destruct (skip _ p) as [p'|] eqn:Es; [|done].
  destruct (at_boundary p') eqn:Eb; [|done]. intros [= <-]. simpl.
  apply skip_prev in Es. unfold at_boundary in Eb. rewrite Es, Ha in Eb.
  destruct (rest p') as [|x t]; [done|]. exists x, t. split; [done|].
  by destruct (is_word x).
Qed.

Lemma word_pattern_literal_witness :
  extract_skills _get_default_taxonomy "Five years of C++ and C#." = ∅ ∧
  ∃ x t, rest (advance (advance (advance (start_of "c++11")))) = String x t
         ∧ is_word x = true.
Proof.
  split; [by_evaluation|].
  destruct (word_pattern_literal "c++") as (_ & _ & H).
  apply (H "c+" "+"%char 5%nat (start_of "c++11")
           {| m_start := 0; m_stop := advance (advance (advance (start_of "c++11")));
              m_caps := [] |}); reflexivity.
Defined.

End WordPatterns.
